(** * kubernetes-resource-units: a shallow embedding of [src/index.ts]

    The library parses Kubernetes resource strings such as [500m] or
    [1.5Gi], scales them to a unit-less base value, compares them and
    formats base values back.  A TypeScript value of type
    [number | bigint] is either an IEEE-754 binary64 float or an
    unbounded integer; the embedding keeps both: [number] is Rocq's
    primitive [float] (binary64, one NaN), [bigint] is [Z].

    Exceptions are values of the [result] type.  The JavaScript
    built-ins the source calls ([BigInt], [Number], [Math.trunc],
    [String], [parseFloat], [**], [Intl.NumberFormat]) are modelled in
    module [Js] after ECMA-262 / ECMA-402. *)

From Stdlib Require Import ZArith QArith Floats Lia String Ascii List Bool.
From Stdlib Require Import DecimalString.
From Stdlib Require DecimalFacts DecimalPos DecimalN.
Import ListNotations.

Set Warnings "-inexact-float".

Local Open Scope string_scope.
Local Open Scope Z_scope.

(** ** Exceptions *)

(** [parseResource] throws [new Error(...)] with one of two messages;
    the [BigInt] conversions and [bigint] division throw the built-in
    [RangeError]. *)
Inductive exn : Type :=
| InvalidResourceString (k8sResource : string)
  (* The value ... is not a valid resource string. *)
| NumberParseError (k8sResource : string)
  (* Error when parsing a number from value ... *)
| RangeError.

Inductive result (A : Type) : Type :=
| Ok (a : A)
| Throw (e : exn).
Arguments Ok {A} a.
Arguments Throw {A} e.

Definition bind {A B : Type} (m : result A) (k : A -> result B) : result B :=
  match m with
  | Ok a => k a
  | Throw e => Throw e
  end.

Notation "x <- m ;; k" := (bind m (fun x => k))
  (at level 61, m at next level, right associativity).
Notation "' p <- m ;; k" := (bind m (fun p => k))
  (at level 61, p pattern, m at next level, right associativity).

Definition returns {A : Type} (m : result A) : Prop := exists a, m = Ok a.
Definition throws {A : Type} (m : result A) : Prop := exists e, m = Throw e.

(** ** JavaScript numbers, bigints and the built-ins the source uses *)

Module Js.

(** [number | bigint] *)
Inductive numeric : Type :=
| Num (x : float)
| Big (z : Z).

Definition is_bigint (v : numeric) : bool :=
  match v with Big _ => true | Num _ => false end.

(** *** Rounding exact values to binary64 (round to nearest, ties to even) *)

(** [Number(z)] for a bigint [z]. *)
Definition of_Z (z : Z) : float :=
  SF2Prim (binary_normalize prec emax z 0 false).

(** The binary64 nearest to [num / den]. *)
Definition of_ratio (num den : positive) : float :=
  SF2Prim (SFdiv prec emax (S754_finite false num 0) (S754_finite false den 0)).

(** The binary64 nearest to [s * 10^t], [0 <= s]: the value of a
    decimal literal with digits [s] and exponent [t]. *)
Definition of_decimal (s t : Z) : float :=
  match s with
  | Zpos p =>
      if 0 <=? t then of_Z (s * 10 ^ t)
      else of_ratio p (Z.to_pos (10 ^ (- t)))
  | _ => 0%float
  end.

(** *** Comparison operators *)

(** [x === y], [x <= y] and [x > y] on numbers. *)
Definition number_eq (x y : float) : bool := (x =? y)%float.
Definition number_le (x y : float) : bool := (x <=? y)%float.
Definition number_gt (x y : float) : bool := (y <? x)%float.

(** Exact comparison of a bigint with a number (ECMA-262
    BigInt::lessThan with a Number operand compares the mathematical
    values; [None] when the number is NaN). *)
Definition compare_Z_float (z : Z) (y : float) : option comparison :=
  match Prim2SF y with
  | S754_nan => None
  | S754_infinity s => Some (if s then Gt else Lt)
  | S754_zero _ => Some (z ?= 0)
  | S754_finite s m e =>
      let v := cond_Zopp s (Zpos m) in
      Some (if 0 <=? e then z ?= v * 2 ^ e else z * 2 ^ (- e) ?= v)
  end.

Definition compare_numeric (a b : numeric) : option comparison :=
  match a, b with
  | Num x, Num y => SFcompare (Prim2SF x) (Prim2SF y)
  | Big x, Big y => Some (x ?= y)
  | Big x, Num y => compare_Z_float x y
  | Num x, Big y => option_map CompOpp (compare_Z_float y x)
  end.

(** [a < b] and [a >= b] on [number | bigint] operands. *)
Definition ltb (a b : numeric) : bool :=
  match compare_numeric a b with Some Lt => true | _ => false end.
Definition geb (a b : numeric) : bool :=
  match compare_numeric a b with Some (Gt | Eq) => true | _ => false end.

(** *** Conversions *)

(** [BigInt(x)] on a number: the exact integer value, [RangeError]
    when [x] is NaN, infinite or has a fractional part
    (NumberToBigInt). *)
Definition NumberToBigInt (x : float) : result Z :=
  match Prim2SF x with
  | S754_zero _ => Ok 0
  | S754_finite s m e =>
      if 0 <=? e then Ok (cond_Zopp s (Zpos m * 2 ^ e))
      else if Zpos m mod 2 ^ (- e) =? 0
           then Ok (cond_Zopp s (Zpos m / 2 ^ (- e)))
           else Throw RangeError
  | _ => Throw RangeError
  end.

(** [BigInt(v)] on [number | bigint]. *)
Definition BigInt (v : numeric) : result Z :=
  match v with
  | Big z => Ok z
  | Num x => NumberToBigInt x
  end.

(** [Number(v)] on [number | bigint]. *)
Definition Number (v : numeric) : float :=
  match v with
  | Num x => x
  | Big z => of_Z z
  end.

(** *** The mathematical value of a number

    [None] for NaN and the infinities; both zeros have value [0]. *)
Definition SF2Q (f : spec_float) : option Q :=
  match f with
  | S754_zero _ => Some (inject_Z 0)
  | S754_finite s m e =>
      Some (if 0 <=? e
            then inject_Z (cond_Zopp s (Zpos m) * 2 ^ e)
            else Qmake (cond_Zopp s (Zpos m)) (Z.to_pos (2 ^ (- e))))
  | _ => None
  end.

Definition value (v : numeric) : option Q :=
  match v with
  | Num x => SF2Q (Prim2SF x)
  | Big z => Some (inject_Z z)
  end.

(** [Math.trunc(x)]: the integral part, keeping the sign of zero. *)
Definition Math_trunc (x : float) : float :=
  match Prim2SF x with
  | S754_finite s m e =>
      if e <? 0
      then SF2Prim (binary_normalize prec emax
                      (cond_Zopp s (Zpos m / 2 ^ (- e))) 0 s)
      else x
  | _ => x
  end.

(** [a / b] on two bigints: truncates toward zero, [RangeError] on a
    zero divisor. *)
Definition bigint_div (a b : Z) : result Z :=
  if b =? 0 then Throw RangeError else Ok (Z.quot a b).

(** [10 ** p] for a non-negative integer [p].  Number::exponentiate
    is implementation-approximated; the model takes the correctly
    rounded power, which is the exact one up to [10 ** 22]. *)
Definition pow10 (p : Z) : float := of_Z (10 ^ p).

Definition MAX_SAFE_INTEGER : float := 9007199254740991%float.

(** *** Decimal digits *)

Definition is_digit (c : ascii) : bool :=
  let n := N_of_ascii c in
  ((48 <=? n) && (n <=? 57))%N.

Definition digit_value (c : ascii) : Z := Z.of_N (N_of_ascii c) - 48.

(** The value of a string of decimal digits. *)
Fixpoint digits_value_from (acc : Z) (s : string) : Z :=
  match s with
  | EmptyString => acc
  | String c s' => digits_value_from (10 * acc + digit_value c) s'
  end.
Definition digits_value (s : string) : Z := digits_value_from 0 s.

(** The decimal digits of a non-negative integer, no leading zeros. *)
Definition decimal_digits (z : Z) : string :=
  NilZero.string_of_uint (N.to_uint (Z.to_N z)).

Fixpoint zeros (n : nat) : string :=
  match n with
  | O => EmptyString
  | S n' => String "0" (zeros n')
  end.

(** *** Shortest round-trip digits

    ECMA-262 Number::toString: for a finite positive [x] take
    integers [n], [k], [s] with [k >= 1], [10^(k-1) <= s < 10^k],
    [s * 10^(n-k)] reading back as [x], and [k] as small as
    possible; among several [s], the one closest to [x], ties to
    the even [s]. *)

(** A positive finite value [m * 2^e] as a fraction. *)
Definition fraction (m : positive) (e : Z) : Z * Z :=
  if 0 <=? e then (Zpos m * 2 ^ e, 1) else (Zpos m, 2 ^ (- e)).

Definition scale10 (v : Z * Z) (t : Z) : Z * Z :=
  let '(num, den) := v in
  if 0 <=? t then (num * 10 ^ t, den) else (num, den * 10 ^ (- t)).

Definition digits10 (z : Z) : Z := Z.of_nat (String.length (decimal_digits z)).

(** [n] with [10^(n-1) <= v < 10^n]. *)
Definition decimal_exponent (v : Z * Z) : Z :=
  let '(num, den) := v in
  let n0 := digits10 num - digits10 den in
  let '(a, b) := scale10 v (- n0) in
  if b <=? a then n0 + 1 else n0.

(** The [k]-digit candidate for [x], if one reads back as [x]. *)
Definition shortest_at (x : float) (v : Z * Z) (n k : Z) : option Z :=
  let '(a, b) := scale10 v (k - n) in
  let lo := a / b in
  let r := a mod b in
  let ok_lo := number_eq (of_decimal lo (n - k)) x in
  let ok_hi := negb (r =? 0) && number_eq (of_decimal (lo + 1) (n - k)) x in
  match ok_lo, ok_hi with
  | true, true =>
      Some match 2 * r ?= b with
           | Lt => lo
           | Gt => lo + 1
           | Eq => if Z.even lo then lo else lo + 1
           end
  | true, false => Some lo
  | false, true => Some (lo + 1)
  | false, false => None
  end.

Fixpoint shortest_from (fuel : nat) (x : float) (v : Z * Z) (n k : Z)
  : option (Z * Z) :=
  match fuel with
  | O => None
  | S fuel' =>
      match shortest_at x v n k with
      | Some s => Some (s, n - k)
      | None => shortest_from fuel' x v n (k + 1)
      end
  end.

(** Drop trailing zero digits of [s], raising the exponent. *)
Fixpoint strip_zeros (fuel : nat) (s t : Z) : Z * Z :=
  match fuel with
  | O => (s, t)
  | S fuel' =>
      if (s mod 10 =? 0) && negb (s =? 0)
      then strip_zeros fuel' (s / 10) (t + 1)
      else (s, t)
  end.

(** [(s, t)] with [x] the binary64 nearest to [s * 10^t] and [s]
    the shortest digit string, for [x = m * 2^e > 0].  Seventeen
    digits always suffice for binary64. *)
Definition shortest_decimal (x : float) (m : positive) (e : Z) : Z * Z :=
  let v := fraction m e in
  let n := decimal_exponent v in
  match shortest_from 17 x v n 1 with
  | Some (s, t) => strip_zeros 20 s t
  | None => (0, 0)
  end.

(** *** [String(x)] on a number (Number::toString, radix 10) *)

Definition exponent_part (e : Z) : string :=
  "e" ++ (if e <? 0 then "-" else "+") ++ decimal_digits (Z.abs e).

Definition toString_positive (s t : Z) : string :=
  let ds := decimal_digits s in
  let k := Z.of_nat (String.length ds) in
  let n := k + t in
  if (k <=? n) && (n <=? 21) then
    ds ++ zeros (Z.to_nat (n - k))
  else if (0 <? n) && (n <=? 21) then
    substring 0 (Z.to_nat n) ds ++ "." ++
    substring (Z.to_nat n) (Z.to_nat (k - n)) ds
  else if (-6 <? n) && (n <=? 0) then
    "0." ++ zeros (Z.to_nat (- n)) ++ ds
  else if k =? 1 then
    ds ++ exponent_part (n - 1)
  else
    substring 0 1 ds ++ "." ++ substring 1 (Z.to_nat (k - 1)) ds ++
    exponent_part (n - 1).

Definition String_of_number (x : float) : string :=
  match Prim2SF x with
  | S754_nan => "NaN"
  | S754_zero _ => "0"
  | S754_infinity s => (if s then "-" else "") ++ "Infinity"
  | S754_finite sg m e =>
      let '(s, t) := shortest_decimal (abs x) m e in
      (if sg then "-" else "") ++ toString_positive s t
  end.

(** *** [parseFloat]

    The model reads an unsigned decimal literal
    [digits (. digits)? (e sign? digits)?] at the start of the string
    and returns the binary64 nearest to its value, NaN when the
    string does not start with a digit.  A leading sign, leading
    white space, a literal that starts with the dot and the literal
    [Infinity] are not modelled: [parseResource] only passes strings
    that its regular expression matched, and they start with a digit.
    (ECMA-262 lets an implementation round after the twentieth
    significant digit; the model rounds the exact value, as the
    common engines do.) *)

Fixpoint span_digits (s : string) : string * string :=
  match s with
  | String c s' =>
      if is_digit c
      then let '(ds, rest) := span_digits s' in (String c ds, rest)
      else (EmptyString, s)
  | EmptyString => (EmptyString, EmptyString)
  end.

(** The value of the text after the exponent marker: an optional sign
    and digits; [0] when no digit follows. *)
Definition exponent_value (s : string) : Z :=
  match s with
  | String "-" s' => let '(es, _) := span_digits s' in - digits_value es
  | String "+" s' => let '(es, _) := span_digits s' in digits_value es
  | _ => let '(es, _) := span_digits s in digits_value es
  end.

Definition parseFloat (s : string) : float :=
  let '(ip, r1) := span_digits s in
  match ip with
  | EmptyString => nan
  | _ =>
      let '(fp, r2) :=
        match r1 with
        | String "." r1' => span_digits r1'
        | _ => (EmptyString, r1)
        end in
      let ex :=
        match r2 with
        | String "e" r2' | String "E" r2' => exponent_value r2'
        | _ => 0
        end in
      of_decimal (digits_value (ip ++ fp)) (ex - Z.of_nat (String.length fp))
  end.

Definition isFinite (x : float) : bool :=
  match Prim2SF x with
  | S754_nan | S754_infinity _ => false
  | _ => true
  end.

(** *** [Intl.NumberFormat(en-US, { maximumFractionDigits: 100,
        useGrouping: false }).format(x)]

    The formatter prints the shortest round-trip digits of [x] in
    plain positional notation, without grouping, rounding (half
    away from zero) only a value with more than one hundred
    fraction digits. *)

Definition round_to_fraction_digits (f : Z) (s t : Z) : Z * Z :=
  if t <? - f then
    let d := 10 ^ (- t - f) in
    strip_zeros 400 ((2 * s + d) / (2 * d)) (- f)
  else (s, t).

Definition plain_positive (s t : Z) : string :=
  let ds := decimal_digits s in
  let k := Z.of_nat (String.length ds) in
  if s =? 0 then "0"
  else if 0 <=? t then ds ++ zeros (Z.to_nat t)
  else if - t <? k then
    substring 0 (Z.to_nat (k + t)) ds ++ "." ++
    substring (Z.to_nat (k + t)) (Z.to_nat (- t)) ds
  else "0." ++ zeros (Z.to_nat (- t - k)) ++ ds.

Definition NumberFormat_format (x : float) : string :=
  match Prim2SF x with
  | S754_nan => "NaN"
  | S754_zero sg => (if sg then "-" else "") ++ "0"
  | S754_infinity sg => (if sg then "-" else "") ++ "∞"
  | S754_finite sg m e =>
      let '(s, t) := shortest_decimal (abs x) m e in
      let '(s', t') := round_to_fraction_digits 100 s t in
      (if sg then "-" else "") ++ plain_positive s' t'
  end.

End Js.

Import Js.

(** ** The unit table *)

(** [K8sResourceUnit = keyof typeof unitMultiplier]; [Empty] is the
    key of the empty string (no unit).  The constructors live in module
    [U] so that the one-letter keys do not capture variable names. *)
Module U.
Inductive K8sResourceUnit : Type :=
| u | m | k | M | G | T | P | E
| Empty
| B | Ki | Mi | Gi | Ti | Pi | Ei.
End U.
Abbreviation K8sResourceUnit := U.K8sResourceUnit.

Definition K8sResourceUnit_eqb (a b : K8sResourceUnit) : bool :=
  match a, b with
  | U.u, U.u | U.m, U.m | U.k, U.k | U.M, U.M | U.G, U.G | U.T, U.T
  | U.P, U.P | U.E, U.E
  | U.Empty, U.Empty
  | U.B, U.B | U.Ki, U.Ki | U.Mi, U.Mi | U.Gi, U.Gi | U.Ti, U.Ti
  | U.Pi, U.Pi | U.Ei, U.Ei => true
  | _, _ => false
  end.

(** The unit token as it is written in a resource string. *)
Definition unit_token (a : K8sResourceUnit) : string :=
  match a with
  | U.u => "u" | U.m => "m" | U.k => "k" | U.M => "M" | U.G => "G"
  | U.T => "T" | U.P => "P" | U.E => "E"
  | U.Empty => ""
  | U.B => "B" | U.Ki => "Ki" | U.Mi => "Mi" | U.Gi => "Gi"
  | U.Ti => "Ti" | U.Pi => "Pi" | U.Ei => "Ei"
  end.

Definition unitMultiplier (a : K8sResourceUnit) : numeric :=
  match a with
  (* CPU units (10-base) *)
  | U.u => Num 1e-6
  | U.m => Num 1e-3
  | U.k => Num 1e3
  | U.M => Num 1e6
  | U.G => Num 1e9
  | U.T => Num 1e12
  | U.P => Num 1e15
  | U.E => Big (10 ^ 18)
  | U.Empty => Num 1 (* no unit *)
  (* Memory units (2-base) *)
  | U.B => Num 1 (* byte *)
  | U.Ki => Num 1024 (* 1 << 10 *)
  | U.Mi => Num 1048576 (* 1 << 20 *)
  | U.Gi => Num 1073741824 (* 1 << 30 *)
  | U.Ti => Num (1073741824 * 1024) (* (1 << 30) * (1 << 10) *)
  | U.Pi => Big (1073741824 * 1048576) (* BigInt(1 << 30) * BigInt(1 << 20) *)
  | U.Ei => Big (1073741824 * 1073741824) (* BigInt(1 << 30) * BigInt(1 << 30) *)
  end.

(** [K8sParsedResource]: [unit] is [K8sResourceUnit | undefined]. *)
Record K8sParsedResource : Type := {
  number : float;
  unit : option K8sResourceUnit;
}.

(** [a.unit === b.unit] *)
Definition unit_eqb (a b : option K8sResourceUnit) : bool :=
  match a, b with
  | None, None => true
  | Some x, Some y => K8sResourceUnit_eqb x y
  | _, _ => false
  end.

(** [if (unit)]: [undefined] and the empty string are falsy. *)
Definition truthy (a : option K8sResourceUnit) : option K8sResourceUnit :=
  match a with
  | None | Some U.Empty => None
  | Some x => Some x
  end.

(** ** The resource grammar: [reK8sResource]

    [/^(?<number>\d+(?:\.\d+)?(?:e\d+)?)(?<unit>u|m|k|M|G|T|P|E|B|Ki|Mi|Gi|Ti|Pi|Ei)?$/]

    Every quantifier of the expression is followed by something that
    cannot start with what the quantifier consumes, so the backtracking
    matcher succeeds only on the greedy path, which [reK8sResource]
    follows: digits, an optional fraction, an optional exponent, an
    optional unit, end of input.  The result is the pair of named
    groups. *)

(** The alternatives of the [unit] group, in the order of the
    expression. *)
Definition unit_alternatives : list K8sResourceUnit :=
  [U.u; U.m; U.k; U.M; U.G; U.T; U.P; U.E; U.B;
   U.Ki; U.Mi; U.Gi; U.Ti; U.Pi; U.Ei].

(** [(?<unit>...)?$] against the rest of the input: the group is
    [undefined] on the empty rest, otherwise the alternative that is
    the whole rest. *)
Definition match_unit (s : string) : option (option K8sResourceUnit) :=
  if String.eqb s "" then Some None
  else
    match find (fun a => String.eqb s (unit_token a)) unit_alternatives with
    | Some a => Some (Some a)
    | None => None
    end.

(** [(?:c\d+)?] for a marker character [c]: the consumed text and the rest. *)
Definition match_optional_group (c : ascii) (s : string) : string * string :=
  match s with
  | String c' s' =>
      if Ascii.eqb c' c then
        let '(ds, rest) := span_digits s' in
        match ds with
        | EmptyString => (EmptyString, s)
        | _ => (String c ds, rest)
        end
      else (EmptyString, s)
  | EmptyString => (EmptyString, s)
  end.

Definition reK8sResource (s : string)
  : option (string * option K8sResourceUnit) :=
  let '(ip, r1) := span_digits s in
  match ip with
  | EmptyString => None
  | _ =>
      let '(fp, r2) := match_optional_group "." r1 in
      let '(ep, r3) := match_optional_group "e" r2 in
      match match_unit r3 with
      | Some unitPart => Some (ip ++ fp ++ ep, unitPart)
      | None => None
      end
  end.

(** ** [parseResource] *)

Definition parseResource (k8sResource : string) : result K8sParsedResource :=
  match reK8sResource k8sResource with
  | None => Throw (InvalidResourceString k8sResource)
  | Some (numberPart, unitPart) =>
      let number := parseFloat numberPart in
      if negb (isFinite number)
      then Throw (NumberParseError k8sResource)
      else Ok {| number := number; unit := unitPart |}
  end.

(** ** [getPrecision]

    The result is a small non-negative integer, kept as a [Z]. *)
Definition getPrecision (n : float) : Z :=
  let sNum := String_of_number n in
  match index 0 "." sNum with
  | None => 0 (* no decimal part *)
  | Some dotIndex =>
      (* number of digits after decimal point *)
      Z.of_nat (String.length sNum) - Z.of_nat dotIndex - 1
  end.

(** ** [parsedResourceToBaseUnit] *)

Definition parsedResourceToBaseUnit (r : K8sParsedResource) : result numeric :=
  let uMul :=
    match unit r with
    | None => Num 1
    | Some a => unitMultiplier a
    end in
  match uMul with
  | Big uMul =>
      let precision := getPrecision (number r) in
      let pMul := pow10 precision in
      scaled <- NumberToBigInt (number r * pMul) ;;
      divisor <- NumberToBigInt pMul ;;
      q <- bigint_div (scaled * uMul) divisor ;;
      Ok (Big q)
  | Num uMul =>
      let result := (number r * uMul)%float in
      if number_le result MAX_SAFE_INTEGER then Ok (Num result)
      else
        let precision := getPrecision (number r) in
        let mul := pow10 precision in
        scaled <- NumberToBigInt (number r * mul) ;;
        uMulBig <- NumberToBigInt uMul ;;
        divisor <- NumberToBigInt mul ;;
        q <- bigint_div (scaled * uMulBig) divisor ;;
        Ok (Big q)
  end.

(** ** [resourceStringToBaseUnit] *)

Definition resourceStringToBaseUnit (s : string) : result numeric :=
  r <- parseResource s ;;
  parsedResourceToBaseUnit r.

(** ** [compareParsedResources]

    [x === y ? 0 : x > y ? 1 : -1] *)
Definition compare_numbers (x y : float) : Z :=
  if number_eq x y then 0 else if number_gt x y then 1 else -1.

Definition compare_bigints (x y : Z) : Z :=
  if x =? y then 0 else if x >? y then 1 else -1.

Definition compareParsedResources (a b : K8sParsedResource) : result Z :=
  if unit_eqb (unit a) (unit b) then
    Ok (compare_numbers (number a) (number b))
  else
    baseUnitA <- parsedResourceToBaseUnit a ;;
    baseUnitB <- parsedResourceToBaseUnit b ;;
    match baseUnitA, baseUnitB with
    | Num x, Num y => Ok (compare_numbers x y)
    | _, _ =>
        bigA <- BigInt baseUnitA ;;
        bigB <- BigInt baseUnitB ;;
        Ok (compare_bigints bigA bigB)
    end.

(** ** [compareResourceStrings] *)

Definition compareResourceStrings (a b : string) : result Z :=
  pa <- parseResource a ;;
  pb <- parseResource b ;;
  compareParsedResources pa pb.

(** ** [formatParsedResource]

    Called without [options] and with the default locale [en-US]. *)
Definition formatParsedResource (parsedResource : K8sParsedResource) : string :=
  let formattedNumber := NumberFormat_format (number parsedResource) in
  formattedNumber ++
  match unit parsedResource with
  | Some a => unit_token a
  | None => ""
  end.

(** ** [scaleBaseUnitCpu] and [scaleBaseUnitMemory]

    The parameter types [CpuUnit] and [MemoryUnit] are the members of
    [cpuUnits] and [memoryUnits]; they exist for the type checker only
    and the functions look any key up in [unitMultiplier], so the
    [unit] argument is an optional [K8sResourceUnit] here. *)

Definition cpuUnits : list K8sResourceUnit :=
  [U.u; U.m; U.k; U.Empty; U.M; U.G; U.T; U.P; U.E].

Definition memoryUnits : list K8sResourceUnit :=
  [U.Empty; U.Ki; U.Mi; U.Gi; U.Ti; U.Pi; U.Ei].

(** The state of the selection loop: the variables [unit] and
    [multiplier]. *)
Definition selection : Type := option K8sResourceUnit * numeric.

(** One iteration of [while (i--) { ... }] at [unit = units[i]]:
    the new [unit] and [multiplier], and whether the loop breaks. *)
Definition select_step (baseUnitNumber : numeric) (a : K8sResourceUnit)
  : result (selection * bool) :=
  let multiplier := unitMultiplier a in
  let n := baseUnitNumber in
  ' (multiplier, n) <-
    (match baseUnitNumber with
     | Big _ =>
         mz <- BigInt multiplier ;;
         Ok (Big mz, n)
     | Num x =>
         match multiplier with
         | Big _ =>
             nz <- NumberToBigInt (Math_trunc x) ;;
             Ok (multiplier, Big nz)
         | Num _ => Ok (multiplier, n)
         end
     end) ;;
  Ok ((Some a, multiplier), geb n multiplier).

(** The loop, over the units it visits in order: [units[i-1]], ...,
    [units[0]].  When no unit breaks the loop, [unit] and [multiplier]
    keep what the last iteration assigned. *)
Fixpoint select_unit (baseUnitNumber : numeric)
  (candidates : list K8sResourceUnit) (current : selection)
  : result selection :=
  match candidates with
  | [] => Ok current
  | a :: rest =>
      ' (next, break) <- select_step baseUnitNumber a ;;
      if break then Ok next
      else select_unit baseUnitNumber rest next
  end.

(** The units visited by [let i = start; while (i--) ...]. *)
Definition descending_from (start : nat) (units : list K8sResourceUnit)
  : list K8sResourceUnit :=
  rev (firstn start units).

(** The common tail of both scale functions: the division and the
    returned record.  [isNumBig !== isUnitBig] holds exactly when one
    operand is a number and the other a bigint; with equal flags the
    [/] operator divides two numbers or two bigints. *)
Definition scale_by (baseUnitNumber : numeric) (sel : selection)
  : result K8sParsedResource :=
  let '(unit, multiplier) := sel in
  number <-
    (match baseUnitNumber, multiplier with
     | Num x, Num y => Ok (Num (x / y))
     | Big nz, Big mz => q <- bigint_div nz mz ;; Ok (Big q)
     | _, _ =>
         (* isNumBig !== isUnitBig *)
         nz <- BigInt baseUnitNumber ;;
         mz <- BigInt multiplier ;;
         q <- bigint_div nz mz ;;
         Ok (Big q)
     end) ;;
  Ok {| number := Number number; unit := unit |}.

(** [multiplier = isNumBig ? BigInt(unitMultiplier[unit]) : unitMultiplier[unit]] *)
Definition explicit_multiplier (baseUnitNumber : numeric) (a : K8sResourceUnit)
  : result numeric :=
  if is_bigint baseUnitNumber
  then mz <- BigInt (unitMultiplier a) ;; Ok (Big mz)
  else Ok (unitMultiplier a).

Definition scaleBaseUnitCpu (baseUnitNumber : numeric)
  (unit : option K8sResourceUnit) : result K8sParsedResource :=
  match truthy unit with
  | Some a =>
      multiplier <- explicit_multiplier baseUnitNumber a ;;
      scale_by baseUnitNumber (unit, multiplier)
  | None =>
      if number_eq (Number baseUnitNumber) 0 then
        (* Special case for 0, we return 0 with no unit *)
        Ok {| number := 0; unit := None |}
      else
        let i := if ltb baseUnitNumber (Num 1) then 3%nat else length cpuUnits in
        sel <- select_unit baseUnitNumber (descending_from i cpuUnits)
                 (unit, Num 1) ;;
        scale_by baseUnitNumber sel
  end.

Definition scaleBaseUnitMemory (baseUnitNumber : numeric)
  (unit : option K8sResourceUnit) : result K8sParsedResource :=
  match truthy unit with
  | Some a =>
      multiplier <- explicit_multiplier baseUnitNumber a ;;
      scale_by baseUnitNumber (unit, multiplier)
  | None =>
      let i := length memoryUnits in
      sel <- select_unit baseUnitNumber (descending_from i memoryUnits)
               (unit, Num 1) ;;
      scale_by baseUnitNumber sel
  end.

(** ** [formatBaseUnitCpu] and [formatBaseUnitMemory]

    [options] carries the [unit]; the remaining formatter options are
    left at their defaults. *)
Definition formatBaseUnitCpu (baseUnitNumber : numeric)
  (unit : option K8sResourceUnit) : result string :=
  parsedResource <- scaleBaseUnitCpu baseUnitNumber unit ;;
  Ok (formatParsedResource parsedResource).

Definition formatBaseUnitMemory (baseUnitNumber : numeric)
  (unit : option K8sResourceUnit) : result string :=
  parsedResource <- scaleBaseUnitMemory baseUnitNumber unit ;;
  Ok (formatParsedResource parsedResource).

(** ** [add] *)

Definition add (a b : numeric) : result numeric :=
  match a, b with
  | Num x, Num y => Ok (Num (x + y))
  | _, _ =>
      x <- BigInt a ;;
      y <- BigInt b ;;
      Ok (Big (x + y))
  end.

(** * Vocabulary of the properties *)

(** ** Mathematical values *)

(** A number is integer-valued: its mathematical value is [n]. *)
Definition integer_valued (x : float) (n : Z) : Prop :=
  exists q, value (Num x) = Some q /\ Qeq q (inject_Z n).

(** The zero of the representation of a multiplier. *)
Definition zero_like (multiplier : numeric) : numeric :=
  match multiplier with
  | Num _ => Num 0
  | Big _ => Big 0
  end.

(** A valid finite binary64 is [m * 2^e] with [-1074 <= e]; in units
    of [2^-1074] it is an integer, its [rank].  The infinities are
    ranked beyond every finite value. *)
Definition rank (f : spec_float) : Z :=
  match f with
  | S754_zero _ => 0
  | S754_finite s mx e => cond_Zopp s (Zpos mx * 2 ^ (e + 1074))
  | S754_infinity s => cond_Zopp s (2 ^ 2100)
  | S754_nan => 0
  end.

Definition not_nan (f : spec_float) : Prop := f <> S754_nan.

(** The rank of a number, and the numbers that are not NaN. *)
Definition number_rank (x : float) : Z := rank (Prim2SF x).

Definition is_number (x : float) : Prop := not_nan (Prim2SF x).

(** [-1], [0] or [1] for a comparison. *)
Definition sign_of (c : comparison) : Z :=
  match c with
  | Eq => 0
  | Lt => -1
  | Gt => 1
  end.

(** ** The grammar of resource strings *)

Fixpoint all_digits (s : string) : bool :=
  match s with
  | EmptyString => true
  | String c s' => is_digit c && all_digits s'
  end.

(** [\d+] *)
Definition digits1 (s : string) : Prop :=
  s <> EmptyString /\ all_digits s = true.

(** An optional group [(?:c\d+)?]: empty, or the marker and digits. *)
Definition optional_group (c : ascii) (g : string) : Prop :=
  g = EmptyString \/ exists d, digits1 d /\ g = String c d.

(** The optional unit: absent, or one of the fifteen tokens. *)
Definition unit_text (unitPart : option K8sResourceUnit) : string :=
  match unitPart with
  | Some a => unit_token a
  | None => EmptyString
  end.

Definition unit_group (unitPart : option K8sResourceUnit) : Prop :=
  match unitPart with
  | Some a => In a unit_alternatives
  | None => True
  end.

(** [resource_string s numberPart unitPart]: the whole of [s] is a
    decimal number [numberPart], with an optional fraction and an
    optional unsigned exponent, immediately followed by the optional
    unit. *)
Inductive resource_string
  : string -> string -> option K8sResourceUnit -> Prop :=
| resource_string_intro (ip fp ep : string) (unitPart : option K8sResourceUnit) :
    digits1 ip ->
    optional_group "." fp ->
    optional_group "e" ep ->
    unit_group unitPart ->
    resource_string (ip ++ fp ++ ep ++ unit_text unitPart)
      (ip ++ fp ++ ep) unitPart.

(** The text does not start with a digit. *)
Definition no_digit_head (s : string) : Prop :=
  match s with
  | String c _ => is_digit c = false
  | EmptyString => True
  end.

(** The head of the text is not the marker [c]. *)
Definition no_marker_head (c : ascii) (s : string) : Prop :=
  match s with
  | String c' _ => Ascii.eqb c' c = false
  | EmptyString => True
  end.

(** ** Quantities *)

(** A valid quantity has a finite mantissa, as [parseResource]
    guarantees. *)
Definition valid_quantity (q : K8sParsedResource) : Prop :=
  isFinite (number q) = true.

(** The comparison of [compareParsedResources] once the base values
    are known. *)
Definition compare_bases (A B : numeric) : result Z :=
  match A, B with
  | Num x, Num y => Ok (compare_numbers x y)
  | _, _ =>
      bigA <- BigInt A ;;
      bigB <- BigInt B ;;
      Ok (compare_bigints bigA bigB)
  end.

(** The multiplier [parsedResourceToBaseUnit] resolves. *)
Definition multiplier_of (unit : option K8sResourceUnit) : numeric :=
  match unit with
  | Some a => unitMultiplier a
  | None => Num 1
  end.

(** The mantissa scaled by [10 ** precision], and that power, as
    bigints. *)
Definition scaled_mantissa (x : float) : result Z :=
  NumberToBigInt (x * pow10 (getPrecision x)).

Definition precision_divisor (x : float) : result Z :=
  NumberToBigInt (pow10 (getPrecision x)).

(** ** Further vocabulary *)

(** The value of [v] is a whole number: always for a bigint, for a
    number when it is finite without fractional part. *)
Definition whole (v : numeric) : Prop :=
  exists (n : Z) (q : Q), value v = Some q /\ Qeq q (inject_Z n).

(** The integral part of a finite value, toward zero. *)
Definition truncated (f : spec_float) : Z :=
  match f with
  | S754_finite s mx e =>
      cond_Zopp s (if 0 <=? e then Zpos mx * 2 ^ e else Zpos mx / 2 ^ (- e))
  | _ => 0
  end.

(** The multiplier of a unit as a bigint, when it is whole. *)
Definition bigint_multiplier (a : K8sResourceUnit) : result Z :=
  BigInt (unitMultiplier a).

(** The units whose multiplier is a number. *)
Definition floating_unit (a : K8sResourceUnit) : Prop :=
  exists c, unitMultiplier a = Num c.

(** A computation that raises nothing but [RangeError]. *)
Definition range_only {A : Type} (m : result A) : Prop :=
  forall e, m = Throw e -> e = RangeError.

(** The value of [v] is the integer [n]. *)
Definition whole_valued (v : numeric) (n : Z) : Prop :=
  exists q, value v = Some q /\ Qeq q (inject_Z n).

(** [r] equals [x] within floating tolerance: neither is NaN and they
    differ by at most [|x| * 2^-50].  Ranks count in units of
    [2^-1074]. *)
Definition within_tolerance (r x : float) : Prop :=
  is_number r /\ is_number x /\
  2 ^ 50 * Z.abs (number_rank r - number_rank x) <= Z.abs (number_rank x).

(** A mantissa away from underflow and overflow: zero, or of magnitude
    at least [2^-1000] and not below [-2^960].  (NaN has the rank [0]
    of the zeros and [+Infinity] a rank beyond every finite one;
    neither has a floating base value.) *)
Definition roundable (x : float) : Prop :=
  number_rank x = 0 \/
  2 ^ 74 <= Z.abs (number_rank x) /\ - 2 ^ 2034 <= number_rank x.

(** * Properties *)

(** ** The conversions between numbers and bigints *)

Section Conversions.

Lemma cond_Zopp_mul (s : bool) (a b : Z) :
  cond_Zopp s (a * b) = cond_Zopp s a * b.
Proof. destruct s; simpl; ring. Qed.

Lemma cond_Zopp_involutive (s : bool) (a : Z) :
  cond_Zopp s (cond_Zopp s a) = a.
Proof. destruct s; simpl; ring. Qed.

Lemma Ok_inj {A : Type} (a b : A) : Ok a = Ok b -> a = b.
Proof. congruence. Qed.

Lemma Some_inj {A : Type} (a b : A) : Some a = Some b -> a = b.
Proof. congruence. Qed.

Lemma inject_Z_eq (a b : Z) : Qeq (inject_Z a) (inject_Z b) -> a = b.
Proof. unfold Qeq. cbn [Qnum Qden inject_Z]. lia. Qed.

(** [BigInt(x)] returns [n] exactly when the mathematical value of
    [x] is the integer [n]. *)
Lemma NumberToBigInt_value (x : float) (n : Z) :
  NumberToBigInt x = Ok n <->
  exists q, SF2Q (Prim2SF x) = Some q /\ Qeq q (inject_Z n).
Proof.
  unfold NumberToBigInt, SF2Q.
  destruct (Prim2SF x) as [s | s | | s mx e].
  - split.
    + intros H. apply Ok_inj in H. subst n. eexists; split; reflexivity.
    + intros (q & Hq & H). apply Some_inj in Hq. subst q.
      apply inject_Z_eq in H. congruence.
  - split; [discriminate | intros (q & H & _); discriminate].
  - split; [discriminate | intros (q & H & _); discriminate].
  - destruct (0 <=? e) eqn:He.
    + split.
      * intros H. apply Ok_inj in H. subst n.
        eexists; split; [reflexivity |].
        rewrite cond_Zopp_mul. reflexivity.
      * intros (q & Hq & H). apply Some_inj in Hq. subst q.
        apply inject_Z_eq in H.
        rewrite cond_Zopp_mul. congruence.
    + apply Z.leb_gt in He.
      assert (Hd : 0 < 2 ^ (- e)) by (apply Z.pow_pos_nonneg; lia).
      set (d := 2 ^ (- e)) in *.
      destruct (Z.pos mx mod d =? 0) eqn:Hm.
      * apply Z.eqb_eq in Hm.
        assert (Hdiv : Z.pos mx = d * (Z.pos mx / d))
          by (apply Z_div_exact_full_2; lia).
        split.
        -- intros H. apply Ok_inj in H. subst n.
           eexists; split; [reflexivity |].
           unfold Qeq; cbn [Qnum Qden inject_Z]. rewrite Z2Pos.id by lia.
           rewrite Z.mul_1_r, <- cond_Zopp_mul. f_equal. lia.
        -- intros (q & Hq & H). apply Some_inj in Hq. subst q.
           unfold Qeq in H; cbn [Qnum Qden inject_Z] in H.
           rewrite Z2Pos.id in H by lia. f_equal.
           apply (f_equal (cond_Zopp s)) in H.
           rewrite Z.mul_1_r, cond_Zopp_involutive, cond_Zopp_mul in H.
           rewrite H, Z.div_mul by lia. apply cond_Zopp_involutive.
      * apply Z.eqb_neq in Hm.
        split; [discriminate |].
        intros (q & Hq & H). apply Some_inj in Hq. subst q.
        unfold Qeq in H; cbn [Qnum Qden inject_Z] in H.
        rewrite Z2Pos.id in H by lia. exfalso. apply Hm.
        apply (f_equal (cond_Zopp s)) in H.
        rewrite Z.mul_1_r, cond_Zopp_involutive, cond_Zopp_mul in H.
        rewrite H. apply Z.mod_mul. lia.
Qed.

Lemma BigInt_integer_valued (x : float) (n : Z) :
  integer_valued x n -> BigInt (Num x) = Ok n.
Proof. intros H. apply NumberToBigInt_value. exact H. Qed.

End Conversions.

(** ** [add] *)

(** C10: two floating operands are added in floating arithmetic and
    the result is never promoted to a bigint, whatever its magnitude;
    [add(2^53, 1)] returns [2^53] although both operands are whole
    and the exact sum is [2^53 + 1]. *)
Theorem add_numbers_never_promotes :
  (forall x y : float, add (Num x) (Num y) = Ok (Num (x + y))) /\
  (forall x y : float,
      (r <- add (Num x) (Num y) ;; Ok (is_bigint r)) = Ok false) /\
  add (Num 9007199254740992) (Num 1) = Ok (Num 9007199254740992) /\
  BigInt (Num 9007199254740992) = Ok (2 ^ 53) /\
  BigInt (Num 1) = Ok 1.
Proof.
  split; [| split; [| split; [| split]]].
  - intros x y. reflexivity.
  - intros x y. reflexivity.
  - vm_compute. reflexivity.
  - vm_compute. reflexivity.
  - vm_compute. reflexivity.
Qed.

(** C8: [add] does not yield the exact sum for all operands.  When one
    operand is a bigint the other is converted with [BigInt], and for
    a number with a fractional part that conversion raises
    [RangeError]: [add(1n, 0.5)], [add(0.5, 1n)] and
    [add(10n ** 18n, 0.5)] return nothing, and neither does the sum
    of the base values of [1E] and [500m].  The rest of the claim
    holds: two bigints are added exactly, a bigint and an
    integer-valued number too ([10n ** 18n] and [1]), and two numbers
    are added as floats, [add(1.5, 2.5)] being the float [4]. *)
Theorem add_bigint_fraction_raises :
  add (Big 1) (Num 0.5) = Throw RangeError /\
  add (Num 0.5) (Big 1) = Throw RangeError /\
  add (Big (10 ^ 18)) (Num 0.5) = Throw RangeError /\
  (a <- resourceStringToBaseUnit "1E" ;;
   b <- resourceStringToBaseUnit "500m" ;; add a b) = Throw RangeError /\
  ~ (exists r, add (Big 1) (Num 0.5) = Ok r) /\
  (forall x y : Z, add (Big x) (Big y) = Ok (Big (x + y))) /\
  (forall (x n : Z) (f : float),
      integer_valued f n ->
      add (Big x) (Num f) = Ok (Big (x + n)) /\
      add (Num f) (Big x) = Ok (Big (n + x))) /\
  (forall x y : float, add (Num x) (Num y) = Ok (Num (x + y))) /\
  add (Big (10 ^ 18)) (Num 1) = Ok (Big 1000000000000000001) /\
  add (Num 1.5) (Num 2.5) = Ok (Num 4).
Proof.
  split; [| split; [| split; [| split; [| split; [| split; [| split;
    [| split; [| split]]]]]]]].
  - vm_compute. reflexivity.
  - vm_compute. reflexivity.
  - vm_compute. reflexivity.
  - vm_compute. reflexivity.
  - intros [r H]. vm_compute in H. discriminate.
  - intros x y. reflexivity.
  - intros x n f Hf. apply BigInt_integer_valued in Hf. simpl in Hf.
    unfold add. simpl. rewrite Hf. simpl. split; reflexivity.
  - intros x y. reflexivity.
  - vm_compute. reflexivity.
  - vm_compute. reflexivity.
Qed.

Lemma add_bigint_fraction_raises_witness :
  integer_valued 456 456 /\
  add (Big 123) (Num 456) = Ok (Big (123 + 456)) /\
  add (Num 456) (Big 123) = Ok (Big (456 + 123)).
Proof.
  assert (H : integer_valued 456 456).
  { eexists. split; [vm_compute; reflexivity | vm_compute; reflexivity]. }
  split; [exact H |].
  destruct add_bigint_fraction_raises as (_ & _ & _ & _ & _ & _ & T & _).
  exact (T 123 456 456%float H).
Defined.

(** ** Zero *)

(** C7 as stated fails: with a unit whose multiplier is a bigint, a
    zero mantissa yields the bigint [0n], not a floating zero. *)
Lemma zero_with_bigint_unit_is_bigint :
  parsedResourceToBaseUnit {| number := 0; unit := Some U.E |} = Ok (Big 0) /\
  (forall x : float,
      parsedResourceToBaseUnit {| number := 0; unit := Some U.E |} <> Ok (Num x)).
Proof.
  split.
  - vm_compute. reflexivity.
  - intros x H. vm_compute in H. discriminate.
Qed.

(** C7 (amended): a zero mantissa yields a zero base value in the
    representation of the unit's multiplier (the float [0] for a
    floating multiplier or no unit, the bigint [0n] for [E], [Pi],
    [Ei]); without a unit argument [scaleBaseUnitCpu] returns
    [{ number: 0, unit: undefined }] for a zero base value, printed
    [0]; [scaleBaseUnitMemory] has no shortcut and ends on the
    smallest unit, the empty one. *)
Theorem zero_handling :
  (forall unit : option K8sResourceUnit,
      parsedResourceToBaseUnit {| number := 0; unit := unit |} =
      Ok (match unit with
          | Some a => zero_like (unitMultiplier a)
          | None => Num 0
          end)) /\
  scaleBaseUnitCpu (Num 0) None = Ok {| number := 0; unit := None |} /\
  scaleBaseUnitCpu (Big 0) None = Ok {| number := 0; unit := None |} /\
  formatBaseUnitCpu (Num 0) None = Ok "0" /\
  scaleBaseUnitMemory (Num 0) None =
    Ok {| number := 0; unit := Some U.Empty |} /\
  scaleBaseUnitMemory (Big 0) None =
    Ok {| number := 0; unit := Some U.Empty |} /\
  formatBaseUnitMemory (Num 0) None = Ok "0".
Proof.
  split.
  - intros [a |]; [destruct a |]; vm_compute; reflexivity.
  - repeat split; vm_compute; reflexivity.
Qed.

(** ** Automatic unit selection *)

(** The documented examples of automatic selection. *)
Lemma auto_unit_examples :
  formatBaseUnitCpu (Num 0.5) None = Ok "500m" /\
  formatBaseUnitCpu (Num 2000000) None = Ok "2M" /\
  formatBaseUnitCpu (Num 1e17) None = Ok "100P" /\
  formatBaseUnitCpu (Big (10 ^ 17)) None = Ok "100P" /\
  formatBaseUnitMemory (Num 1024) None = Ok "1Ki" /\
  formatBaseUnitMemory (Num 202782720.131072) None = Ok "193.388672Mi".
Proof. repeat split; vm_compute; reflexivity. Qed.

(** C3: at the base value [2000] the unit [k] (multiplier [1000])
    does not exceed the value and is larger than the empty unit
    (multiplier [1]), yet the scan visits the empty unit before [k]
    and stops there: the result is [{ number: 2000, unit: "" }],
    printed [2000].  The memory list is ascending, and there the same
    value lands on [Ki]. *)
Theorem scaleBaseUnitCpu_passes_over_kilo :
  descending_from (length cpuUnits) cpuUnits =
    [U.E; U.P; U.T; U.G; U.M; U.Empty; U.k; U.m; U.u] /\
  geb (Num 2000) (unitMultiplier U.k) = true /\
  ltb (unitMultiplier U.Empty) (unitMultiplier U.k) = true /\
  scaleBaseUnitCpu (Num 2000) None =
    Ok {| number := 2000; unit := Some U.Empty |} /\
  formatBaseUnitCpu (Num 2000) None = Ok "2000" /\
  scaleBaseUnitCpu (Num 1000) None =
    Ok {| number := 1000; unit := Some U.Empty |} /\
  scaleBaseUnitMemory (Num 2000) None =
    Ok {| number := 1.953125; unit := Some U.Ki |}.
Proof. repeat split; vm_compute; reflexivity. Qed.

(** ** Failures *)

(** A failure of the parser is the failure of the compositions. *)
Lemma parser_failure_propagates (s : string) (e : exn) :
  parseResource s = Throw e ->
  resourceStringToBaseUnit s = Throw e /\
  (forall t : string, compareResourceStrings s t = Throw e) /\
  (forall t : string,
      returns (parseResource t) -> compareResourceStrings t s = Throw e).
Proof.
  intros H. unfold resourceStringToBaseUnit, compareResourceStrings.
  rewrite H. simpl. repeat split; try reflexivity.
  intros t [q Hq]. rewrite Hq. reflexivity.
Qed.

(** C1: the resource string [0.57E] parses to
    [{ number: 0.57, unit: "E" }]; its precision is [2], and the
    floating product [0.57 * 100] is [56.99999999999999], not an
    integer, so the conversion to a bigint raises [RangeError] where
    the specification has the rounded [57] and the result
    [570000000000000000].  A mantissa below [0.000001] prints in
    exponent notation, [1.5e-7], and the precision counts the four
    characters after the dot instead of the eight decimals of
    [0.00000015]; the scaled product is not whole either.  The
    documented [1.5G] is the float [1500000000]. *)
Theorem parsedResourceToBaseUnit_inexact_product :
  parseResource "0.57E" = Ok {| number := 0.57; unit := Some U.E |} /\
  getPrecision 0.57 = 2 /\
  (0.57 * pow10 2)%float = 56.99999999999999%float /\
  NumberToBigInt 56.99999999999999 = Throw RangeError /\
  parsedResourceToBaseUnit {| number := 0.57; unit := Some U.E |} =
    Throw RangeError /\
  parseResource "0.00000015E" = Ok {| number := 1.5e-7; unit := Some U.E |} /\
  String_of_number 1.5e-7 = "1.5e-7" /\
  getPrecision 1.5e-7 = 4 /\
  parsedResourceToBaseUnit {| number := 1.5e-7; unit := Some U.E |} =
    Throw RangeError /\
  parsedResourceToBaseUnit {| number := 1.5; unit := Some U.G |} =
    Ok (Num 1500000000).
Proof. repeat split; vm_compute; reflexivity. Qed.

(** C4: operations after the parser raise [RangeError] on values
    the parser and [parsedResourceToBaseUnit] produce: scaling
    [0.57E] to its base value, comparing [0.5] with [1E], scaling the
    base value of [500m] to the unit [E], scaling the base value of
    [1E] to the unit [m], and adding the base values of [1E] and
    [500m]. *)
Theorem range_errors_after_the_parser :
  returns (parseResource "0.57E") /\
  resourceStringToBaseUnit "0.57E" = Throw RangeError /\
  returns (parseResource "0.5") /\
  returns (parseResource "1E") /\
  compareResourceStrings "0.5" "1E" = Throw RangeError /\
  resourceStringToBaseUnit "500m" = Ok (Num 0.5) /\
  resourceStringToBaseUnit "1E" = Ok (Big (10 ^ 18)) /\
  scaleBaseUnitCpu (Num 0.5) (Some U.E) = Throw RangeError /\
  formatBaseUnitCpu (Num 0.5) (Some U.E) = Throw RangeError /\
  scaleBaseUnitCpu (Big (10 ^ 18)) (Some U.m) = Throw RangeError /\
  add (Big (10 ^ 18)) (Num 0.5) = Throw RangeError.
Proof.
  repeat split;
    try (vm_compute; reflexivity);
    eexists; vm_compute; reflexivity.
Qed.

(** ** The matcher and the grammar *)

Section Grammar.

Lemma span_digits_sound (s ds rest : string) :
  span_digits s = (ds, rest) ->
  s = ds ++ rest /\ all_digits ds = true /\ no_digit_head rest.
Proof.
  revert ds rest. induction s as [| c s IH]; intros ds rest H; simpl in H.
  - inversion H; subst. simpl. auto.
  - destruct (is_digit c) eqn:Hc.
    + destruct (span_digits s) as [ds' rest'] eqn:Hs.
      inversion H; subst.
      destruct (IH ds' rest eq_refl) as (-> & Hd & Hr).
      simpl. rewrite Hc, Hd. auto.
    + inversion H; subst. simpl. auto.
Qed.

Lemma span_digits_complete (ds rest : string) :
  all_digits ds = true -> no_digit_head rest ->
  span_digits (ds ++ rest) = (ds, rest).
Proof.
  intros Hd Hr. induction ds as [| c ds IH]; simpl in *.
  - destruct rest as [| c r]; [reflexivity |].
    simpl in Hr. simpl. rewrite Hr. reflexivity.
  - apply andb_true_iff in Hd as [Hc Hd].
    rewrite Hc, (IH Hd). reflexivity.
Qed.

Lemma match_optional_group_sound (c : ascii) (s g rest : string) :
  match_optional_group c s = (g, rest) ->
  s = g ++ rest /\ optional_group c g.
Proof.
  unfold match_optional_group, optional_group. intros H.
  destruct s as [| c' s'].
  - inversion H; subst. split; [reflexivity | left; reflexivity].
  - destruct (Ascii.eqb c' c) eqn:Hc.
    + apply Ascii.eqb_eq in Hc. subst c'.
      destruct (span_digits s') as [ds r] eqn:Hs.
      apply span_digits_sound in Hs as (-> & Hd & Hr).
      destruct ds as [| d ds].
      * inversion H; subst. split; [reflexivity | left; reflexivity].
      * inversion H; subst. split; [reflexivity |].
        right. exists (String d ds). split; [| reflexivity].
        split; [discriminate | exact Hd].
    + inversion H; subst. split; [reflexivity | left; reflexivity].
Qed.

Lemma match_optional_group_absent (c : ascii) (rest : string) :
  no_marker_head c rest ->
  match_optional_group c rest = (EmptyString, rest).
Proof.
  destruct rest as [| c' r]; simpl; [reflexivity |].
  intros ->. reflexivity.
Qed.

Lemma match_optional_group_present (c : ascii) (d rest : string) :
  digits1 d -> no_digit_head rest ->
  match_optional_group c (String c d ++ rest) = (String c d, rest).
Proof.
  intros [Hne Hd] Hr. simpl. rewrite Ascii.eqb_refl.
  rewrite (span_digits_complete d rest Hd Hr).
  destruct d; [contradiction | reflexivity].
Qed.

Lemma unit_token_injective (a b : K8sResourceUnit) :
  unit_token a = unit_token b -> a = b.
Proof. destruct a, b; simpl; intros H; try reflexivity; discriminate. Qed.

Lemma match_unit_spec (s : string) (unitPart : option K8sResourceUnit) :
  match_unit s = Some unitPart <->
  unit_group unitPart /\ s = unit_text unitPart.
Proof.
  unfold match_unit. split.
  - destruct (String.eqb s "") eqn:He.
    + apply String.eqb_eq in He. intros H. inversion H; subst.
      simpl. auto.
    + destruct (find _ unit_alternatives) as [a |] eqn:Hf; [| discriminate].
      intros H. inversion H; subst.
      apply find_some in Hf as [Hin Heq].
      apply String.eqb_eq in Heq. simpl. auto.
  - intros [Hg ->]. destruct unitPart as [a |]; cbn [unit_text unit_group] in *.
    + destruct (String.eqb (unit_token a) "") eqn:He.
      * apply String.eqb_eq in He.
        destruct a; simpl in He; try discriminate.
        exfalso. simpl in Hg. intuition discriminate.
      * destruct (find (fun b => String.eqb (unit_token a) (unit_token b))
                    unit_alternatives) as [b |] eqn:Hf.
        -- apply find_some in Hf as [_ Heq].
           apply String.eqb_eq, unit_token_injective in Heq. congruence.
        -- exfalso.
           apply (find_none _ _ Hf a) in Hg.
           rewrite String.eqb_refl in Hg. discriminate.
    + reflexivity.
Qed.

(** Unit tokens start with a letter that is neither a digit, nor
    the dot, nor the exponent marker. *)
Lemma unit_text_head (unitPart : option K8sResourceUnit) :
  no_digit_head (unit_text unitPart) /\
  no_marker_head "." (unit_text unitPart) /\
  no_marker_head "e" (unit_text unitPart).
Proof.
  destruct unitPart as [a |]; [destruct a |]; simpl; auto.
Qed.

Lemma optional_group_head (c : ascii) (g rest : string) :
  is_digit c = false ->
  optional_group c g -> no_digit_head rest -> no_digit_head (g ++ rest).
Proof.
  intros Hc [-> | (d & _ & ->)] Hr; simpl; assumption.
Qed.

(** The matcher returns the two named groups exactly on the strings
    of the grammar. *)
Theorem reK8sResource_spec
  (s numberPart : string) (unitPart : option K8sResourceUnit) :
  reK8sResource s = Some (numberPart, unitPart) <->
  resource_string s numberPart unitPart.
Proof.
  unfold reK8sResource. split.
  - destruct (span_digits s) as [ip r1] eqn:H1.
    destruct (match_optional_group "." r1) as [fp r2] eqn:H2.
    destruct (match_optional_group "e" r2) as [ep r3] eqn:H3.
    apply span_digits_sound in H1 as (-> & Hip & _).
    apply match_optional_group_sound in H2 as (-> & Hfp).
    apply match_optional_group_sound in H3 as (-> & Hep).
    destruct ip as [| c ip]; [discriminate |].
    destruct (match_unit r3) as [up |] eqn:Hu; [| discriminate].
    intros H. inversion H; subst.
    apply match_unit_spec in Hu as [Hg ->].
    apply (resource_string_intro (String c ip) fp ep unitPart);
      try assumption.
    split; [discriminate | exact Hip].
  - intros H. destruct H as [ip fp ep up [Hne Hip] Hfp Hep Hg].
    destruct (unit_text_head up) as (Hud & Hudot & Hue).
    assert (Hr3 : no_digit_head (ep ++ unit_text up))
      by (apply (optional_group_head "e"); auto).
    assert (Hr2 : no_digit_head (fp ++ ep ++ unit_text up))
      by (apply (optional_group_head "."); auto).
    rewrite (span_digits_complete ip _ Hip Hr2).
    destruct ip as [| c ip]; [contradiction |].
    assert (H2 : match_optional_group "." (fp ++ ep ++ unit_text up) =
                 (fp, ep ++ unit_text up)).
    { destruct Hfp as [-> | (d & Hd & ->)].
      - simpl. apply match_optional_group_absent.
        destruct Hep as [-> | (d & _ & ->)]; simpl; auto.
      - apply match_optional_group_present; assumption. }
    assert (H3 : match_optional_group "e" (ep ++ unit_text up) =
                 (ep, unit_text up)).
    { destruct Hep as [-> | (d & Hd & ->)].
      - simpl. apply match_optional_group_absent. assumption.
      - apply match_optional_group_present; assumption. }
    rewrite H2, H3.
    rewrite (proj2 (match_unit_spec (unit_text up) up) (conj Hg eq_refl)).
    reflexivity.
Qed.

End Grammar.

(** ** [parseResource] *)

(** C6 as stated fails: [1e999] is a string of the grammar, a number
    with an unsigned exponent and no unit, and [parseResource] raises
    on it, because the number overflows to [Infinity]. *)
Lemma grammatical_string_rejected :
  resource_string "1e999" "1e999" None /\
  parseFloat "1e999" = infinity /\
  parseResource "1e999" = Throw (NumberParseError "1e999").
Proof.
  split; [| split].
  - apply (resource_string_intro "1" "" "e999" None).
    + split; [discriminate | reflexivity].
    + left; reflexivity.
    + right. exists "999". repeat split; discriminate.
    + exact I.
  - vm_compute. reflexivity.
  - vm_compute. reflexivity.
Qed.

(** C6 (amended): [parseResource] raises exactly when the string is
    not of the grammar or its number part does not parse to a finite
    number; otherwise it returns the parsed number and the unit, and
    nothing else.  [invalid], [1.2.3] and [5Xi] are rejected, and so
    are a leading sign, white space and a signed exponent. *)
Theorem parseResource_fails_iff :
  (forall s : string,
      throws (parseResource s) <->
      (forall numberPart unitPart, ~ resource_string s numberPart unitPart) \/
      (exists numberPart unitPart,
          resource_string s numberPart unitPart /\
          isFinite (parseFloat numberPart) = false)) /\
  (forall (s : string) (q : K8sParsedResource),
      parseResource s = Ok q <->
      exists numberPart unitPart,
        resource_string s numberPart unitPart /\
        isFinite (parseFloat numberPart) = true /\
        q = {| number := parseFloat numberPart; unit := unitPart |}) /\
  parseResource "invalid" = Throw (InvalidResourceString "invalid") /\
  parseResource "1.2.3" = Throw (InvalidResourceString "1.2.3") /\
  parseResource "5Xi" = Throw (InvalidResourceString "5Xi") /\
  parseResource "-1" = Throw (InvalidResourceString "-1") /\
  parseResource "+1" = Throw (InvalidResourceString "+1") /\
  parseResource " 1" = Throw (InvalidResourceString " 1") /\
  parseResource "1 Ki" = Throw (InvalidResourceString "1 Ki") /\
  parseResource "1e-3" = Throw (InvalidResourceString "1e-3").
Proof.
  split; [| split].
  - intros s. unfold parseResource.
    destruct (reK8sResource s) as [[num up] |] eqn:Hre.
    + pose proof (proj1 (reK8sResource_spec s num up) Hre) as Hg.
      destruct (isFinite (parseFloat num)) eqn:Hfin; simpl.
      * split.
        -- intros [e He]. discriminate.
        -- intros [Hno | (num' & up' & Hg' & Hinf)].
           ++ elim (Hno num up Hg).
           ++ apply reK8sResource_spec in Hg'.
              rewrite Hre in Hg'. inversion Hg'; subst. congruence.
      * split.
        -- intros _. right. exists num, up. auto.
        -- intros _. eexists. reflexivity.
    + split.
      * intros _. left. intros num up Hg.
        apply reK8sResource_spec in Hg. congruence.
      * intros _. eexists. reflexivity.
  - intros s q. unfold parseResource.
    destruct (reK8sResource s) as [[num up] |] eqn:Hre.
    + pose proof (proj1 (reK8sResource_spec s num up) Hre) as Hg.
      destruct (isFinite (parseFloat num)) eqn:Hfin; simpl.
      * split.
        -- intros H. inversion H; subst. exists num, up. auto.
        -- intros (num' & up' & Hg' & _ & ->).
           apply reK8sResource_spec in Hg'.
           rewrite Hre in Hg'. inversion Hg'; subst. reflexivity.
      * split; [discriminate |].
        intros (num' & up' & Hg' & Hfin' & _).
        apply reK8sResource_spec in Hg'.
        rewrite Hre in Hg'. inversion Hg'; subst. congruence.
    + split; [discriminate |].
      intros (num' & up' & Hg' & _).
      apply reK8sResource_spec in Hg'. congruence.
  - repeat split; vm_compute; reflexivity.
Qed.

Lemma parseResource_fails_iff_witness :
  (forall numberPart unitPart, ~ resource_string "5Xi" numberPart unitPart) /\
  throws (parseResource "5Xi").
Proof.
  assert (H : forall numberPart unitPart,
             ~ resource_string "5Xi" numberPart unitPart).
  { intros numberPart unitPart Hg. apply reK8sResource_spec in Hg.
    vm_compute in Hg. discriminate. }
  split; [exact H |].
  exact (proj2 (proj1 parseResource_fails_iff "5Xi") (or_introl H)).
Defined.

(** ** The order of binary64 values

    The comparison of the IEEE model is the comparison of ranks. *)

Section FloatOrder.

Lemma digits2_pos_bounds (p : positive) :
  2 ^ (Zpos (digits2_pos p) - 1) <= Zpos p < 2 ^ Zpos (digits2_pos p).
Proof.
  induction p as [p IH | p IH |]; cbn [digits2_pos].
  - rewrite Pos2Z.inj_succ.
    replace (Z.succ (Zpos (digits2_pos p)) - 1)
      with (Z.succ (Zpos (digits2_pos p) - 1)) by lia.
    rewrite !Z.pow_succ_r by lia. lia.
  - rewrite Pos2Z.inj_succ.
    replace (Z.succ (Zpos (digits2_pos p)) - 1)
      with (Z.succ (Zpos (digits2_pos p) - 1)) by lia.
    rewrite !Z.pow_succ_r by lia. lia.
  - simpl. lia.
Qed.

(** What validity says of a finite binary64. *)
Lemma bounded_inv (mx : positive) (e : Z) :
  bounded prec emax mx e = true ->
  -1074 <= e <= 971 /\
  Zpos mx < 2 ^ 53 /\
  (-1074 < e -> 2 ^ 52 <= Zpos mx).
Proof.
  unfold bounded, canonical_mantissa, fexp, SpecFloat.emin, prec, emax.
  intros H. apply andb_true_iff in H as [Hc He].
  apply Z.eqb_eq in Hc. apply Z.leb_le in He.
  pose proof (digits2_pos_bounds mx) as [Hlo Hhi].
  set (d := Zpos (digits2_pos mx)) in *.
  assert (Hd : d <= 53) by lia.
  split; [lia |]. split.
  - apply Z.lt_le_trans with (2 ^ d); [exact Hhi |].
    apply Z.pow_le_mono_r; lia.
  - intros Hgt. assert (d = 53) by lia.
    replace 52 with (d - 1) by lia. exact Hlo.
Qed.

Lemma scaled_lt (m1 m2 a b : Z) :
  0 <= a < b -> 0 < m1 < 2 ^ 53 -> 2 ^ 52 <= m2 ->
  m1 * 2 ^ a < m2 * 2 ^ b.
Proof.
  intros Hab Hm1 Hm2.
  assert (Ha : 0 < 2 ^ a) by (apply Z.pow_pos_nonneg; lia).
  assert (Hb : 2 ^ (a + 1) <= 2 ^ b) by (apply Z.pow_le_mono_r; lia).
  rewrite Z.pow_add_r in Hb by lia.
  assert (H52 : 2 ^ 53 = 2 * 2 ^ 52) by reflexivity.
  assert (Hp : 0 < 2 ^ 52) by reflexivity.
  nia.
Qed.

(** Positive finite values compare as their ranks. *)
Lemma finite_compare (m1 m2 : positive) (e1 e2 : Z) :
  bounded prec emax m1 e1 = true ->
  bounded prec emax m2 e2 = true ->
  match e1 ?= e2 with
  | Lt => Lt
  | Gt => Gt
  | Eq => Pos.compare_cont Eq m1 m2
  end = (Zpos m1 * 2 ^ (e1 + 1074) ?= Zpos m2 * 2 ^ (e2 + 1074)).
Proof.
  intros H1 H2.
  apply bounded_inv in H1 as (He1 & Hm1 & Hn1).
  apply bounded_inv in H2 as (He2 & Hm2 & Hn2).
  destruct (Z.compare_spec e1 e2) as [Heq | Hlt | Hgt].
  - subst e2. fold (Pos.compare m1 m2).
    rewrite Pos2Z.inj_compare.
    apply Zmult_compare_compat_r.
    apply Z.lt_gt, Z.pow_pos_nonneg; lia.
  - symmetry. apply Z.compare_lt_iff.
    apply scaled_lt; lia.
  - symmetry. apply Z.compare_gt_iff.
    apply scaled_lt; lia.
Qed.

Lemma finite_rank_bounds (mx : positive) (e : Z) :
  bounded prec emax mx e = true ->
  0 < Zpos mx * 2 ^ (e + 1074) < 2 ^ 2100.
Proof.
  intros H. apply bounded_inv in H as (He & Hm & _).
  assert (Hp : 0 < 2 ^ (e + 1074)) by (apply Z.pow_pos_nonneg; lia).
  split; [lia |].
  apply Z.lt_le_trans with (2 ^ 53 * 2 ^ (e + 1074)).
  - apply Z.mul_lt_mono_pos_r; lia.
  - rewrite <- Z.pow_add_r by lia. apply Z.pow_le_mono_r; lia.
Qed.

Ltac order_case :=
  cbn [cond_Zopp]; apply f_equal; symmetry;
  first [ apply Z.compare_eq_iff; lia
        | apply Z.compare_lt_iff; lia
        | apply Z.compare_gt_iff; lia ].

(** The comparison of two valid values, neither NaN, is the
    comparison of their ranks. *)
Lemma SFcompare_rank (x y : spec_float) :
  valid_binary x = true -> valid_binary y = true ->
  not_nan x -> not_nan y ->
  SFcompare x y = Some (rank x ?= rank y).
Proof.
  intros Hx Hy Nx Ny.
  assert (Hinf : 0 < 2 ^ 2100) by (apply Z.pow_pos_nonneg; lia).
  destruct x as [sx | sx | | sx mx ex]; [| | elim Nx; reflexivity |];
    (destruct y as [sy | sy | | sy my ey]; [| | elim Ny; reflexivity |]);
    cbn [SFcompare rank valid_binary] in *;
    try pose proof (finite_rank_bounds _ _ Hx) as Bx;
    try pose proof (finite_rank_bounds _ _ Hy) as By.
  - reflexivity.
  - destruct sy; order_case.
  - destruct sy; order_case.
  - destruct sx; order_case.
  - destruct sx, sy; order_case.
  - destruct sx, sy; order_case.
  - destruct sx; order_case.
  - destruct sx, sy; order_case.
  - destruct sx, sy; cbn [cond_Zopp]; apply f_equal.
    + rewrite Z.compare_opp, <- (finite_compare my mx ey ex Hy Hx).
      rewrite (Z.compare_antisym ex ey).
      destruct (ex ?= ey); cbn [CompOpp]; try reflexivity.
      rewrite Pos.compare_cont_antisym. reflexivity.
    + symmetry. apply Z.compare_lt_iff. lia.
    + symmetry. apply Z.compare_gt_iff. lia.
    + apply finite_compare; assumption.
Qed.

End FloatOrder.

(** ** Rounding a representable value

    Rounding [m * 2^e] written with a longer mantissa,
    [(m * 2^n) * 2^(e - n)], gives back the binary64 [m * 2^e]. *)

Section ExactRounding.

Lemma iter_pos_nat {A : Type} (f : A -> A) (p : positive) (x : A) :
  iter_pos f p x = Nat.iter (Pos.to_nat p) f x.
Proof.
  revert x. induction p as [p IH | p IH |]; intros x; cbn [iter_pos].
  - rewrite !IH, Pos2Nat.inj_xI. cbn [Nat.mul].
    rewrite Nat.add_0_r, Nat.iter_succ_r, Nat.iter_add. reflexivity.
  - rewrite !IH, Pos2Nat.inj_xO. cbn [Nat.mul].
    rewrite Nat.add_0_r, Nat.iter_add. reflexivity.
  - reflexivity.
Qed.

Lemma shr_doubled (n : nat) (mx : positive) :
  Nat.iter n shr_1
    {| shr_m := Zpos (Nat.iter n xO mx); shr_r := false; shr_s := false |} =
  {| shr_m := Zpos mx; shr_r := false; shr_s := false |}.
Proof.
  induction n as [| n IH]; [reflexivity |].
  rewrite Nat.iter_succ_r.
  change (Nat.iter (S n) xO mx) with (xO (Nat.iter n xO mx)).
  cbn [shr_1 orb]. exact IH.
Qed.

Lemma digits2_doubled (n : nat) (mx : positive) :
  Zpos (digits2_pos (Nat.iter n xO mx)) =
  Zpos (digits2_pos mx) + Z.of_nat n.
Proof.
  induction n as [| n IH].
  - change (Nat.iter 0 xO mx) with mx. cbn [Z.of_nat]. lia.
  - change (Nat.iter (S n) xO mx) with (xO (Nat.iter n xO mx)).
    cbn [digits2_pos]. rewrite Pos2Z.inj_succ, IH. lia.
Qed.

Lemma Zpos_doubled (n : nat) (mx : positive) :
  Zpos (Nat.iter n xO mx) = Zpos mx * 2 ^ Z.of_nat n.
Proof.
  induction n as [| n IH].
  - change (Nat.iter 0 xO mx) with mx. cbn [Z.of_nat].
    rewrite Z.pow_0_r, Z.mul_1_r. reflexivity.
  - change (Nat.iter (S n) xO mx) with (xO (Nat.iter n xO mx)).
    rewrite Pos2Z.inj_xO, IH, Nat2Z.inj_succ.
    rewrite Z.pow_succ_r by lia. ring.
Qed.

Lemma binary_round_aux_exact (s : bool) (mx : positive) (e : Z) (n : nat) :
  bounded prec emax mx e = true ->
  binary_round_aux prec emax s (Zpos (Nat.iter n xO mx)) (e - Z.of_nat n)
    loc_Exact = S754_finite s mx e.
Proof.
  intros Hb. pose proof Hb as Hb'.
  unfold bounded, canonical_mantissa in Hb'.
  apply andb_true_iff in Hb' as [Hc He]. apply Z.eqb_eq in Hc.
  unfold binary_round_aux, shr_fexp. cbn [Zdigits2 shr_record_of_loc].
  rewrite digits2_doubled.
  replace (Zpos (digits2_pos mx) + Z.of_nat n + (e - Z.of_nat n))
    with (Zpos (digits2_pos mx) + e) by lia.
  rewrite Hc.
  replace (e - (e - Z.of_nat n)) with (Z.of_nat n) by lia.
  assert (Hshr : shr {| shr_m := Zpos (Nat.iter n xO mx);
                        shr_r := false; shr_s := false |}
                   (e - Z.of_nat n) (Z.of_nat n) =
                 ({| shr_m := Zpos mx; shr_r := false; shr_s := false |}, e)).
  { destruct n as [| n].
    - cbn [Z.of_nat shr Nat.iter]. f_equal. lia.
    - unfold shr. cbn [Z.of_nat]. rewrite iter_pos_nat, SuccNat2Pos.id_succ.
      rewrite shr_doubled. f_equal. lia. }
  rewrite Hshr. cbn [shr_m loc_of_shr_record round_nearest_even Zdigits2].
  rewrite Hc, Z.sub_diag. cbn [shr shr_record_of_loc shr_m].
  rewrite He. reflexivity.
Qed.

(** [x * 1] is [x]. *)
Lemma mul_one (x : float) : (x * 1)%float = x.
Proof.
  apply Prim2SF_inj. rewrite mul_spec. unfold SF64mul.
  replace (Prim2SF 1) with (S754_finite false 4503599627370496 (-52))
    by (vm_compute; reflexivity).
  pose proof (Prim2SF_valid x) as Hv.
  destruct (Prim2SF x) as [s | s | | s mx e]; cbn [SFmul];
    rewrite ?xorb_false_r; try reflexivity.
  cbn [valid_binary] in Hv.
  replace (Zpos (mx * 4503599627370496)) with (Zpos (Nat.iter 52 xO mx)).
  - apply (binary_round_aux_exact s mx e 52 Hv).
  - rewrite Zpos_doubled, Pos2Z.inj_mul. reflexivity.
Qed.

(** [Number(BigInt(x))] is [x], up to the sign of zero. *)
Lemma of_Z_NumberToBigInt (x : float) (n : Z) :
  NumberToBigInt x = Ok n ->
  of_Z n = x \/ (n = 0 /\ of_Z n = 0%float /\ Prim2SF x = S754_zero true).
Proof.
  unfold NumberToBigInt, of_Z.
  pose proof (Prim2SF_valid x) as Hv. pose proof (SF2Prim_Prim2SF x) as Hx.
  destruct (Prim2SF x) as [s | s | | s mx e] eqn:Ex; try discriminate.
  - intros H. apply Ok_inj in H. subst n. destruct s.
    + right. repeat split; reflexivity.
    + left. rewrite <- Hx. reflexivity.
  - cbn [valid_binary] in Hv. pose proof Hv as Hb.
    unfold bounded, canonical_mantissa in Hb.
    apply andb_true_iff in Hb as [Hc He]. apply Z.eqb_eq in Hc.
    left. rewrite <- Hx. f_equal.
    destruct (0 <=? e) eqn:Hs.
    + apply Z.leb_le in Hs. apply Ok_inj in H. subst n.
      rewrite <- (Z2Nat.id e Hs) at 1. rewrite <- Zpos_doubled.
      assert (Hr : binary_round prec emax s (Nat.iter (Z.to_nat e) xO mx) 0 =
                   S754_finite s mx e).
      { unfold binary_round. rewrite digits2_doubled, Z2Nat.id by lia.
        rewrite Z.add_0_r, Hc. unfold shl_align. rewrite Z.sub_0_r.
        destruct e as [| pe | pe]; try lia.
        - apply (binary_round_aux_exact s mx 0 0 Hv).
        - replace 0 with (Zpos pe - Z.of_nat (Z.to_nat (Zpos pe)))
            by (rewrite Z2Nat.id; lia).
          apply (binary_round_aux_exact s mx (Zpos pe) _ Hv). }
      destruct s; cbn [cond_Zopp Z.opp binary_normalize]; exact Hr.
    + apply Z.leb_gt in Hs.
      assert (Hd : 0 < 2 ^ (- e)) by (apply Z.pow_pos_nonneg; lia).
      destruct (Zpos mx mod 2 ^ (- e) =? 0) eqn:Hm; [| discriminate].
      apply Z.eqb_eq in Hm. apply Ok_inj in H. subst n.
      assert (Hq : 0 < Zpos mx / 2 ^ (- e)).
      { apply Z.div_str_pos. split; [exact Hd |].
        apply Z.divide_pos_le; [lia |]. apply Z.mod_divide; lia. }
      destruct (Zpos mx / 2 ^ (- e)) as [| q | q] eqn:Eq; try lia.
      assert (Hmq : mx = Nat.iter (Z.to_nat (- e)) xO q).
      { apply Pos2Z.inj. rewrite Zpos_doubled, Z2Nat.id by lia.
        rewrite <- Eq. rewrite Z.mul_comm.
        apply Z_div_exact_full_2; lia. }
      assert (Hr : binary_round prec emax s q 0 = S754_finite s mx e).
      { unfold binary_round.
        assert (Hdq : Zpos (digits2_pos q) = Zpos (digits2_pos mx) + e).
        { rewrite Hmq, digits2_doubled, Z2Nat.id by lia. lia. }
        rewrite Z.add_0_r, Hdq, Hc. unfold shl_align. rewrite Z.sub_0_r.
        destruct e as [| pe | pe]; try lia.
        replace (Pos.iter xO q pe) with mx.
        - apply (binary_round_aux_exact s mx (Zneg pe) 0 Hv).
        - rewrite Hmq. cbn [Z.opp Z.to_nat].
          rewrite Pos2Nat.inj_iter. reflexivity. }
      destruct s; cbn [cond_Zopp Z.opp binary_normalize]; exact Hr.
Qed.

End ExactRounding.

(** ** [compareParsedResources] *)

Section Comparison.





Lemma compare_numbers_rank (x y : float) :
  is_number x -> is_number y ->
  compare_numbers x y = sign_of (number_rank x ?= number_rank y).
Proof.
  intros Hx Hy. unfold compare_numbers, number_eq, number_gt, number_rank.
  rewrite FloatAxioms.eqb_spec, ltb_spec. unfold SFeqb, SFltb.
  rewrite !SFcompare_rank by auto using Prim2SF_valid.
  rewrite (Z.compare_antisym (rank (Prim2SF x)) (rank (Prim2SF y))).
  destruct (rank (Prim2SF x) ?= rank (Prim2SF y)); reflexivity.
Qed.

Lemma compare_bigints_sign (x y : Z) :
  compare_bigints x y = sign_of (x ?= y).
Proof.
  unfold compare_bigints, Z.gtb.
  destruct (Z.eqb_spec x y) as [-> | Hne].
  - rewrite Z.compare_refl. reflexivity.
  - destruct (x ?= y) eqn:H; try reflexivity.
    apply Z.compare_eq in H. contradiction.
Qed.



Lemma value_is_number (x : float) (q : Q) :
  value (Num x) = Some q -> is_number x.
Proof.
  unfold value, is_number, not_nan. intros H Hn.
  rewrite Hn in H. discriminate.
Qed.

(** The mathematical value of a finite number is its rank in units
    of [2^-1074]. *)
Lemma value_rank (x : float) (q : Q) :
  value (Num x) = Some q ->
  Qeq q (Qmake (number_rank x) (2 ^ 1074)%positive).
Proof.
  unfold value, number_rank, SF2Q.
  pose proof (Prim2SF_valid x) as Hv.
  assert (HD : Zpos (2 ^ 1074)%positive = 2 ^ 1074)
    by (rewrite Pos2Z.inj_pow; reflexivity).
  destruct (Prim2SF x) as [s | s | | s mx e]; try discriminate.
  - intros H. apply Some_inj in H. subst q. reflexivity.
  - cbn [valid_binary] in Hv.
    apply bounded_inv in Hv as (He & _ & _).
    intros H. apply Some_inj in H. subst q.
    cbn [rank]. unfold Qeq. destruct (0 <=? e) eqn:Hs.
    + apply Z.leb_le in Hs. cbn [Qnum Qden inject_Z]. rewrite HD.
      rewrite cond_Zopp_mul, Z.pow_add_r by lia. ring.
    + apply Z.leb_gt in Hs. cbn [Qnum Qden]. rewrite HD.
      rewrite Z2Pos.id by (apply Z.pow_pos_nonneg; lia).
      rewrite cond_Zopp_mul, <- Z.mul_assoc, <- Z.pow_add_r by lia.
      replace (e + 1074 + - e) with 1074 by lia. reflexivity.
Qed.


Lemma unit_eqb_eq (a b : option K8sResourceUnit) :
  unit_eqb a b = true <-> a = b.
Proof.
  destruct a as [x |], b as [y |]; simpl;
    try (split; [discriminate | discriminate]);
    try (split; reflexivity).
  destruct x, y; simpl; split; intros H;
    try reflexivity; try discriminate.
Qed.


Lemma parseResource_valid (s : string) (q : K8sParsedResource) :
  parseResource s = Ok q -> valid_quantity q.
Proof.
  unfold parseResource, valid_quantity.
  destruct (reK8sResource s) as [[num up] |]; [| discriminate].
  destruct (isFinite (parseFloat num)) eqn:H; simpl; [| discriminate].
  intros Hq. apply Ok_inj in Hq. subst q. exact H.
Qed.

Lemma compareParsedResources_bases (a b : K8sParsedResource) :
  unit a <> unit b ->
  compareParsedResources a b =
    (A <- parsedResourceToBaseUnit a ;;
     B <- parsedResourceToBaseUnit b ;;
     compare_bases A B).
Proof.
  intros Hne. unfold compareParsedResources.
  destruct (unit_eqb (unit a) (unit b)) eqn:He.
  - apply unit_eqb_eq in He. contradiction.
  - reflexivity.
Qed.

Lemma compareParsedResources_same_unit (a b : K8sParsedResource) :
  unit a = unit b ->
  compareParsedResources a b = Ok (compare_numbers (number a) (number b)).
Proof.
  intros He. unfold compareParsedResources.
  apply unit_eqb_eq in He. rewrite He. reflexivity.
Qed.


Lemma BigInt_value (A : numeric) (n : Z) (p : Q) :
  BigInt A = Ok n -> value A = Some p -> Qeq p (inject_Z n).
Proof.
  destruct A as [x | z]; cbn [BigInt value].
  - intros H Hp. apply NumberToBigInt_value in H as (q & Hq & Heq).
    rewrite Hq in Hp. apply Some_inj in Hp. subst p. exact Heq.
  - intros H Hp. apply Ok_inj in H. apply Some_inj in Hp.
    subst. reflexivity.
Qed.


End Comparison.




(** ** Scaling a base value back to the unit it came from *)

Section RoundTrip.

Lemma bigint_div_inv (a b q : Z) :
  bigint_div a b = Ok q -> b <> 0 /\ q = Z.quot a b.
Proof.
  unfold bigint_div. destruct (Z.eqb_spec b 0); [discriminate |].
  intros H. apply Ok_inj in H. auto.
Qed.

(** A bigint base value is the truncated quotient built from the
    three conversions. *)
Lemma parsedResourceToBaseUnit_bigint (q : K8sParsedResource) (z : Z) :
  parsedResourceToBaseUnit q = Ok (Big z) ->
  exists N Mz D,
    scaled_mantissa (number q) = Ok N /\
    BigInt (multiplier_of (unit q)) = Ok Mz /\
    precision_divisor (number q) = Ok D /\
    D <> 0 /\ z = Z.quot (N * Mz) D.
Proof.
  unfold parsedResourceToBaseUnit, scaled_mantissa, precision_divisor.
  fold (multiplier_of (unit q)).
  destruct (multiplier_of (unit q)) as [uMul | uMul]; cbn [BigInt].
  - destruct (number_le (number q * uMul) MAX_SAFE_INTEGER); [discriminate |].
    destruct (NumberToBigInt (number q * pow10 (getPrecision (number q))))
      as [N |]; cbn [bind]; [| discriminate].
    destruct (NumberToBigInt uMul) as [Mz |]; cbn [bind]; [| discriminate].
    destruct (NumberToBigInt (pow10 (getPrecision (number q))))
      as [D |]; cbn [bind]; [| discriminate].
    destruct (bigint_div (N * Mz) D) as [d |] eqn:Hd; cbn [bind];
      [| discriminate].
    intros H. apply Ok_inj in H. inversion H; subst d.
    apply bigint_div_inv in Hd as [HD Hz].
    exists N, Mz, D. auto.
  - destruct (NumberToBigInt (number q * pow10 (getPrecision (number q))))
      as [N |]; cbn [bind]; [| discriminate].
    destruct (NumberToBigInt (pow10 (getPrecision (number q))))
      as [D |]; cbn [bind]; [| discriminate].
    destruct (bigint_div (N * uMul) D) as [d |] eqn:Hd; cbn [bind];
      [| discriminate].
    intros H. apply Ok_inj in H. inversion H; subst d.
    apply bigint_div_inv in Hd as [HD Hz].
    exists N, uMul, D. auto.
Qed.

(** A floating base value is the floating product. *)
Lemma parsedResourceToBaseUnit_number (q : K8sParsedResource) (x : float) :
  parsedResourceToBaseUnit q = Ok (Num x) ->
  exists uMul,
    multiplier_of (unit q) = Num uMul /\ x = (number q * uMul)%float.
Proof.
  unfold parsedResourceToBaseUnit. fold (multiplier_of (unit q)).
  destruct (multiplier_of (unit q)) as [uMul | uMul].
  - destruct (number_le (number q * uMul) MAX_SAFE_INTEGER).
    + intros H. apply Ok_inj in H. inversion H. exists uMul. auto.
    + destruct (NumberToBigInt (number q * pow10 (getPrecision (number q))));
        cbn [bind]; [| discriminate].
      destruct (NumberToBigInt uMul); cbn [bind]; [| discriminate].
      destruct (NumberToBigInt (pow10 (getPrecision (number q))));
        cbn [bind]; [| discriminate].
      destruct (bigint_div _ _); cbn [bind]; discriminate.
  - destruct (NumberToBigInt (number q * pow10 (getPrecision (number q))));
      cbn [bind]; [| discriminate].
    destruct (NumberToBigInt (pow10 (getPrecision (number q))));
      cbn [bind]; [| discriminate].
    destruct (bigint_div _ _); cbn [bind]; discriminate.
Qed.

(** No multiplier converts to the bigint zero. *)
Lemma multiplier_bigint_nonzero (a : K8sResourceUnit) (Mz : Z) :
  BigInt (unitMultiplier a) = Ok Mz -> Mz <> 0.
Proof.
  destruct a; intros H; vm_compute in H;
    try discriminate; apply Ok_inj in H; subst Mz; discriminate.
Qed.

Lemma truthy_unit (a : K8sResourceUnit) :
  a <> U.Empty -> truthy (Some a) = Some a.
Proof. destruct a; try reflexivity. contradiction. Qed.

(** With an explicit non-empty unit both scale functions are the
    same division. *)
Lemma scale_explicit (v : numeric) (a : K8sResourceUnit) :
  a <> U.Empty ->
  scaleBaseUnitCpu v (Some a) =
    (multiplier <- explicit_multiplier v a ;;
     scale_by v (Some a, multiplier)) /\
  scaleBaseUnitMemory v (Some a) = scaleBaseUnitCpu v (Some a).
Proof.
  intros Ha. unfold scaleBaseUnitCpu, scaleBaseUnitMemory.
  rewrite (truthy_unit a Ha). split; reflexivity.
Qed.

Lemma quot_scaled (N Mz D : Z) :
  Mz <> 0 -> D <> 0 -> Z.quot (Z.quot (N * Mz) D) Mz = Z.quot N D.
Proof.
  intros HM HD.
  rewrite Z.quot_quot by assumption.
  apply Z.quot_mul_cancel_r; assumption.
Qed.

Lemma number_eq_refl (x : float) : is_number x -> number_eq x x = true.
Proof.
  intros Hx. unfold number_eq. rewrite FloatAxioms.eqb_spec. unfold SFeqb.
  rewrite SFcompare_rank by auto using Prim2SF_valid.
  rewrite Z.compare_refl. reflexivity.
Qed.

Lemma NumberToBigInt_is_number (x : float) (n : Z) :
  NumberToBigInt x = Ok n -> is_number x.
Proof.
  unfold NumberToBigInt, is_number, not_nan. intros H Hn.
  rewrite Hn in H. discriminate.
Qed.

(** [Number(BigInt(x)) === x] *)
Lemma Number_BigInt (x : float) (n : Z) :
  NumberToBigInt x = Ok n -> number_eq (of_Z n) x = true.
Proof.
  intros H. pose proof (NumberToBigInt_is_number x n H) as Hx.
  destruct (of_Z_NumberToBigInt x n H) as [-> | (_ & -> & Hz)].
  - apply number_eq_refl. exact Hx.
  - unfold number_eq. rewrite FloatAxioms.eqb_spec, Hz. reflexivity.
Qed.

End RoundTrip.

(** ** The unit [k] is never selected automatically *)

Section KiloUnreachable.

Lemma geb_numbers (x c : float) :
  geb (Num x) (Num c) = true <->
  is_number x /\ is_number c /\ number_rank c <= number_rank x.
Proof.
  unfold geb, compare_numeric, is_number, number_rank, not_nan.
  destruct (Prim2SF x) as [sx | sx | | sx mx ex] eqn:Ex;
    try (split; [discriminate | intros (H & _ & _); elim H; reflexivity]);
    (destruct (Prim2SF c) as [sc | sc | | sc mc ec] eqn:Ec;
     [| | split; [destruct sx; discriminate
                 | intros (_ & H & _); elim H; reflexivity] |]);
    pose proof (Prim2SF_valid x) as Vx; pose proof (Prim2SF_valid c) as Vc;
    rewrite Ex in Vx; rewrite Ec in Vc;
    rewrite (SFcompare_rank _ _ Vx Vc) by discriminate;
    match goal with
    | |- context [?a ?= ?b] =>
        destruct (Z.compare_spec a b); split;
        try discriminate; try reflexivity;
        try (intros _; repeat split; try discriminate; lia);
        try (intros (_ & _ & ?); lia)
    end.
Qed.

Lemma ltb_numbers (x c : float) :
  ltb (Num x) (Num c) = true -> number_rank x < number_rank c.
Proof.
  unfold ltb, compare_numeric, number_rank.
  pose proof (Prim2SF_valid x) as Vx. pose proof (Prim2SF_valid c) as Vc.
  destruct (SFcompare (Prim2SF x) (Prim2SF c)) as [cmp |] eqn:E;
    [| discriminate].
  assert (Nx : not_nan (Prim2SF x))
    by (intros Hn; rewrite Hn in E; discriminate).
  assert (Nc : not_nan (Prim2SF c))
    by (intros Hn; rewrite Hn in E; destruct (Prim2SF x); discriminate).
  rewrite (SFcompare_rank _ _ Vx Vc Nx Nc) in E. apply Some_inj in E.
  subst cmp. destruct (Z.compare_spec (rank (Prim2SF x)) (rank (Prim2SF c)));
    try discriminate. auto.
Qed.

(** The record [scale_by] returns carries the selected unit. *)
Lemma scale_by_unit (v : numeric) (sel : selection) (r : K8sParsedResource) :
  scale_by v sel = Ok r -> unit r = fst sel.
Proof.
  destruct sel as [un mult]. unfold scale_by.
  match goal with
  | |- bind ?c _ = _ -> _ => destruct c as [n |]; cbn [bind]
  end; [| discriminate].
  intros H. apply Ok_inj in H. subst r. reflexivity.
Qed.

(** One iteration on a floating base value and a floating multiplier. *)
Lemma select_step_numbers (x c : float) (a : K8sResourceUnit) :
  unitMultiplier a = Num c ->
  select_step (Num x) a = Ok ((Some a, Num c), geb (Num x) (Num c)).
Proof. intros H. unfold select_step. rewrite H. reflexivity. Qed.

(** One iteration on a bigint base value. *)
Lemma select_step_bigint (z mz : Z) (a : K8sResourceUnit) :
  BigInt (unitMultiplier a) = Ok mz ->
  select_step (Big z) a = Ok ((Some a, Big mz), geb (Big z) (Big mz)).
Proof. intros H. unfold select_step. rewrite H. reflexivity. Qed.

Lemma geb_bigints (z mz : Z) : geb (Big z) (Big mz) = true <-> mz <= z.
Proof.
  unfold geb, compare_numeric.
  destruct (Z.compare_spec z mz); split; intros; try discriminate;
    try reflexivity; lia.
Qed.

Ltac number_step H a c :=
  cbn [select_unit] in H;
  rewrite (select_step_numbers _ c a eq_refl) in H;
  cbn [bind] in H.

Ltac bigint_step H a mz :=
  cbn [select_unit] in H;
  rewrite (select_step_bigint _ mz a ltac:(vm_compute; reflexivity)) in H;
  cbn [bind] in H.

Ltac selected H :=
  apply Ok_inj in H; subst; cbn [fst]; discriminate.

(** On a floating base value the scan from the top never stops at
    [k]: a value that reaches [k] is below [1]. *)
Lemma select_from_top_number (x : float) (sel : selection) :
  select_unit (Num x) (descending_from (length cpuUnits) cpuUnits)
    (None, Num 1) = Ok sel ->
  fst sel <> Some U.k.
Proof.
  cbn [descending_from cpuUnits length firstn rev app].
  intros H. cbn [select_unit] in H. unfold select_step at 1 in H.
  cbn [unitMultiplier] in H.
  destruct (NumberToBigInt (Math_trunc x)) as [nz |];
    cbn [bind] in H; [| discriminate].
  destruct (geb (Big nz) (Big (10 ^ 18))); [selected H |].
  number_step H U.P 1e15%float.
  destruct (geb (Num x) (Num 1e15)); [selected H |].
  number_step H U.T 1e12%float.
  destruct (geb (Num x) (Num 1e12)); [selected H |].
  number_step H U.G 1e9%float.
  destruct (geb (Num x) (Num 1e9)); [selected H |].
  number_step H U.M 1e6%float.
  destruct (geb (Num x) (Num 1e6)); [selected H |].
  number_step H U.Empty 1%float.
  destruct (geb (Num x) (Num 1)) eqn:H1; [selected H |].
  number_step H U.k 1e3%float.
  destruct (geb (Num x) (Num 1e3)) eqn:Hk.
  - exfalso. apply geb_numbers in Hk as (Nx & _ & Hr).
    assert (Hge : geb (Num x) (Num 1) = true).
    { apply geb_numbers. split; [exact Nx |]. split; [discriminate |].
      apply Z.le_trans with (number_rank 1e3); [| exact Hr].
      vm_compute. discriminate. }
    congruence.
  - number_step H U.m 1e-3%float.
    destruct (geb (Num x) (Num 1e-3)); [selected H |].
    number_step H U.u 1e-6%float.
    destruct (geb (Num x) (Num 1e-6)); selected H.
Qed.

(** Below [1] the scan starts at [k], and [k] is too large. *)
Lemma select_below_one_number (x : float) (sel : selection) :
  ltb (Num x) (Num 1) = true ->
  select_unit (Num x) (descending_from 3 cpuUnits) (None, Num 1) = Ok sel ->
  fst sel <> Some U.k.
Proof.
  cbn [descending_from cpuUnits firstn rev app].
  intros Hlt H.
  number_step H U.k 1e3%float.
  destruct (geb (Num x) (Num 1e3)) eqn:Hk.
  - exfalso. apply geb_numbers in Hk as (_ & _ & Hr).
    apply ltb_numbers in Hlt.
    assert (number_rank 1 <= number_rank 1e3) by (vm_compute; discriminate).
    lia.
  - number_step H U.m 1e-3%float.
    destruct (geb (Num x) (Num 1e-3)); [selected H |].
    number_step H U.u 1e-6%float.
    destruct (geb (Num x) (Num 1e-6)); selected H.
Qed.

Lemma select_from_top_bigint (z : Z) (sel : selection) :
  select_unit (Big z) (descending_from (length cpuUnits) cpuUnits)
    (None, Num 1) = Ok sel ->
  fst sel <> Some U.k.
Proof.
  cbn [descending_from cpuUnits length firstn rev app].
  intros H.
  bigint_step H U.E (10 ^ 18).
  destruct (geb (Big z) (Big (10 ^ 18))); [selected H |].
  bigint_step H U.P (10 ^ 15).
  destruct (geb (Big z) (Big (10 ^ 15))); [selected H |].
  bigint_step H U.T (10 ^ 12).
  destruct (geb (Big z) (Big (10 ^ 12))); [selected H |].
  bigint_step H U.G (10 ^ 9).
  destruct (geb (Big z) (Big (10 ^ 9))); [selected H |].
  bigint_step H U.M (10 ^ 6).
  destruct (geb (Big z) (Big (10 ^ 6))); [selected H |].
  bigint_step H U.Empty 1.
  destruct (geb (Big z) (Big 1)) eqn:H1; [selected H |].
  bigint_step H U.k 1000.
  destruct (geb (Big z) (Big 1000)) eqn:Hk.
  - exfalso. apply geb_bigints in Hk.
    assert (Hge : geb (Big z) (Big 1) = true) by (apply geb_bigints; lia).
    congruence.
  - cbn [select_unit] in H. unfold select_step at 1 in H.
    cbn [unitMultiplier BigInt] in H.
    destruct (NumberToBigInt 1e-3) as [mz |] eqn:Hm;
      [vm_compute in Hm; discriminate |].
    cbn [bind] in H. discriminate.
Qed.

Lemma select_below_one_bigint (z : Z) (sel : selection) :
  ltb (Big z) (Num 1) = true ->
  select_unit (Big z) (descending_from 3 cpuUnits) (None, Num 1) = Ok sel ->
  fst sel <> Some U.k.
Proof.
  cbn [descending_from cpuUnits firstn rev app].
  intros Hlt H.
  bigint_step H U.k 1000.
  destruct (geb (Big z) (Big 1000)) eqn:Hk.
  - exfalso. apply geb_bigints in Hk.
    unfold ltb, compare_numeric, compare_Z_float in Hlt.
    replace (Prim2SF 1) with (S754_finite false 4503599627370496 (-52)) in Hlt
      by (vm_compute; reflexivity).
    cbn [cond_Zopp Z.leb Z.compare Z.opp] in Hlt.
    destruct (Z.compare_spec (z * 2 ^ 52) 4503599627370496);
      try discriminate.
    assert (2 ^ 52 = 4503599627370496) by reflexivity. lia.
  - cbn [select_unit] in H. unfold select_step at 1 in H.
    cbn [unitMultiplier BigInt] in H.
    destruct (NumberToBigInt 1e-3) as [mz |] eqn:Hm;
      [vm_compute in Hm; discriminate |].
    cbn [bind] in H. discriminate.
Qed.

(** Whatever the base value, the automatic selection of
    [scaleBaseUnitCpu] never returns the unit [k], although [k] is in
    [cpuUnits]: the empty unit, of multiplier [1], is visited first. *)
Lemma scaleBaseUnitCpu_never_kilo (v : numeric) (r : K8sParsedResource) :
  scaleBaseUnitCpu v None = Ok r -> unit r <> Some U.k.
Proof.
  unfold scaleBaseUnitCpu. cbn [truthy].
  destruct (number_eq (Number v) 0).
  - intros H. apply Ok_inj in H. subst r. discriminate.
  - destruct (ltb v (Num 1)) eqn:Hlt;
      match goal with
      | |- bind ?c _ = _ -> _ => destruct c as [sel |] eqn:Hs; cbn [bind]
      end; try discriminate;
      intros H; apply scale_by_unit in H; rewrite H;
      destruct v as [x | z].
    + eapply select_below_one_number; eassumption.
    + eapply select_below_one_bigint; eassumption.
    + eapply select_from_top_number; eassumption.
    + eapply select_from_top_bigint; eassumption.
Qed.

End KiloUnreachable.

(** * Further properties *)

(** ** [add] *)

Section AddProperties.

Lemma SFadd_comm (x y : spec_float) :
  SFadd prec emax x y = SFadd prec emax y x.
Proof.
  destruct x as [sx | sx | | sx mx ex], y as [sy | sy | | sy my ey];
    cbn [SFadd]; try reflexivity;
    try (destruct sx, sy; reflexivity).
  rewrite (Z.min_comm ey ex). f_equal. apply Z.add_comm.
Qed.

Lemma add_numbers_comm (x y : float) : (x + y)%float = (y + x)%float.
Proof.
  apply Prim2SF_inj. rewrite !add_spec. apply SFadd_comm.
Qed.

Lemma zero_add_number (y : float) :
  Prim2SF y <> S754_zero true -> (0 + y)%float = y.
Proof.
  intros Hy. apply Prim2SF_inj. rewrite add_spec. unfold SF64add.
  replace (Prim2SF 0) with (S754_zero false) by (vm_compute; reflexivity).
  destruct (Prim2SF y) as [s | s | | s my ey]; cbn [SFadd]; try reflexivity.
  destruct s; [elim Hy; reflexivity | reflexivity].
Qed.

Lemma whole_number (x : float) :
  whole (Num x) <-> exists n, NumberToBigInt x = Ok n.
Proof.
  unfold whole. split.
  - intros (n & q & Hq & He). exists n.
    apply NumberToBigInt_value. exists q. auto.
  - intros (n & Hn). apply NumberToBigInt_value in Hn as (q & Hq & He).
    exists n, q. auto.
Qed.

Lemma NumberToBigInt_throws (x : float) :
  ~ whole (Num x) -> NumberToBigInt x = Throw RangeError.
Proof.
  intros Hw. destruct (NumberToBigInt x) as [n | e] eqn:H.
  - elim Hw. apply whole_number. exists n. exact H.
  - unfold NumberToBigInt in H.
    destruct (Prim2SF x) as [s | s | | s mx ex]; try discriminate;
      try (inversion H; reflexivity).
    destruct (0 <=? ex); [discriminate |].
    destruct (Zpos mx mod 2 ^ (- ex) =? 0); [discriminate |].
    inversion H. reflexivity.
Qed.

End AddProperties.

(** X1: [add] does not depend on the order of its operands, in its
    result and in its failure. *)
Theorem add_commutative (a b : numeric) : add a b = add b a.
Proof.
  destruct a as [x | x], b as [y | y]; unfold add; cbn [BigInt bind].
  - rewrite add_numbers_comm. reflexivity.
  - destruct (NumberToBigInt x) as [n | e]; cbn [bind];
      [rewrite Z.add_comm |]; reflexivity.
  - destruct (NumberToBigInt y) as [n | e]; cbn [bind];
      [rewrite Z.add_comm |]; reflexivity.
  - rewrite Z.add_comm. reflexivity.
Qed.

(** X2: [add] raises exactly when one operand is a bigint and the
    other is a number that is not whole (NaN, an infinity or a number
    with a fractional part); the error is [RangeError]. *)
Theorem add_raises_iff (a b : numeric) :
  (throws (add a b) <->
   (is_bigint a = true /\ ~ whole b) \/ (is_bigint b = true /\ ~ whole a)) /\
  (throws (add a b) -> add a b = Throw RangeError).
Proof.
  assert (Hbig : forall z, whole (Big z)).
  { intros z. exists z, (inject_Z z). split; reflexivity. }
  destruct a as [x | x], b as [y | y]; unfold add; cbn [BigInt bind is_bigint].
  - split; [split |].
    + intros [e He]. discriminate.
    + intros [[H _] | [H _]]; discriminate.
    + intros [e He]. discriminate.
  - destruct (NumberToBigInt x) as [n | e] eqn:Hx; cbn [bind].
    + split; [split |].
      * intros [e He]. discriminate.
      * intros [[_ H] | [_ H]]; [elim H; apply Hbig |].
        elim H. apply whole_number. exists n. exact Hx.
      * intros [e He]. discriminate.
    + assert (Hw : ~ whole (Num x)).
      { intros Hw. apply whole_number in Hw as [n Hn]. congruence. }
      rewrite (NumberToBigInt_throws x Hw) in Hx. inversion Hx; subst e.
      split; [split |]; auto.
      intros _. eexists. reflexivity.
  - destruct (NumberToBigInt y) as [n | e] eqn:Hy; cbn [bind].
    + split; [split |].
      * intros [e He]. discriminate.
      * intros [[_ H] | [_ H]]; [| elim H; apply Hbig].
        elim H. apply whole_number. exists n. exact Hy.
      * intros [e He]. discriminate.
    + assert (Hw : ~ whole (Num y)).
      { intros Hw. apply whole_number in Hw as [n Hn]. congruence. }
      rewrite (NumberToBigInt_throws y Hw) in Hy. inversion Hy; subst e.
      split; [split |]; auto.
      intros _. eexists. reflexivity.
  - split; [split |].
    + intros [e He]. discriminate.
    + intros [[_ H] | [_ H]]; elim H; apply Hbig.
    + intros [e He]. discriminate.
Qed.

Lemma add_raises_iff_witness :
  (is_bigint (Big 1) = true /\ ~ whole (Num 0.5)) /\
  throws (add (Big 1) (Num 0.5)).
Proof.
  assert (H : is_bigint (Big 1) = true /\ ~ whole (Num 0.5)).
  { split; [reflexivity |]. intros Hw. apply whole_number in Hw as [n Hn].
    vm_compute in Hn. discriminate. }
  split; [exact H |].
  exact (proj2 (proj1 (add_raises_iff (Big 1) (Num 0.5))) (or_introl H)).
Defined.

(** X3: [0] is neutral on the left, as in a reduction started from
    [0]: [add(0, v)] is [v] for every bigint and for every number
    other than the negative zero. *)
Theorem add_zero_left :
  (forall z : Z, add (Num 0) (Big z) = Ok (Big z)) /\
  (forall y : float,
      Prim2SF y <> S754_zero true -> add (Num 0) (Num y) = Ok (Num y)).
Proof.
  split.
  - intros z. reflexivity.
  - intros y Hy. unfold add. rewrite (zero_add_number y Hy). reflexivity.
Qed.

Lemma add_zero_left_witness :
  Prim2SF 0.5 <> S754_zero true /\ add (Num 0) (Num 0.5) = Ok (Num 0.5).
Proof.
  assert (H : Prim2SF 0.5 <> S754_zero true) by (vm_compute; discriminate).
  split; [exact H |].
  exact (proj2 add_zero_left 0.5%float H).
Defined.

(** ** Scaling to an explicit unit *)

Section ExplicitUnit.

(** The multipliers as bigints: [u] and [m] are fractions and do not
    convert. *)
Lemma bigint_multiplier_table (a : K8sResourceUnit) :
  bigint_multiplier a =
  match a with
  | U.u | U.m => Throw RangeError
  | U.k => Ok (10 ^ 3)
  | U.M => Ok (10 ^ 6)
  | U.G => Ok (10 ^ 9)
  | U.T => Ok (10 ^ 12)
  | U.P => Ok (10 ^ 15)
  | U.E => Ok (10 ^ 18)
  | U.Empty | U.B => Ok 1
  | U.Ki => Ok (2 ^ 10)
  | U.Mi => Ok (2 ^ 20)
  | U.Gi => Ok (2 ^ 30)
  | U.Ti => Ok (2 ^ 40)
  | U.Pi => Ok (2 ^ 50)
  | U.Ei => Ok (2 ^ 60)
  end.
Proof. destruct a; vm_compute; reflexivity. Qed.

Lemma bigint_div_nonzero (a b : Z) :
  b <> 0 -> bigint_div a b = Ok (Z.quot a b).
Proof.
  intros Hb. unfold bigint_div.
  destruct (Z.eqb_spec b 0); [contradiction | reflexivity].
Qed.

End ExplicitUnit.

(** X4: scaling a bigint base value to an explicit unit raises
    [RangeError] for the units [u] and [m], whose multipliers are
    fractions, whatever the value; for every other non-empty unit it
    returns the integer quotient by the multiplier, truncated toward
    zero.  [scaleBaseUnitMemory] does the same. *)
Theorem scale_bigint_to_unit (z : Z) (a : K8sResourceUnit) :
  a <> U.Empty ->
  (a = U.u \/ a = U.m ->
   scaleBaseUnitCpu (Big z) (Some a) = Throw RangeError) /\
  (a <> U.u -> a <> U.m ->
   exists Mz,
     0 < Mz /\ bigint_multiplier a = Ok Mz /\
     scaleBaseUnitCpu (Big z) (Some a) =
       Ok {| number := of_Z (Z.quot z Mz); unit := Some a |}) /\
  scaleBaseUnitMemory (Big z) (Some a) = scaleBaseUnitCpu (Big z) (Some a).
Proof.
  intros Ha. destruct (scale_explicit (Big z) a Ha) as [Hc Hm].
  split; [| split; [| exact Hm]].
  - intros Hu. rewrite Hc. unfold explicit_multiplier. cbn [is_bigint].
    fold (bigint_multiplier a). rewrite bigint_multiplier_table.
    destruct Hu as [-> | ->]; reflexivity.
  - intros Hu Hmi. rewrite Hc. unfold explicit_multiplier. cbn [is_bigint].
    fold (bigint_multiplier a). rewrite bigint_multiplier_table.
    destruct a; try contradiction;
      eexists; (split; [| split; [reflexivity |]]);
      try (cbn [bind scale_by]; rewrite bigint_div_nonzero by discriminate;
           reflexivity);
      reflexivity.
Qed.

Lemma scale_bigint_to_unit_witness :
  U.P <> U.Empty /\
  exists Mz,
    0 < Mz /\ bigint_multiplier U.P = Ok Mz /\
    scaleBaseUnitCpu (Big (10 ^ 17)) (Some U.P) =
      Ok {| number := of_Z (Z.quot (10 ^ 17) Mz); unit := Some U.P |}.
Proof.
  assert (Ha : U.P <> U.Empty) by discriminate.
  split; [exact Ha |].
  exact (proj1 (proj2 (scale_bigint_to_unit (10 ^ 17) U.P Ha))
           ltac:(discriminate) ltac:(discriminate)).
Defined.

(** X5: scaling a floating base value to an explicit unit never
    raises when the unit has a floating multiplier: the number is the
    floating quotient.  With one of the bigint units [E], [Pi], [Ei]
    it returns the truncated integer quotient when the base value is
    whole and raises [RangeError] when it is not. *)
Theorem scale_number_to_unit (x : float) (a : K8sResourceUnit) :
  a <> U.Empty ->
  (forall c : float,
      unitMultiplier a = Num c ->
      scaleBaseUnitCpu (Num x) (Some a) =
        Ok {| number := x / c; unit := Some a |}) /\
  (forall Mz : Z,
      unitMultiplier a = Big Mz ->
      (forall n : Z,
          integer_valued x n ->
          scaleBaseUnitCpu (Num x) (Some a) =
            Ok {| number := of_Z (Z.quot n Mz); unit := Some a |}) /\
      (~ whole (Num x) ->
       scaleBaseUnitCpu (Num x) (Some a) = Throw RangeError)) /\
  scaleBaseUnitMemory (Num x) (Some a) = scaleBaseUnitCpu (Num x) (Some a).
Proof.
  intros Ha. destruct (scale_explicit (Num x) a Ha) as [Hc Hm].
  split; [| split; [| exact Hm]].
  - intros c Hu. rewrite Hc. unfold explicit_multiplier. cbn [is_bigint].
    rewrite Hu. reflexivity.
  - intros Mz Hu.
    assert (HMz : Mz <> 0).
    { apply (multiplier_bigint_nonzero a). rewrite Hu. reflexivity. }
    rewrite Hc. unfold explicit_multiplier. cbn [is_bigint].
    rewrite Hu. cbn [bind scale_by BigInt]. split.
    + intros n Hn. apply BigInt_integer_valued in Hn. cbn [BigInt] in Hn.
      rewrite Hn. cbn [bind]. rewrite bigint_div_nonzero by assumption.
      reflexivity.
    + intros Hw. rewrite (NumberToBigInt_throws x Hw). reflexivity.
Qed.

Lemma scale_number_to_unit_witness :
  U.m <> U.Empty /\ unitMultiplier U.m = Num 1e-3 /\
  scaleBaseUnitCpu (Num 1.5) (Some U.m) =
    Ok {| number := 1.5 / 1e-3; unit := Some U.m |}.
Proof.
  assert (Ha : U.m <> U.Empty) by discriminate.
  split; [exact Ha |]. split; [reflexivity |].
  exact (proj1 (scale_number_to_unit 1.5 U.m Ha) 1e-3%float eq_refl).
Defined.

(** ** [Math.trunc] followed by [BigInt] *)

Section Truncation.

Lemma digits2_pos_le (p : positive) (n : Z) :
  Zpos p < 2 ^ n -> 0 <= n -> Zpos (digits2_pos p) <= n.
Proof.
  intros Hp Hn. pose proof (digits2_pos_bounds p) as [Hlo _].
  assert (H : 2 ^ (Zpos (digits2_pos p) - 1) < 2 ^ n) by lia.
  apply Z.pow_lt_mono_r_iff in H; lia.
Qed.

(** A positive integer below [2^53], normalised to a 53-bit mantissa,
    is a valid binary64. *)
Lemma normalised_bounded (p : positive) :
  Zpos p < 2 ^ 53 ->
  let k := Z.to_nat (53 - Zpos (digits2_pos p)) in
  bounded prec emax (Nat.iter k xO p) (- Z.of_nat k) = true.
Proof.
  intros Hp k. pose proof (digits2_pos_le p 53 Hp ltac:(lia)) as Hd.
  unfold bounded, canonical_mantissa, fexp, SpecFloat.emin, prec, emax.
  rewrite digits2_doubled. unfold k. rewrite Z2Nat.id by lia.
  apply andb_true_iff. split; [apply Z.eqb_eq | apply Z.leb_le]; lia.
Qed.

Lemma binary_round_small (s : bool) (p : positive) :
  Zpos p < 2 ^ 53 ->
  let k := Z.to_nat (53 - Zpos (digits2_pos p)) in
  binary_round prec emax s p 0 =
  S754_finite s (Nat.iter k xO p) (- Z.of_nat k).
Proof.
  intros Hp k. pose proof (digits2_pos_le p 53 Hp ltac:(lia)) as Hd.
  pose proof (normalised_bounded p Hp) as Hb. fold k in Hb.
  unfold binary_round, fexp, SpecFloat.emin, prec, emax.
  rewrite Z.add_0_r.
  replace (Z.max (Zpos (digits2_pos p) - 53) (3 - 1024 - 53))
    with (Zpos (digits2_pos p) - 53) by lia.
  unfold shl_align. rewrite Z.sub_0_r.
  destruct (Zpos (digits2_pos p) - 53) as [| d | d] eqn:Ed; try lia.
  - assert (Hk : k = 0%nat) by (unfold k; lia).
    rewrite Hk in *. cbn [Nat.iter Z.of_nat Z.opp] in *.
    apply (binary_round_aux_exact s p 0 0 Hb).
  - assert (Hk : k = Pos.to_nat d) by (unfold k; lia).
    rewrite Pos2Nat.inj_iter, <- Hk.
    replace (Zneg d) with (- Z.of_nat k) by lia.
    replace (- Z.of_nat k) with (- Z.of_nat k - Z.of_nat 0) at 1
      by (cbn [Z.of_nat]; lia).
    apply (binary_round_aux_exact s (Nat.iter k xO p) (- Z.of_nat k) 0 Hb).
Qed.

(** [BigInt(Number(z))] is [z] for an integer below [2^53]. *)
Lemma BigInt_round_small (s : bool) (p : positive) :
  Zpos p < 2 ^ 53 ->
  NumberToBigInt (SF2Prim (binary_round prec emax s p 0)) =
  Ok (cond_Zopp s (Zpos p)).
Proof.
  intros Hp. pose proof (normalised_bounded p Hp) as Hb.
  rewrite (binary_round_small s p Hp).
  set (k := Z.to_nat (53 - Zpos (digits2_pos p))) in *. cbv zeta in Hb.
  unfold NumberToBigInt.
  rewrite Prim2SF_SF2Prim by exact Hb.
  rewrite Zpos_doubled.
  destruct (0 <=? - Z.of_nat k) eqn:Hs.
  - apply Z.leb_le in Hs. assert (Hk : Z.of_nat k = 0) by lia.
    rewrite Hk. cbn [Z.opp Z.pow]. rewrite !Z.mul_1_r. reflexivity.
  - rewrite Z.opp_involutive.
    assert (H2 : 0 < 2 ^ Z.of_nat k) by (apply Z.pow_pos_nonneg; lia).
    rewrite Z.mod_mul by lia. cbn [Z.eqb].
    rewrite Z.div_mul by lia. reflexivity.
Qed.

(** [BigInt(Math.trunc(x))] returns the integral part of every finite
    number. *)
Lemma Math_trunc_BigInt (x : float) :
  isFinite x = true ->
  NumberToBigInt (Math_trunc x) = Ok (truncated (Prim2SF x)).
Proof.
  unfold isFinite, Math_trunc. pose proof (Prim2SF_valid x) as Hv.
  destruct (Prim2SF x) as [s | s | | s mx e] eqn:Ex; try discriminate.
  - intros _. unfold NumberToBigInt. rewrite Ex. reflexivity.
  - intros _. cbn [valid_binary] in Hv.
    apply bounded_inv in Hv as (_ & Hm & _). cbn [truncated].
    destruct (e <? 0) eqn:He.
    + apply Z.ltb_lt in He.
      replace (0 <=? e) with false by (symmetry; apply Z.leb_gt; lia).
      assert (Hd : 0 < 2 ^ (- e)) by (apply Z.pow_pos_nonneg; lia).
      assert (Hq : 0 <= Zpos mx / 2 ^ (- e) <= Zpos mx).
      { split; [apply Z.div_pos; lia |].
        apply Z.div_le_upper_bound; [lia |]. nia. }
      destruct (Zpos mx / 2 ^ (- e)) as [| q | q] eqn:Eq; try lia.
      * replace (cond_Zopp s 0) with 0 by (destruct s; reflexivity).
        cbn [binary_normalize]. destruct s; vm_compute; reflexivity.
      * assert (Hq53 : Zpos q < 2 ^ 53) by lia.
        destruct s; cbn [cond_Zopp Z.opp binary_normalize];
          rewrite (BigInt_round_small _ q Hq53); reflexivity.
    + apply Z.ltb_ge in He.
      replace (0 <=? e) with true by (symmetry; apply Z.leb_le; lia).
      unfold NumberToBigInt. rewrite Ex.
      replace (0 <=? e) with true by (symmetry; apply Z.leb_le; lia).
      reflexivity.
Qed.

(** A finite number with a large integral part is whole. *)
Lemma large_is_whole (x : float) :
  isFinite x = true -> 2 ^ 53 <= Z.abs (truncated (Prim2SF x)) ->
  NumberToBigInt x = Ok (truncated (Prim2SF x)).
Proof.
  unfold isFinite, NumberToBigInt. pose proof (Prim2SF_valid x) as Hv.
  destruct (Prim2SF x) as [s | s | | s mx e] eqn:Ex; try discriminate.
  - intros _ H. cbn [truncated Z.abs] in H. 
    assert (0 < 2 ^ 53) by reflexivity. lia.
  - intros _ H. cbn [valid_binary] in Hv.
    apply bounded_inv in Hv as (_ & Hm & _). cbn [truncated] in *.
    destruct (0 <=? e) eqn:He; [reflexivity |].
    exfalso. apply Z.leb_gt in He.
    assert (Hd : 0 < 2 ^ (- e)) by (apply Z.pow_pos_nonneg; lia).
    assert (Hq : 0 <= Zpos mx / 2 ^ (- e) <= Zpos mx).
    { split; [apply Z.div_pos; lia |].
      apply Z.div_le_upper_bound; [lia |]. nia. }
    destruct s; cbn [cond_Zopp] in H; lia.
Qed.

End Truncation.

(** ** Automatic unit selection on a number *)

Section AutoNumber.

(** Over units with floating multipliers the loop always ends, on one
    of the units it visits and with a floating multiplier. *)
Lemma select_unit_floating (x : float) (cands : list K8sResourceUnit)
  (current : selection) :
  Forall floating_unit cands -> cands <> [] ->
  exists a c,
    In a cands /\ select_unit (Num x) cands current = Ok (Some a, Num c).
Proof.
  intros Hall. revert current.
  induction Hall as [| a rest [c Hc] Hrest IH]; intros current Hne;
    [contradiction |].
  cbn [select_unit]. rewrite (select_step_numbers x c a Hc). cbn [bind].
  destruct (geb (Num x) (Num c)).
  - exists a, c. split; [left; reflexivity | reflexivity].
  - destruct rest as [| b rest].
    + exists a, c. split; [left; reflexivity | reflexivity].
    + destruct (IH (Some a, Num c) ltac:(discriminate)) as (a' & c' & Hin & Hs).
      exists a', c'. split; [right; exact Hin | exact Hs].
Qed.

Lemma floating_units (l : list K8sResourceUnit) :
  forallb (fun a => negb (is_bigint (unitMultiplier a))) l = true ->
  Forall floating_unit l.
Proof.
  intros H. apply Forall_forall. intros a Hin.
  rewrite forallb_forall in H. specialize (H a Hin).
  unfold floating_unit. destruct (unitMultiplier a) as [c | z];
    [exists c; reflexivity | discriminate].
Qed.

Lemma select_unit_cons (b : numeric) (a : K8sResourceUnit)
  (rest : list K8sResourceUnit) (current : selection) :
  select_unit b (a :: rest) current =
  (' (next, break) <- select_step b a ;;
   if break then Ok next else select_unit b rest next).
Proof. reflexivity. Qed.

Lemma not_finite_trunc (x : float) :
  isFinite x = false -> NumberToBigInt (Math_trunc x) = Throw RangeError.
Proof.
  unfold isFinite, Math_trunc, NumberToBigInt.
  destruct (Prim2SF x) as [s | s | | s mx e] eqn:Ex; try discriminate;
    intros _; rewrite Ex; reflexivity.
Qed.

End AutoNumber.

(** X6: without a unit argument [scaleBaseUnitCpu] returns for every
    finite number, with no unit (the zero shortcut) or a unit of
    [cpuUnits]; it raises [RangeError] on NaN and on [Infinity],
    which [BigInt(Math.trunc(...))] rejects at the first unit. *)
Theorem scaleBaseUnitCpu_number (x : float) :
  (isFinite x = true ->
   exists r,
     scaleBaseUnitCpu (Num x) None = Ok r /\
     (unit r = None \/ exists a, In a cpuUnits /\ unit r = Some a)) /\
  (Prim2SF x = S754_nan \/ Prim2SF x = S754_infinity false ->
   scaleBaseUnitCpu (Num x) None = Throw RangeError).
Proof.
  split.
  - intros Hfin. unfold scaleBaseUnitCpu. cbn [truthy Number].
    destruct (number_eq x 0).
    { eexists. split; [reflexivity | left; reflexivity]. }
    destruct (ltb (Num x) (Num 1)).
    + change (descending_from 3 cpuUnits) with [U.k; U.m; U.u].
      destruct (select_unit_floating x [U.k; U.m; U.u] (None, Num 1)
                  (floating_units [U.k; U.m; U.u] eq_refl)
                  ltac:(discriminate))
        as (a & c & Hin & Hs).
      rewrite Hs. cbn [bind scale_by]. eexists. split; [reflexivity |].
      right. exists a. split; [| reflexivity].
      cbn [In cpuUnits] in *. intuition.
    + change (descending_from (length cpuUnits) cpuUnits)
        with [U.E; U.P; U.T; U.G; U.M; U.Empty; U.k; U.m; U.u].
      rewrite select_unit_cons. unfold select_step at 1. cbn [unitMultiplier].
      rewrite (Math_trunc_BigInt x Hfin). cbn [bind].
      destruct (geb (Big (truncated (Prim2SF x))) (Big (10 ^ 18))) eqn:Hge.
      * apply geb_bigints in Hge. cbn [bind scale_by BigInt].
        rewrite (large_is_whole x Hfin)
          by (assert (2 ^ 53 <= 10 ^ 18) by (vm_compute; discriminate); lia).
        cbn [bind]. rewrite bigint_div_nonzero by discriminate.
        eexists. split; [reflexivity |].
        right. exists U.E. split; [| reflexivity]. cbn. intuition.
      * match goal with
        | |- context [select_unit _ _ ?cur] =>
            destruct (select_unit_floating x
                        [U.P; U.T; U.G; U.M; U.Empty; U.k; U.m; U.u] cur
                        (floating_units
                           [U.P; U.T; U.G; U.M; U.Empty; U.k; U.m; U.u]
                           eq_refl)
                        ltac:(discriminate))
              as (a & c & Hin & Hs)
        end.
        rewrite Hs. cbn [bind scale_by]. eexists. split; [reflexivity |].
        right. exists a. split; [| reflexivity].
        cbn [In cpuUnits] in *. intuition.
  - intros Hx.
    assert (Hfin : isFinite x = false).
    { unfold isFinite. destruct Hx as [-> | ->]; reflexivity. }
    assert (Hz : number_eq x 0 = false).
    { unfold number_eq. rewrite FloatAxioms.eqb_spec.
      destruct Hx as [-> | ->]; reflexivity. }
    assert (Hlt : ltb (Num x) (Num 1) = false).
    { unfold ltb, compare_numeric.
      replace (Prim2SF 1) with (S754_finite false 4503599627370496 (-52))
        by (vm_compute; reflexivity).
      destruct Hx as [-> | ->]; reflexivity. }
    unfold scaleBaseUnitCpu. cbn [truthy Number]. rewrite Hz, Hlt.
    change (descending_from (length cpuUnits) cpuUnits)
      with [U.E; U.P; U.T; U.G; U.M; U.Empty; U.k; U.m; U.u].
    rewrite select_unit_cons. unfold select_step at 1. cbn [unitMultiplier].
    rewrite (not_finite_trunc x Hfin). reflexivity.
Qed.

Lemma scaleBaseUnitCpu_number_witness :
  isFinite 0.5 = true /\
  exists r,
    scaleBaseUnitCpu (Num 0.5) None = Ok r /\
    (unit r = None \/ exists a, In a cpuUnits /\ unit r = Some a).
Proof.
  assert (H : isFinite 0.5 = true) by (vm_compute; reflexivity).
  split; [exact H |].
  exact (proj1 (scaleBaseUnitCpu_number 0.5) H).
Defined.

(** X7: without a unit argument [scaleBaseUnitMemory] returns, with a
    unit of [memoryUnits], for a finite number that is whole or whose
    integral part is below [2^50]; it raises [RangeError] on NaN, on
    the infinities, and on a number of at least [2^50] with a
    fractional part, which selects [Pi] and is then converted with
    [BigInt] untruncated. *)
Theorem scaleBaseUnitMemory_number (x : float) :
  (isFinite x = true ->
   truncated (Prim2SF x) < 2 ^ 50 \/ whole (Num x) ->
   exists r a,
     scaleBaseUnitMemory (Num x) None = Ok r /\
     In a memoryUnits /\ unit r = Some a) /\
  (isFinite x = false \/
   (2 ^ 50 <= truncated (Prim2SF x) /\ ~ whole (Num x)) ->
   scaleBaseUnitMemory (Num x) None = Throw RangeError).
Proof.
  assert (Hrest : Forall floating_unit [U.Ti; U.Gi; U.Mi; U.Ki; U.Empty])
    by (apply floating_units; reflexivity).
  split.
  - intros Hfin Hx. unfold scaleBaseUnitMemory. cbn [truthy].
    change (descending_from (length memoryUnits) memoryUnits)
      with [U.Ei; U.Pi; U.Ti; U.Gi; U.Mi; U.Ki; U.Empty].
    rewrite select_unit_cons. unfold select_step at 1. cbn [unitMultiplier].
    rewrite (Math_trunc_BigInt x Hfin). cbn [bind].
    match goal with |- context [geb ?n ?mz] => destruct (geb n mz) eqn:Hge end.
    + apply geb_bigints in Hge. cbn [bind scale_by BigInt].
      rewrite (large_is_whole x Hfin)
        by (assert (2 ^ 53 <= 1073741824 * 1073741824)
              by (vm_compute; discriminate); lia).
      cbn [bind]. rewrite bigint_div_nonzero by discriminate.
      eexists. exists U.Ei. split; [reflexivity |].
      split; [cbn; intuition | reflexivity].
    + rewrite select_unit_cons. unfold select_step at 1. cbn [unitMultiplier].
      rewrite (Math_trunc_BigInt x Hfin). cbn [bind].
      match goal with
      | |- context [geb ?n ?mz] => destruct (geb n mz) eqn:Hge2
      end.
      * apply geb_bigints in Hge2. cbn [bind scale_by BigInt].
        destruct Hx as [Hlt | Hw].
        { exfalso. assert (1073741824 * 1048576 = 2 ^ 50) by reflexivity.
          lia. }
        apply whole_number in Hw as [n Hn]. rewrite Hn. cbn [bind].
        rewrite bigint_div_nonzero by discriminate.
        eexists. exists U.Pi. split; [reflexivity |].
        split; [cbn; intuition | reflexivity].
      * match goal with
        | |- context [select_unit _ _ ?cur] =>
            destruct (select_unit_floating x
                        [U.Ti; U.Gi; U.Mi; U.Ki; U.Empty] cur
                        Hrest ltac:(discriminate))
              as (a & c & Hin & Hs)
        end.
        rewrite Hs. cbn [bind scale_by]. eexists. exists a.
        split; [reflexivity |]. split; [| reflexivity].
        cbn [In memoryUnits] in *. intuition.
  - intros Hx. unfold scaleBaseUnitMemory. cbn [truthy].
    change (descending_from (length memoryUnits) memoryUnits)
      with [U.Ei; U.Pi; U.Ti; U.Gi; U.Mi; U.Ki; U.Empty].
    rewrite select_unit_cons. unfold select_step at 1. cbn [unitMultiplier].
    destruct Hx as [Hinf | [Hge Hw]].
    { rewrite (not_finite_trunc x Hinf). reflexivity. }
    assert (Hfin : isFinite x = true).
    { destruct (isFinite x) eqn:Hf; [reflexivity |].
      unfold isFinite in Hf. exfalso.
      destruct (Prim2SF x) as [s | s | | s mx e]; try discriminate;
        cbn [truncated] in Hge; assert (0 < 2 ^ 50) by reflexivity; lia. }
    rewrite (Math_trunc_BigInt x Hfin). cbn [bind].
    match goal with |- context [geb ?n ?mz] => destruct (geb n mz) eqn:Hg1 end.
    + cbn [bind scale_by BigInt].
      rewrite (NumberToBigInt_throws x Hw). reflexivity.
    + rewrite select_unit_cons. unfold select_step at 1. cbn [unitMultiplier].
      rewrite (Math_trunc_BigInt x Hfin). cbn [bind].
      assert (Hg2 : geb (Big (truncated (Prim2SF x)))
                      (Big (1073741824 * 1048576)) = true).
      { apply geb_bigints.
        assert (1073741824 * 1048576 = 2 ^ 50) by reflexivity. lia. }
      rewrite Hg2. cbn [bind scale_by BigInt].
      rewrite (NumberToBigInt_throws x Hw). reflexivity.
Qed.

Lemma scaleBaseUnitMemory_number_witness :
  (2 ^ 50 <= truncated (Prim2SF 1125899906842624.5) /\
   ~ whole (Num 1125899906842624.5)) /\
  scaleBaseUnitMemory (Num 1125899906842624.5) None = Throw RangeError.
Proof.
  assert (H : 2 ^ 50 <= truncated (Prim2SF 1125899906842624.5) /\
              ~ whole (Num 1125899906842624.5)).
  { split; [vm_compute; discriminate |].
    intros Hw. apply whole_number in Hw as [n Hn].
    vm_compute in Hn. discriminate. }
  split; [exact H |].
  exact (proj2 (scaleBaseUnitMemory_number 1125899906842624.5) (or_intror H)).
Defined.

(** ** [Number] of a bigint is a valid binary64 *)

Section Rounding.

Lemma shr_m_of_loc (m : Z) (l : location) :
  shr_m (shr_record_of_loc m l) = m.
Proof. destruct l as [| []]; reflexivity. Qed.

Lemma shr_1_halves (r : shr_record) :
  0 <= shr_m r -> shr_m (shr_1 r) = shr_m r / 2.
Proof.
  destruct r as [m r s]. cbn [shr_m]. intros Hm.
  rewrite <- Z.div2_div.
  destruct m as [| [p | p |] | p]; try reflexivity; lia.
Qed.

Lemma shr_m_iter (n : nat) (r : shr_record) :
  0 <= shr_m r ->
  shr_m (Nat.iter n shr_1 r) = shr_m r / 2 ^ Z.of_nat n.
Proof.
  intros Hm. induction n as [| n IH].
  - cbn [Nat.iter Z.of_nat]. rewrite Z.pow_0_r, Z.div_1_r. reflexivity.
  - rewrite Nat.iter_succ.
    assert (Hp : 0 < 2 ^ Z.of_nat n) by (apply Z.pow_pos_nonneg; lia).
    rewrite shr_1_halves by (rewrite IH; apply Z.div_pos; lia).
    rewrite IH, Nat2Z.inj_succ, Z.pow_succ_r by lia.
    rewrite Z.div_div by lia. f_equal. ring.
Qed.

Lemma digits2_pos_ge (p : positive) (n : Z) :
  2 ^ n <= Zpos p -> 0 <= n -> n + 1 <= Zpos (digits2_pos p).
Proof.
  intros Hp Hn. pose proof (digits2_pos_bounds p) as [_ Hhi].
  assert (H : 2 ^ n < 2 ^ Zpos (digits2_pos p)) by lia.
  apply Z.pow_lt_mono_r_iff in H; lia.
Qed.

(** The first step of rounding, on a mantissa of at least 53 bits:
    the mantissa is cut to 53 bits. *)
Lemma shr_fexp_large (p : positive) (e : Z) (l : location) :
  53 <= Zpos (digits2_pos p) ->
  -1074 <= e + Zpos (digits2_pos p) - 53 ->
  exists mrs,
    shr_fexp prec emax (Zpos p) e l = (mrs, e + Zpos (digits2_pos p) - 53) /\
    2 ^ 52 <= shr_m mrs < 2 ^ 53.
Proof.
  intros Hd He. pose proof (digits2_pos_bounds p) as [Hlo Hhi].
  unfold shr_fexp. cbn [Zdigits2].
  unfold fexp, SpecFloat.emin, prec, emax.
  set (d := Zpos (digits2_pos p)) in *.
  replace (Z.max (d + e - 53) (3 - 1024 - 53) - e) with (d - 53) by lia.
  unfold shr. destruct (d - 53) as [| q | q] eqn:Eq; try lia.
  - exists (shr_record_of_loc (Zpos p) l). split; [f_equal; lia |].
    rewrite shr_m_of_loc. replace d with 53 in * by lia.
    cbn [Z.sub] in Hlo. change (53 - 1) with 52 in Hlo. lia.
  - exists (iter_pos shr_1 q (shr_record_of_loc (Zpos p) l)).
    split; [f_equal; lia |].
    rewrite iter_pos_nat, shr_m_iter by (rewrite shr_m_of_loc; lia).
    rewrite shr_m_of_loc, positive_nat_Z, <- Eq.
    assert (Hp : 0 < 2 ^ (d - 53)) by (apply Z.pow_pos_nonneg; lia).
    assert (H1 : 2 ^ (d - 1) = 2 ^ 52 * 2 ^ (d - 53)).
    { rewrite <- Z.pow_add_r by lia. f_equal. lia. }
    assert (H2 : 2 ^ d = 2 ^ 53 * 2 ^ (d - 53)).
    { rewrite <- Z.pow_add_r by lia. f_equal. lia. }
    split.
    + apply Z.div_le_lower_bound; lia.
    + apply Z.div_lt_upper_bound; lia.
Qed.

Lemma round_nearest_even_cases (m : Z) (l : location) :
  round_nearest_even m l = m \/ round_nearest_even m l = m + 1.
Proof.
  destruct l as [| []]; cbn [round_nearest_even];
    try destruct (Z.even m); auto.
Qed.

(** Rounding a mantissa of at least 53 bits gives a valid finite
    binary64 of the same sign, or the infinity of that sign. *)
Lemma binary_round_aux_large (s : bool) (p : positive) (e : Z) (l : location) :
  53 <= Zpos (digits2_pos p) ->
  -1074 <= e + Zpos (digits2_pos p) - 53 ->
  binary_round_aux prec emax s (Zpos p) e l = S754_infinity s \/
  exists m' e',
    binary_round_aux prec emax s (Zpos p) e l = S754_finite s m' e' /\
    bounded prec emax m' e' = true /\
    e + Zpos (digits2_pos p) - 53 <= e'.
Proof.
  intros Hd He. unfold binary_round_aux.
  destruct (shr_fexp_large p e l Hd He) as (mrs1 & -> & Hm1).
  set (e1 := e + Zpos (digits2_pos p) - 53) in *.
  destruct (round_nearest_even_cases (shr_m mrs1) (loc_of_shr_record mrs1))
    as [Hr | Hr]; rewrite Hr;
    match goal with
    | |- context [shr_fexp _ _ ?m2 _ _] =>
        destruct m2 as [| p2 | p2] eqn:E2; try lia
    end;
    assert (Hd2 : 53 <= Zpos (digits2_pos p2))
      by (apply (digits2_pos_ge p2 52); lia);
    (destruct (shr_fexp_large p2 e1 loc_Exact Hd2 ltac:(lia))
       as (mrs2 & -> & Hm2));
    (destruct (shr_m mrs2) as [| m3 | m3] eqn:E3; try lia);
    (destruct (e1 + Zpos (digits2_pos p2) - 53 <=? emax - prec) eqn:Hle;
     [right | left; reflexivity]);
    eexists; eexists; (split; [reflexivity |]);
    apply Z.leb_le in Hle;
    unfold bounded, canonical_mantissa, fexp, SpecFloat.emin, prec, emax in *;
    pose proof (digits2_pos_le m3 53 ltac:(lia) ltac:(lia));
    pose proof (digits2_pos_ge m3 52 ltac:(lia) ltac:(lia));
    (split; [| unfold e1; lia]);
    (apply andb_true_iff; split; [apply Z.eqb_eq | apply Z.leb_le]; lia).
Qed.

(** [Number(z)] is a valid binary64: the rounding of [z]. *)
Lemma binary_round_integer (s : bool) (p : positive) :
  binary_round prec emax s p 0 = S754_infinity s \/
  exists m' e',
    binary_round prec emax s p 0 = S754_finite s m' e' /\
    bounded prec emax m' e' = true.
Proof.
  destruct (Z.lt_ge_cases (Zpos p) (2 ^ 53)) as [Hp | Hp].
  - right. rewrite (binary_round_small s p Hp).
    eexists; eexists. split; [reflexivity |].
    exact (normalised_bounded p Hp).
  - pose proof (digits2_pos_ge p 53 Hp ltac:(lia)) as Hd.
    unfold binary_round.
    replace (shl_align p 0 (fexp prec emax (Zpos (digits2_pos p) + 0)))
      with (p, 0).
    + destruct (binary_round_aux_large s p 0 loc_Exact)
        as [H | (m' & e' & H & Hb & _)]; try lia; [left; exact H |].
      right. exists m', e'. split; [exact H | exact Hb].
    + unfold shl_align, fexp, SpecFloat.emin, prec, emax.
      destruct (Z.max (Zpos (digits2_pos p) + 0 - 53) (3 - 1024 - 53) - 0)
        eqn:E; try reflexivity; lia.
Qed.

Lemma Prim2SF_of_Z (z : Z) :
  Prim2SF (of_Z z) = binary_normalize prec emax z 0 false.
Proof.
  unfold of_Z. apply Prim2SF_SF2Prim.
  destruct z as [| p | p]; cbn [binary_normalize]; [reflexivity | |].
  - destruct (binary_round_integer false p) as [-> | (m' & e' & -> & Hb)];
      [reflexivity | exact Hb].
  - destruct (binary_round_integer true p) as [-> | (m' & e' & -> & Hb)];
      [reflexivity | exact Hb].
Qed.

(** [Number(z) === 0] only for [z = 0]. *)
Lemma of_Z_nonzero (z : Z) : z <> 0 -> number_eq (of_Z z) 0 = false.
Proof.
  intros Hz. unfold number_eq.
  rewrite FloatAxioms.eqb_spec, Prim2SF_of_Z.
  replace (Prim2SF 0) with (S754_zero false) by (vm_compute; reflexivity).
  destruct z as [| p | p]; [contradiction | |]; cbn [binary_normalize].
  - destruct (binary_round_integer false p) as [-> | (m' & e' & -> & _)];
      reflexivity.
  - destruct (binary_round_integer true p) as [-> | (m' & e' & -> & _)];
      reflexivity.
Qed.

End Rounding.

(** ** Automatic selection on bigints *)

Section AutoBigint.

Lemma geb_bigints_false (z mz : Z) : geb (Big z) (Big mz) = false <-> z < mz.
Proof.
  destruct (geb (Big z) (Big mz)) eqn:H.
  - apply geb_bigints in H. split; [discriminate | lia].
  - split; [| reflexivity]. intros _.
    destruct (Z.lt_ge_cases z mz) as [Hlt | Hge]; [exact Hlt |].
    apply geb_bigints in Hge. congruence.
Qed.

Ltac visit a mz :=
  rewrite select_unit_cons,
    (select_step_bigint _ mz a ltac:(vm_compute; reflexivity));
  cbn [bind];
  let H := fresh "Hge" in
  destruct (geb (Big _) (Big mz)) eqn:H;
  [apply geb_bigints in H | apply geb_bigints_false in H].

Ltac largest :=
  let b := fresh "b" in
  let Mb := fresh "Mb" in
  let Hin := fresh "Hin" in
  let Hb := fresh "Hb" in
  intros b Mb Hin Hb;
  cbn [In memoryUnits cpuUnits] in Hin;
  repeat (destruct Hin as [Hin | Hin]; [subst b |]);
  try contradiction;
  vm_compute in Hb; try discriminate;
  apply Ok_inj in Hb; subst Mb; lia.

Ltac chosen a mz :=
  cbn [select_unit bind scale_by];
  rewrite bigint_div_nonzero by discriminate;
  cbn [bind Number];
  exists a, mz;
  split; [cbn; intuition |];
  split; [vm_compute; reflexivity |];
  split; [reflexivity |].

(** X8: without a unit argument [scaleBaseUnitMemory] returns for every
    bigint: for a value of at least [1] with the largest unit of
    [memoryUnits] whose multiplier does not exceed it, below [1] with
    the empty unit; the mantissa is the quotient truncated toward
    zero. *)
Theorem scaleBaseUnitMemory_bigint (z : Z) :
  exists a Mz,
    In a memoryUnits /\
    bigint_multiplier a = Ok Mz /\
    scaleBaseUnitMemory (Big z) None =
      Ok {| number := of_Z (Z.quot z Mz); unit := Some a |} /\
    (1 <= z ->
     Mz <= z /\
     forall b Mb,
       In b memoryUnits -> bigint_multiplier b = Ok Mb -> Mb <= z ->
       Mb <= Mz) /\
    (z < 1 -> a = U.Empty).
Proof.
  unfold scaleBaseUnitMemory. cbn [truthy].
  change (descending_from (length memoryUnits) memoryUnits)
    with [U.Ei; U.Pi; U.Ti; U.Gi; U.Mi; U.Ki; U.Empty].
  visit U.Ei (2 ^ 60).
  { chosen U.Ei (2 ^ 60). split; [intros _; split; [lia | largest] | lia]. }
  visit U.Pi (2 ^ 50).
  { chosen U.Pi (2 ^ 50). split; [intros _; split; [lia | largest] | lia]. }
  visit U.Ti (2 ^ 40).
  { chosen U.Ti (2 ^ 40). split; [intros _; split; [lia | largest] | lia]. }
  visit U.Gi (2 ^ 30).
  { chosen U.Gi (2 ^ 30). split; [intros _; split; [lia | largest] | lia]. }
  visit U.Mi (2 ^ 20).
  { chosen U.Mi (2 ^ 20). split; [intros _; split; [lia | largest] | lia]. }
  visit U.Ki (2 ^ 10).
  { chosen U.Ki (2 ^ 10). split; [intros _; split; [lia | largest] | lia]. }
  visit U.Empty 1.
  { chosen U.Empty 1. split; [intros _; split; [lia | largest] | reflexivity]. }
  chosen U.Empty 1. split; [lia | reflexivity].
Qed.


Lemma ltb_bigint_one (z : Z) : ltb (Big z) (Num 1) = (z <? 1).
Proof.
  unfold ltb, compare_numeric, compare_Z_float.
  replace (Prim2SF 1) with (S754_finite false 4503599627370496 (-52))
    by (vm_compute; reflexivity).
  cbn [cond_Zopp Z.leb Z.compare Z.opp].
  destruct (Z.compare_spec (z * 2 ^ 52) 4503599627370496) as [H | H | H];
    destruct (Z.ltb_spec z 1) as [Hz | Hz]; try reflexivity;
    exfalso; assert (2 ^ 52 = 4503599627370496) by reflexivity; lia.
Qed.

Ltac largest_but_kilo :=
  let b := fresh "b" in
  let Mb := fresh "Mb" in
  let Hin := fresh "Hin" in
  let Hk := fresh "Hk" in
  let Hb := fresh "Hb" in
  intros b Mb Hin Hk Hb;
  cbn [In cpuUnits] in Hin;
  repeat (destruct Hin as [Hin | Hin]; [subst b |]);
  try contradiction;
  vm_compute in Hb; try discriminate;
  apply Ok_inj in Hb; subst Mb; lia.

Ltac not_kilo := split; [discriminate |]; split; [lia | largest_but_kilo].

(** X9: without a unit argument [scaleBaseUnitCpu] raises [RangeError]
    on every negative bigint, at the unit [m] whose multiplier
    [0.001] has no bigint; on a bigint of at least [1] it returns the
    largest unit of [cpuUnits] other than [k] whose multiplier does
    not exceed the value, with the quotient truncated toward zero. *)
Theorem scaleBaseUnitCpu_bigint (z : Z) :
  (z < 0 -> scaleBaseUnitCpu (Big z) None = Throw RangeError) /\
  (1 <= z ->
   exists a Mz,
     In a cpuUnits /\
     bigint_multiplier a = Ok Mz /\
     scaleBaseUnitCpu (Big z) None =
       Ok {| number := of_Z (Z.quot z Mz); unit := Some a |} /\
     a <> U.k /\
     Mz <= z /\
     forall b Mb,
       In b cpuUnits -> b <> U.k -> bigint_multiplier b = Ok Mb ->
       Mb <= z -> Mb <= Mz).
Proof.
  split; intros Hz; unfold scaleBaseUnitCpu; cbn [truthy Number];
    rewrite of_Z_nonzero by lia; rewrite ltb_bigint_one.
  - replace (z <? 1) with true by (symmetry; apply Z.ltb_lt; lia).
    change (descending_from 3 cpuUnits) with [U.k; U.m; U.u].
    visit U.k (10 ^ 3).
    { exfalso. assert (0 < 10 ^ 3) by reflexivity. lia. }
    rewrite select_unit_cons.
    assert (Hm : select_step (Big z) U.m = Throw RangeError).
    { unfold select_step.
      replace (BigInt (unitMultiplier U.m)) with (@Throw Z RangeError)
        by (vm_compute; reflexivity).
      reflexivity. }
    rewrite Hm. reflexivity.
  - replace (z <? 1) with false by (symmetry; apply Z.ltb_ge; lia).
    change (descending_from (length cpuUnits) cpuUnits)
      with [U.E; U.P; U.T; U.G; U.M; U.Empty; U.k; U.m; U.u].
    visit U.E (10 ^ 18). { chosen U.E (10 ^ 18). not_kilo. }
    visit U.P (10 ^ 15). { chosen U.P (10 ^ 15). not_kilo. }
    visit U.T (10 ^ 12). { chosen U.T (10 ^ 12). not_kilo. }
    visit U.G (10 ^ 9). { chosen U.G (10 ^ 9). not_kilo. }
    visit U.M (10 ^ 6). { chosen U.M (10 ^ 6). not_kilo. }
    visit U.Empty 1. { chosen U.Empty 1. not_kilo. }
    lia.
Qed.

End AutoBigint.

Lemma scaleBaseUnitCpu_bigint_witness :
  (-5 < 0 /\ scaleBaseUnitCpu (Big (-5)) None = Throw RangeError) /\
  (1 <= 2000 /\
   exists a Mz,
     In a cpuUnits /\
     bigint_multiplier a = Ok Mz /\
     scaleBaseUnitCpu (Big 2000) None =
       Ok {| number := of_Z (Z.quot 2000 Mz); unit := Some a |} /\
     a <> U.k /\
     Mz <= 2000 /\
     forall b Mb,
       In b cpuUnits -> b <> U.k -> bigint_multiplier b = Ok Mb ->
       Mb <= 2000 -> Mb <= Mz).
Proof.
  assert (H1 : -5 < 0) by lia.
  assert (H2 : 1 <= 2000) by lia.
  split.
  - split; [exact H1 |]. exact (proj1 (scaleBaseUnitCpu_bigint (-5)) H1).
  - split; [exact H2 |]. exact (proj2 (scaleBaseUnitCpu_bigint 2000) H2).
Defined.

Lemma scaleBaseUnitMemory_bigint_witness :
  1 <= 5000 /\
  exists a Mz,
    In a memoryUnits /\
    scaleBaseUnitMemory (Big 5000) None =
      Ok {| number := of_Z (Z.quot 5000 Mz); unit := Some a |} /\
    Mz <= 5000.
Proof.
  assert (H : 1 <= 5000) by lia.
  split; [exact H |].
  destruct (scaleBaseUnitMemory_bigint 5000)
    as (a & Mz & Hin & _ & Hs & Hge & _).
  exists a, Mz. split; [exact Hin |]. split; [exact Hs |].
  exact (proj1 (Hge H)).
Defined.

(** ** What the functions raise *)

Section Errors.

Lemma range_only_Ok {A : Type} (a : A) : range_only (Ok a).
Proof. intros e H. discriminate. Qed.

Lemma range_only_bind {A B : Type} (m : result A) (k : A -> result B) :
  range_only m -> (forall a, range_only (k a)) -> range_only (bind m k).
Proof.
  intros Hm Hk e. destruct m as [a | e']; cbn [bind].
  - apply Hk.
  - intros H. apply Hm. congruence.
Qed.

Lemma range_only_NumberToBigInt (x : float) : range_only (NumberToBigInt x).
Proof.
  intros e. unfold NumberToBigInt.
  destruct (Prim2SF x) as [s | s | | s mx ex]; try congruence.
  destruct (0 <=? ex); [discriminate |].
  destruct (Zpos mx mod 2 ^ (- ex) =? 0); congruence.
Qed.

Lemma range_only_BigInt (v : numeric) : range_only (BigInt v).
Proof.
  destruct v as [x | z]; [apply range_only_NumberToBigInt |].
  apply range_only_Ok.
Qed.

Lemma range_only_bigint_div (a b : Z) : range_only (bigint_div a b).
Proof. intros e. unfold bigint_div. destruct (b =? 0); congruence. Qed.

Create HintDb range.

#[local] Hint Resolve range_only_Ok range_only_NumberToBigInt range_only_BigInt
  range_only_bigint_div : range.

Ltac range :=
  repeat (apply range_only_bind; [| intro]); auto with range.

Lemma range_only_base (q : K8sParsedResource) :
  range_only (parsedResourceToBaseUnit q).
Proof.
  unfold parsedResourceToBaseUnit.
  destruct (match unit q with Some a => unitMultiplier a | None => Num 1 end)
    as [c | z]; [| range].
  destruct (number_le (number q * c) MAX_SAFE_INTEGER); range.
Qed.

Lemma range_only_compare (a b : K8sParsedResource) :
  range_only (compareParsedResources a b).
Proof.
  unfold compareParsedResources.
  destruct (unit_eqb (unit a) (unit b)); [range |].
  apply range_only_bind; [apply range_only_base | intros A].
  apply range_only_bind; [apply range_only_base | intros B].
  destruct A, B; range.
Qed.

Lemma range_only_scale_by (v : numeric) (sel : selection) :
  range_only (scale_by v sel).
Proof. destruct sel as [a mult]. unfold scale_by. destruct v, mult; range. Qed.

Lemma range_only_select_step (v : numeric) (a : K8sResourceUnit) :
  range_only (select_step v a).
Proof.
  unfold select_step.
  apply range_only_bind; [| intros [mult n]; apply range_only_Ok].
  destruct v as [x | z]; [destruct (unitMultiplier a) |]; range.
Qed.

Lemma range_only_select_unit (v : numeric) (cands : list K8sResourceUnit)
  (current : selection) :
  range_only (select_unit v cands current).
Proof.
  revert current. induction cands as [| a rest IH]; intros current;
    cbn [select_unit]; [range |].
  apply range_only_bind; [apply range_only_select_step |].
  intros [next [|]]; [range | apply IH].
Qed.

Lemma range_only_explicit (v : numeric) (a : K8sResourceUnit) :
  range_only (explicit_multiplier v a).
Proof. unfold explicit_multiplier. destruct (is_bigint v); range. Qed.

Lemma range_only_scale_cpu (v : numeric) (a : option K8sResourceUnit) :
  range_only (scaleBaseUnitCpu v a).
Proof.
  unfold scaleBaseUnitCpu. destruct (truthy a).
  - apply range_only_bind; [apply range_only_explicit |].
    intros mult. apply range_only_scale_by.
  - destruct (number_eq (Number v) 0); [range |].
    apply range_only_bind; [apply range_only_select_unit |].
    intros sel. apply range_only_scale_by.
Qed.

Lemma range_only_scale_memory (v : numeric) (a : option K8sResourceUnit) :
  range_only (scaleBaseUnitMemory v a).
Proof.
  unfold scaleBaseUnitMemory. destruct (truthy a).
  - apply range_only_bind; [apply range_only_explicit |].
    intros mult. apply range_only_scale_by.
  - apply range_only_bind; [apply range_only_select_unit |].
    intros sel. apply range_only_scale_by.
Qed.

Lemma parseResource_error (s : string) (e : exn) :
  parseResource s = Throw e ->
  e = InvalidResourceString s \/ e = NumberParseError s.
Proof.
  unfold parseResource.
  destruct (reK8sResource s) as [[numberPart unitPart] |].
  - destruct (negb (isFinite (parseFloat numberPart))); [| discriminate].
    intros H. right. congruence.
  - intros H. left. congruence.
Qed.

End Errors.

(** X10: the functions that work on parsed quantities and base values
    raise nothing but [RangeError]; the parser raises
    [InvalidResourceString] or [NumberParseError], both carrying the
    whole input; the functions on strings raise the parser's error of
    their first failing argument, and a [RangeError] only once every
    argument has parsed. *)
Theorem thrown_errors :
  (forall q, range_only (parsedResourceToBaseUnit q)) /\
  (forall a b, range_only (compareParsedResources a b)) /\
  (forall v a,
      range_only (scaleBaseUnitCpu v a) /\
      range_only (scaleBaseUnitMemory v a) /\
      range_only (formatBaseUnitCpu v a) /\
      range_only (formatBaseUnitMemory v a)) /\
  (forall s e,
      parseResource s = Throw e ->
      e = InvalidResourceString s \/ e = NumberParseError s) /\
  (forall s e,
      resourceStringToBaseUnit s = Throw e ->
      parseResource s = Throw e \/
      (returns (parseResource s) /\ e = RangeError)) /\
  (forall s t e,
      compareResourceStrings s t = Throw e ->
      parseResource s = Throw e \/
      (returns (parseResource s) /\ parseResource t = Throw e) \/
      (returns (parseResource s) /\ returns (parseResource t) /\
       e = RangeError)).
Proof.
  split; [exact range_only_base |].
  split; [exact range_only_compare |].
  split.
  { intros v a.
    split; [apply range_only_scale_cpu |].
    split; [apply range_only_scale_memory |].
    unfold formatBaseUnitCpu, formatBaseUnitMemory.
    split; (apply range_only_bind;
            [first [apply range_only_scale_cpu | apply range_only_scale_memory]
            | intros r; apply range_only_Ok]). }
  split; [exact parseResource_error |].
  split.
  - intros s e. unfold resourceStringToBaseUnit.
    destruct (parseResource s) as [q | e'] eqn:Hs; cbn [bind].
    + intros H. right. split; [exists q; reflexivity |].
      exact (range_only_base q e H).
    + intros H. left. congruence.
  - intros s t e. unfold compareResourceStrings.
    destruct (parseResource s) as [qs | es] eqn:Hs; cbn [bind];
      [| intros H; left; congruence].
    destruct (parseResource t) as [qt | et] eqn:Ht; cbn [bind].
    + intros H. right. right.
      split; [exists qs; reflexivity |].
      split; [exists qt; reflexivity |].
      exact (range_only_compare qs qt e H).
    + intros H. right. left. split; [exists qs; reflexivity | congruence].
Qed.

Lemma thrown_errors_witness :
  resourceStringToBaseUnit "0.57E" = Throw RangeError /\
  (parseResource "0.57E" = Throw RangeError \/
   (returns (parseResource "0.57E") /\ RangeError = RangeError)).
Proof.
  assert (H : resourceStringToBaseUnit "0.57E" = Throw RangeError)
    by (vm_compute; reflexivity).
  split; [exact H |].
  exact (proj1 (proj2 (proj2 (proj2 (proj2 thrown_errors))))
           "0.57E" RangeError H).
Defined.

(** ** The comparator against exact values *)

Section ComparatorValues.

Lemma Qcompare_same_den (a b : Z) (d : positive) :
  Qcompare (Qmake a d) (Qmake b d) = (a ?= b).
Proof.
  unfold Qcompare. cbn [Qnum Qden].
  symmetry. apply Zmult_compare_compat_r. lia.
Qed.

Lemma compare_numbers_sign (x y : float) (p q : Q) :
  value (Num x) = Some p -> value (Num y) = Some q ->
  compare_numbers x y = sign_of (Qcompare p q).
Proof.
  intros Hp Hq.
  rewrite (compare_numbers_rank x y
             (value_is_number x p Hp) (value_is_number y q Hq)).
  rewrite (Qcompare_comp _ _ (value_rank x p Hp) _ _ (value_rank y q Hq)).
  rewrite Qcompare_same_den. reflexivity.
Qed.

Lemma compare_bases_sign (A B : numeric) (r : Z) (p q : Q) :
  value A = Some p -> value B = Some q ->
  compare_bases A B = Ok r -> r = sign_of (Qcompare p q).
Proof.
  intros Hp Hq. unfold compare_bases.
  assert (Hbig : forall nA nB,
             BigInt A = Ok nA -> BigInt B = Ok nB ->
             compare_bigints nA nB = sign_of (Qcompare p q)).
  { intros nA nB HA HB.
    rewrite (Qcompare_comp _ _ (BigInt_value A nA p HA Hp)
               _ _ (BigInt_value B nB q HB Hq)).
    rewrite compare_bigints_sign. unfold inject_Z.
    rewrite Qcompare_same_den. reflexivity. }
  destruct A as [x | a], B as [y | b].
  - intros H. apply Ok_inj in H. subst r.
    apply compare_numbers_sign; assumption.
  - destruct (BigInt (Num x)) as [nA |] eqn:HA; cbn [bind]; [| discriminate].
    cbn [BigInt bind]. intros H. apply Ok_inj in H. subst r.
    apply Hbig; reflexivity.
  - cbn [BigInt bind].
    destruct (NumberToBigInt y) as [nB |] eqn:HB; cbn [bind]; [| discriminate].
    intros H. apply Ok_inj in H. subst r.
    apply Hbig; [reflexivity | exact HB].
  - cbn [BigInt bind]. intros H. apply Ok_inj in H. subst r.
    apply Hbig; reflexivity.
Qed.

Lemma unit_eqb_sym (a b : option K8sResourceUnit) :
  unit_eqb a b = unit_eqb b a.
Proof.
  destruct (unit_eqb a b) eqn:Hab, (unit_eqb b a) eqn:Hba; try reflexivity.
  - apply unit_eqb_eq in Hab. subst b.
    assert (H : unit_eqb a a = true) by (apply unit_eqb_eq; reflexivity).
    congruence.
  - apply unit_eqb_eq in Hba. subst b.
    assert (H : unit_eqb a a = true) by (apply unit_eqb_eq; reflexivity).
    congruence.
Qed.

Lemma compare_bases_throws_sym (A B : numeric) (e : exn) :
  compare_bases A B = Throw e -> throws (compare_bases B A).
Proof.
  unfold compare_bases. destruct A as [x | a], B as [y | b];
    cbn [BigInt bind]; try discriminate.
  - destruct (NumberToBigInt x) as [nA |]; cbn [bind]; [discriminate |].
    intros _. eexists. reflexivity.
  - destruct (NumberToBigInt y) as [nB |]; cbn [bind]; [discriminate |].
    intros _. eexists. reflexivity.
Qed.

Lemma compare_throws_sym (a b : K8sParsedResource) (e : exn) :
  compareParsedResources a b = Throw e ->
  unit a <> unit b /\ throws (compareParsedResources b a).
Proof.
  unfold compareParsedResources. rewrite (unit_eqb_sym (unit b) (unit a)).
  destruct (unit_eqb (unit a) (unit b)) eqn:Hu; [discriminate |].
  fold (compare_bases).
  intros H. split.
  { intros Heq. apply unit_eqb_eq in Heq. congruence. }
  change (A <- parsedResourceToBaseUnit a ;;
          B <- parsedResourceToBaseUnit b ;; compare_bases A B = Throw e) in H.
  change (throws (B <- parsedResourceToBaseUnit b ;;
                  A <- parsedResourceToBaseUnit a ;; compare_bases B A)).
  destruct (parsedResourceToBaseUnit a) as [A | ea];
    destruct (parsedResourceToBaseUnit b) as [B | eb];
    cbn [bind] in *; try (eexists; reflexivity).
  eapply compare_bases_throws_sym. exact H.
Qed.

End ComparatorValues.

(** X11: whenever the comparator returns, its result is the sign of the
    exact comparison: of the two mantissas under one unit, of the two
    base values under different units. *)
Theorem compareParsedResources_sign :
  (forall (a b : K8sParsedResource) (p q : Q),
      unit a = unit b ->
      value (Num (number a)) = Some p ->
      value (Num (number b)) = Some q ->
      compareParsedResources a b = Ok (sign_of (Qcompare p q))) /\
  (forall (a b : K8sParsedResource) (A B : numeric) (r : Z) (p q : Q),
      unit a <> unit b ->
      parsedResourceToBaseUnit a = Ok A ->
      parsedResourceToBaseUnit b = Ok B ->
      value A = Some p -> value B = Some q ->
      compareParsedResources a b = Ok r ->
      r = sign_of (Qcompare p q)).
Proof.
  split.
  - intros a b p q Hu Hp Hq.
    rewrite (compareParsedResources_same_unit a b Hu).
    rewrite (compare_numbers_sign _ _ p q Hp Hq). reflexivity.
  - intros a b A B r p q Hu HA HB Hp Hq.
    rewrite (compareParsedResources_bases a b Hu), HA, HB. cbn [bind].
    apply compare_bases_sign; assumption.
Qed.

Lemma compareParsedResources_sign_witness :
  let a := {| number := 1; unit := Some U.Ei |} in
  let b := {| number := 2000; unit := Some U.P |} in
  unit a <> unit b /\
  parsedResourceToBaseUnit a = Ok (Big (2 ^ 60)) /\
  parsedResourceToBaseUnit b = Ok (Big (2 * 10 ^ 18)) /\
  compareParsedResources a b = Ok (-1) /\
  -1 = sign_of (Qcompare (inject_Z (2 ^ 60)) (inject_Z (2 * 10 ^ 18))).
Proof.
  intros a b.
  assert (Hu : unit a <> unit b) by discriminate.
  assert (HA : parsedResourceToBaseUnit a = Ok (Big (2 ^ 60)))
    by (vm_compute; reflexivity).
  assert (HB : parsedResourceToBaseUnit b = Ok (Big (2 * 10 ^ 18)))
    by (vm_compute; reflexivity).
  assert (H : compareParsedResources a b = Ok (-1))
    by (vm_compute; reflexivity).
  split; [exact Hu |]. split; [exact HA |]. split; [exact HB |].
  split; [exact H |].
  exact (proj2 compareParsedResources_sign a b _ _ (-1) _ _
           Hu HA HB eq_refl eq_refl H).
Defined.

(** X12: the comparator never raises on two quantities of one unit; when
    it raises, the error is a [RangeError] and the comparison with the
    arguments exchanged raises it too. *)
Theorem compareParsedResources_failure (a b : K8sParsedResource) (e : exn) :
  compareParsedResources a b = Throw e ->
  e = RangeError /\
  unit a <> unit b /\
  compareParsedResources b a = Throw RangeError.
Proof.
  intros H. split; [exact (range_only_compare a b e H) |].
  destruct (compare_throws_sym a b e H) as [Hu [e' He']].
  split; [exact Hu |].
  rewrite He'. f_equal. exact (range_only_compare b a e' He').
Qed.

Lemma compareParsedResources_failure_witness :
  let a := {| number := 0.5; unit := None |} in
  let b := {| number := 1; unit := Some U.E |} in
  compareParsedResources a b = Throw RangeError /\
  RangeError = RangeError /\
  unit a <> unit b /\
  compareParsedResources b a = Throw RangeError.
Proof.
  intros a b.
  assert (H : compareParsedResources a b = Throw RangeError)
    by (vm_compute; reflexivity).
  split; [exact H |].
  exact (compareParsedResources_failure a b RangeError H).
Defined.

(** ** Whole mantissas and whole multipliers *)

Section ExactProduct.

Lemma integer_valued_rank (x : float) (n : Z) :
  integer_valued x n -> number_rank x = n * 2 ^ 1074.
Proof.
  intros (q & Hq & Hn). pose proof (value_rank x q Hq) as Hr.
  rewrite Hn in Hr. unfold Qeq in Hr. cbn [Qnum Qden inject_Z] in Hr.
  rewrite Pos2Z.inj_pow in Hr. lia.
Qed.

(** A non-zero whole number is a normal binary64. *)
Lemma integer_valued_finite (x : float) (n : Z) (s : bool) (mx : positive)
  (ex : Z) :
  integer_valued x n -> Prim2SF x = S754_finite s mx ex ->
  2 ^ 52 <= Zpos mx < 2 ^ 53 /\ -1074 <= ex <= 971 /\
  Zpos mx * 2 ^ (ex + 1074) = cond_Zopp s n * 2 ^ 1074 /\
  0 < cond_Zopp s n.
Proof.
  intros Hn Hx. pose proof (integer_valued_rank x n Hn) as Hr.
  unfold number_rank in Hr. rewrite Hx in Hr. cbn [rank] in Hr.
  pose proof (Prim2SF_valid x) as Hv. rewrite Hx in Hv.
  cbn [valid_binary] in Hv. apply bounded_inv in Hv as (He & Hm & Hnorm).
  assert (Hp : 0 < 2 ^ (ex + 1074)) by (apply Z.pow_pos_nonneg; lia).
  assert (H1074 : 0 < 2 ^ 1074) by (apply Z.pow_pos_nonneg; lia).
  assert (Hrank : Zpos mx * 2 ^ (ex + 1074) = cond_Zopp s n * 2 ^ 1074).
  { rewrite <- cond_Zopp_mul, <- Hr, cond_Zopp_involutive. reflexivity. }
  assert (Hpos : 0 < cond_Zopp s n) by nia.
  split; [| split; [exact He | split; [exact Hrank | exact Hpos]]].
  split; [| exact Hm].
  destruct (Z.eq_dec ex (-1074)) as [-> | Hne]; [| apply Hnorm; lia].
  exfalso. change (-1074 + 1074) with 0 in Hrank.
  rewrite Z.pow_0_r, Z.mul_1_r in Hrank.
  assert (2 ^ 53 < 2 ^ 1074) by (apply Z.pow_lt_mono_r; lia). nia.
Qed.

Lemma product_mantissa (mx my : positive) (ex ey a b : Z) :
  2 ^ 52 <= Zpos mx -> 2 ^ 52 <= Zpos my ->
  -1074 <= ex -> -1074 <= ey ->
  Zpos mx * 2 ^ (ex + 1074) = a * 2 ^ 1074 ->
  Zpos my * 2 ^ (ey + 1074) = b * 2 ^ 1074 ->
  0 < a * b < 2 ^ 53 ->
  ex + ey <= -52 /\ Zpos (mx * my) = a * b * 2 ^ (- (ex + ey)).
Proof.
  intros Hmx Hmy Hex Hey Ha Hb Hab.
  assert (Hprod : Zpos (mx * my) * 2 ^ (ex + ey + 2148) =
                  a * b * 2 ^ 2148).
  { replace (ex + ey + 2148) with ((ex + 1074) + (ey + 1074)) by lia.
    rewrite (Z.pow_add_r 2 (ex + 1074) (ey + 1074)) by lia.
    change 2148 with (1074 + 1074).
    rewrite (Z.pow_add_r 2 1074 1074) by lia. rewrite Pos2Z.inj_mul.
    transitivity ((Zpos mx * 2 ^ (ex + 1074)) * (Zpos my * 2 ^ (ey + 1074)));
      [ring | rewrite Ha, Hb; ring]. }
  assert (Hlow : 2 ^ 52 * 2 ^ 52 <= Zpos (mx * my)).
  { rewrite Pos2Z.inj_mul. apply Z.mul_le_mono_nonneg; lia. }
  assert (HE : ex + ey <= -52).
  { destruct (Z.le_gt_cases (ex + ey) (-52)) as [H | H]; [exact H |].
    exfalso.
    assert (H1 : 2 ^ 2097 <= 2 ^ (ex + ey + 2148))
      by (apply Z.pow_le_mono_r; lia).
    assert (H2 : 2 ^ 52 * 2 ^ 52 * 2 ^ 2097 = 2 ^ 53 * 2 ^ 2148)
      by (rewrite <- !Z.pow_add_r by lia; reflexivity).
    assert (H3 : 0 < 2 ^ 2097) by (apply Z.pow_pos_nonneg; lia).
    assert (H4 : 0 < 2 ^ 2148) by (apply Z.pow_pos_nonneg; lia).
    assert (H5 : 2 ^ 52 * 2 ^ 52 * 2 ^ 2097 <=
                 Zpos (mx * my) * 2 ^ (ex + ey + 2148)).
    { apply Z.mul_le_mono_nonneg; lia. }
    rewrite Hprod, H2 in H5.
    apply Z.mul_le_mono_pos_r in H5; [lia | exact H4]. }
  split; [exact HE |].
  assert (Hsplit : 2 ^ 2148 = 2 ^ (- (ex + ey)) * 2 ^ (ex + ey + 2148)).
  { rewrite <- Z.pow_add_r by lia. f_equal. lia. }
  rewrite Hsplit, Z.mul_assoc in Hprod.
  apply Z.mul_reg_r in Hprod; [exact Hprod |].
  apply Z.neq_sym, Z.lt_neq, Z.pow_pos_nonneg; lia.
Qed.

(** Rounding is exact on a mantissa that carries an integer below
    [2^53] with enough trailing zero bits. *)
Lemma binary_round_aux_integer (s : bool) (P N : positive) (E : Z) :
  Zpos N < 2 ^ 53 -> E <= -52 ->
  Zpos P = Zpos N * 2 ^ (- E) ->
  let k := Z.to_nat (53 - Zpos (digits2_pos N)) in
  binary_round_aux prec emax s (Zpos P) E loc_Exact =
  S754_finite s (Nat.iter k xO N) (- Z.of_nat k).
Proof.
  intros HN HE HP k.
  pose proof (digits2_pos_le N 53 HN ltac:(lia)) as Hd.
  pose proof (normalised_bounded N HN) as Hb. fold k in Hb.
  assert (Hk : Z.of_nat k = 53 - Zpos (digits2_pos N))
    by (unfold k; rewrite Z2Nat.id; lia).
  set (j := Z.to_nat (- E - Z.of_nat k)).
  assert (Hj : Z.of_nat j = - E - Z.of_nat k)
    by (unfold j; rewrite Z2Nat.id; lia).
  assert (HPj : P = Nat.iter j xO (Nat.iter k xO N)).
  { apply Pos2Z.inj. rewrite !Zpos_doubled, HP, <- Z.mul_assoc.
    rewrite <- Z.pow_add_r by lia. do 2 f_equal. lia. }
  rewrite HPj. replace E with (- Z.of_nat k - Z.of_nat j) by lia.
  apply binary_round_aux_exact. exact Hb.
Qed.

Lemma xorb_cond_Zopp (sx sy : bool) (a b : Z) :
  cond_Zopp (xorb sx sy) (cond_Zopp sx a * cond_Zopp sy b) = a * b.
Proof. destruct sx, sy; cbn [xorb cond_Zopp]; ring. Qed.

(** The product of two whole numbers is exact as long as it stays
    below [2^53]. *)
Lemma mul_integer_valued (x c : float) (n k : Z) :
  integer_valued x n -> integer_valued c k ->
  Z.abs (n * k) < 2 ^ 53 ->
  integer_valued (x * c) (n * k).
Proof.
  intros Hx Hc Hnk. unfold integer_valued, value.
  rewrite mul_spec. unfold SF64mul.
  pose proof (integer_valued_rank x n Hx) as Rx.
  pose proof (integer_valued_rank c k Hc) as Rc.
  assert (H1074 : 0 < 2 ^ 1074) by (apply Z.pow_pos_nonneg; lia).
  pose proof Hx as (qx & Vx & _). pose proof Hc as (qc & Vc & _).
  unfold value in Vx, Vc. unfold number_rank in Rx, Rc.
  destruct (Prim2SF x) as [sx | sx | | sx mx ex] eqn:Ex;
    try discriminate;
    destruct (Prim2SF c) as [sy | sy | | sy my ey] eqn:Ec;
    try discriminate; cbn [SFmul SF2Q].
  - cbn [rank] in Rx. assert (n = 0) by lia. subst n.
    eexists. split; [reflexivity | reflexivity].
  - cbn [rank] in Rx. assert (n = 0) by lia. subst n.
    eexists. split; [reflexivity | reflexivity].
  - cbn [rank] in Rc. assert (k = 0) by lia. subst k.
    eexists. split; [reflexivity |]. rewrite Z.mul_0_r. reflexivity.
  - destruct (integer_valued_finite x n sx mx ex Hx Ex)
      as (Hmx & Hex & Hrx & Hpx).
    destruct (integer_valued_finite c k sy my ey Hc Ec)
      as (Hmy & Hey & Hry & Hpy).
    set (a := cond_Zopp sx n) in *. set (b := cond_Zopp sy k) in *.
    assert (Hab : a * b = Z.abs (n * k)).
    { unfold a, b. destruct sx, sy; cbn [cond_Zopp] in *; nia. }
    assert (Hpos : 0 < a * b) by nia.
    destruct (product_mantissa mx my ex ey a b) as [HE HP]; try lia.
    destruct (a * b) as [| N | N] eqn:EN; try lia.
    rewrite (binary_round_aux_integer (xorb sx sy) (mx * my) N (ex + ey))
      by (try exact HP; lia).
    set (j := Z.to_nat (53 - Zpos (digits2_pos N))).
    assert (Hsign : cond_Zopp (xorb sx sy) (Zpos N) = n * k).
    { rewrite <- EN. unfold a, b. apply xorb_cond_Zopp. }
    cbn [SF2Q]. eexists. split; [reflexivity |].
    rewrite Zpos_doubled.
    assert (H2 : 0 < 2 ^ Z.of_nat j) by (apply Z.pow_pos_nonneg; lia).
    destruct (0 <=? - Z.of_nat j) eqn:Hs.
    + apply Z.leb_le in Hs. assert (Hj : Z.of_nat j = 0) by lia.
      rewrite Hj. cbn [Z.opp Z.pow]. rewrite !Z.mul_1_r, Hsign. reflexivity.
    + rewrite Z.opp_involutive. unfold Qeq. cbn [Qnum Qden inject_Z].
      rewrite Z2Pos.id by lia. rewrite cond_Zopp_mul, Hsign. ring.
Qed.

Lemma number_le_integers (y : float) (n : Z) :
  integer_valued y n -> n <= 2 ^ 53 - 1 ->
  number_le y MAX_SAFE_INTEGER = true.
Proof.
  intros Hy Hn. pose proof (integer_valued_rank y n Hy) as Ry.
  destruct Hy as (q & Hq & _).
  pose proof (value_is_number y q Hq) as Ny.
  unfold number_le. rewrite leb_spec. unfold SFleb.
  rewrite SFcompare_rank;
    [| apply Prim2SF_valid | apply Prim2SF_valid | exact Ny
     | vm_compute; discriminate].
  fold (number_rank y). rewrite Ry.
  replace (rank (Prim2SF MAX_SAFE_INTEGER)) with ((2 ^ 53 - 1) * 2 ^ 1074)
    by (vm_compute; reflexivity).
  assert (H1074 : 0 < 2 ^ 1074) by (apply Z.pow_pos_nonneg; lia).
  destruct (Z.compare_spec (n * 2 ^ 1074) ((2 ^ 53 - 1) * 2 ^ 1074));
    try reflexivity.
  exfalso. nia.
Qed.

(** Below [Number.MAX_SAFE_INTEGER] the base value is the floating
    product. *)
Lemma safe_product_base (x c : float) (a : option K8sResourceUnit) :
  multiplier_of a = Num c ->
  number_le (x * c) MAX_SAFE_INTEGER = true ->
  parsedResourceToBaseUnit {| number := x; unit := a |} = Ok (Num (x * c)).
Proof.
  intros Ha Hle. unfold parsedResourceToBaseUnit. cbn [unit number].
  fold (multiplier_of a). rewrite Ha, Hle. reflexivity.
Qed.

End ExactProduct.

(** X13: a whole mantissa under a unit with a whole number multiplier
    (or under no unit) has the exact product as its base value, a
    number, as long as the product does not exceed
    [Number.MAX_SAFE_INTEGER] in magnitude. *)
Theorem parsedResourceToBaseUnit_exact (x c : float)
  (a : option K8sResourceUnit) (n k : Z) :
  multiplier_of a = Num c ->
  integer_valued x n -> integer_valued c k ->
  Z.abs (n * k) <= 2 ^ 53 - 1 ->
  exists y,
    parsedResourceToBaseUnit {| number := x; unit := a |} = Ok (Num y) /\
    integer_valued y (n * k).
Proof.
  intros Ha Hx Hc Hnk.
  assert (Hy : integer_valued (x * c) (n * k))
    by (apply mul_integer_valued; [exact Hx | exact Hc | lia]).
  exists (x * c)%float. split; [| exact Hy].
  apply safe_product_base; [exact Ha |].
  apply (number_le_integers (x * c) (n * k) Hy). lia.
Qed.

Lemma parsedResourceToBaseUnit_exact_witness :
  multiplier_of (Some U.Mi) = Num 1048576 /\
  integer_valued 128 128 /\ integer_valued 1048576 1048576 /\
  Z.abs (128 * 1048576) <= 2 ^ 53 - 1 /\
  exists y,
    parsedResourceToBaseUnit {| number := 128; unit := Some U.Mi |} =
      Ok (Num y) /\
    integer_valued y (128 * 1048576).
Proof.
  assert (Ha : multiplier_of (Some U.Mi) = Num 1048576) by reflexivity.
  assert (Hx : integer_valued 128 128).
  { eexists. split; [vm_compute; reflexivity | reflexivity]. }
  assert (Hc : integer_valued 1048576 1048576).
  { eexists. split; [vm_compute; reflexivity | reflexivity]. }
  assert (Hnk : Z.abs (128 * 1048576) <= 2 ^ 53 - 1)
    by (vm_compute; discriminate).
  split; [exact Ha |]. split; [exact Hx |]. split; [exact Hc |].
  split; [exact Hnk |].
  exact (parsedResourceToBaseUnit_exact 128 1048576 (Some U.Mi)
           128 1048576 Ha Hx Hc Hnk).
Defined.

(** ** The unit of a scaled value *)

Section SelectedUnit.

Lemma select_step_unit (v : numeric) (a : K8sResourceUnit)
  (next : selection) (break : bool) :
  select_step v a = Ok (next, break) -> fst next = Some a.
Proof.
  unfold select_step.
  match goal with
  | |- bind ?c _ = _ -> _ => destruct c as [[mult n] |]; cbn [bind]
  end; [| discriminate].
  intros H. apply Ok_inj in H. inversion H. reflexivity.
Qed.

Lemma select_unit_listed (v : numeric) (cands : list K8sResourceUnit)
  (current sel : selection) :
  cands <> [] -> select_unit v cands current = Ok sel ->
  exists a, In a cands /\ fst sel = Some a.
Proof.
  revert current. induction cands as [| a rest IH]; intros current Hne;
    [contradiction |].
  rewrite select_unit_cons.
  destruct (select_step v a) as [[next break] |] eqn:Hstep; cbn [bind];
    [| discriminate].
  apply select_step_unit in Hstep.
  destruct break.
  - intros H. apply Ok_inj in H. subst sel.
    exists a. split; [left; reflexivity | exact Hstep].
  - destruct rest as [| b rest].
    + cbn [select_unit]. intros H. apply Ok_inj in H. subst sel.
      exists a. split; [left; reflexivity | exact Hstep].
    + intros H.
      destruct (IH next ltac:(discriminate) H) as (a' & Hin & Ha').
      exists a'. split; [right; exact Hin | exact Ha'].
Qed.

Lemma scale_explicit_unit (v : numeric) (a : K8sResourceUnit)
  (r : K8sParsedResource) :
  a <> U.Empty -> scaleBaseUnitCpu v (Some a) = Ok r -> unit r = Some a.
Proof.
  intros Ha. rewrite (proj1 (scale_explicit v a Ha)).
  destruct (explicit_multiplier v a) as [mult |]; cbn [bind]; [| discriminate].
  intros H. apply scale_by_unit in H. exact H.
Qed.

End SelectedUnit.

(** X14: the unit of a scaled value.  With a unit argument other than
    the empty string both scale functions return that unit.  Without
    one, [scaleBaseUnitCpu] returns no unit exactly on a zero base
    value and otherwise a unit of [cpuUnits] other than [k];
    [scaleBaseUnitMemory] always returns a unit of [memoryUnits]. *)
Theorem scaled_unit (v : numeric) (r : K8sParsedResource) :
  (forall a, a <> U.Empty ->
     (scaleBaseUnitCpu v (Some a) = Ok r -> unit r = Some a) /\
     (scaleBaseUnitMemory v (Some a) = Ok r -> unit r = Some a)) /\
  (scaleBaseUnitCpu v None = Ok r ->
   (number_eq (Number v) 0 = true /\ unit r = None) \/
   (number_eq (Number v) 0 = false /\
    exists a, In a cpuUnits /\ a <> U.k /\ unit r = Some a)) /\
  (scaleBaseUnitMemory v None = Ok r ->
   exists a, In a memoryUnits /\ unit r = Some a).
Proof.
  split; [| split].
  - intros a Ha. split.
    + apply scale_explicit_unit. exact Ha.
    + rewrite (proj2 (scale_explicit v a Ha)).
      apply scale_explicit_unit. exact Ha.
  - intros H. pose proof (scaleBaseUnitCpu_never_kilo v r H) as Hk.
    unfold scaleBaseUnitCpu in H. cbn [truthy] in H.
    destruct (number_eq (Number v) 0).
    + left. apply Ok_inj in H. subst r. split; reflexivity.
    + right. split; [reflexivity |].
      match type of H with
      | bind (select_unit _ ?cands _) _ = _ =>
          destruct (select_unit v cands (None, Num 1)) as [sel |] eqn:Hs;
          cbn [bind] in H; [| discriminate];
          assert (Hin : exists a, In a cands /\ fst sel = Some a)
      end.
      { eapply select_unit_listed; [| exact Hs].
        destruct (ltb v (Num 1)); discriminate. }
      destruct Hin as (a & Hin & Ha).
      apply scale_by_unit in H. rewrite Ha in H.
      exists a. split; [| split; [congruence | exact H]].
      destruct (ltb v (Num 1)); cbn in Hin; cbn; intuition.
  - intros H. unfold scaleBaseUnitMemory in H. cbn [truthy] in H.
    match type of H with
    | bind (select_unit _ ?cands _) _ = _ =>
        destruct (select_unit v cands (None, Num 1)) as [sel |] eqn:Hs;
        cbn [bind] in H; [| discriminate];
        assert (Hin : exists a, In a cands /\ fst sel = Some a)
    end.
    { eapply select_unit_listed; [| exact Hs]. discriminate. }
    destruct Hin as (a & Hin & Ha).
    apply scale_by_unit in H. rewrite Ha in H.
    exists a. split; [| exact H].
    cbn in Hin; cbn; intuition.
Qed.

Lemma scaled_unit_witness :
  scaleBaseUnitCpu (Num 2000) None =
    Ok {| number := 2000; unit := Some U.Empty |} /\
  ((number_eq (Number (Num 2000)) 0 = true /\
    unit {| number := 2000; unit := Some U.Empty |} = None) \/
   (number_eq (Number (Num 2000)) 0 = false /\
    exists a,
      In a cpuUnits /\ a <> U.k /\
      unit {| number := 2000; unit := Some U.Empty |} = Some a)).
Proof.
  assert (H : scaleBaseUnitCpu (Num 2000) None =
              Ok {| number := 2000; unit := Some U.Empty |})
    by (vm_compute; reflexivity).
  split; [exact H |].
  exact (proj1 (proj2 (scaled_unit (Num 2000) _)) H).
Defined.

(** X15: across three quantities of pairwise different units, whose
    base values are finite, the comparator is transitive wherever it
    returns: every result is the sign of the exact comparison of the
    base values. *)
Theorem compareParsedResources_transitive_across_units
  (a b c : K8sParsedResource) (A B C : numeric) (p q t : Q) (r1 r2 r3 : Z) :
  unit a <> unit b -> unit b <> unit c -> unit a <> unit c ->
  parsedResourceToBaseUnit a = Ok A -> value A = Some p ->
  parsedResourceToBaseUnit b = Ok B -> value B = Some q ->
  parsedResourceToBaseUnit c = Ok C -> value C = Some t ->
  compareParsedResources a b = Ok r1 ->
  compareParsedResources b c = Ok r2 ->
  compareParsedResources a c = Ok r3 ->
  r1 <= 0 -> r2 <= 0 -> r3 <= 0.
Proof.
  intros Hab Hbc Hac HA Hp HB Hq HC Ht H1 H2 H3.
  rewrite (compareParsedResources_bases a b Hab), HA, HB in H1.
  rewrite (compareParsedResources_bases b c Hbc), HB, HC in H2.
  rewrite (compareParsedResources_bases a c Hac), HA, HC in H3.
  cbn [bind] in H1, H2, H3.
  apply (compare_bases_sign A B r1 p q Hp Hq) in H1.
  apply (compare_bases_sign B C r2 q t Hq Ht) in H2.
  apply (compare_bases_sign A C r3 p t Hp Ht) in H3.
  subst r1 r2 r3. intros L1 L2.
  assert (Hpq : Qle p q).
  { destruct (Qcompare p q) eqn:E; cbn [sign_of] in L1; try lia.
    - apply Qeq_alt in E. rewrite E. apply Qle_refl.
    - apply Qlt_alt in E. apply Qlt_le_weak. exact E. }
  assert (Hqt : Qle q t).
  { destruct (Qcompare q t) eqn:E; cbn [sign_of] in L2; try lia.
    - apply Qeq_alt in E. rewrite E. apply Qle_refl.
    - apply Qlt_alt in E. apply Qlt_le_weak. exact E. }
  pose proof (Qle_trans _ _ _ Hpq Hqt) as Hpt.
  destruct (Qcompare p t) eqn:E; cbn [sign_of]; try lia.
  apply Qgt_alt in E. exfalso. apply (Qlt_not_le _ _ E). exact Hpt.
Qed.

Lemma compareParsedResources_transitive_across_units_witness :
  let a := {| number := 1; unit := Some U.M |} in
  let b := {| number := 1; unit := Some U.Mi |} in
  let c := {| number := 1; unit := Some U.G |} in
  compareParsedResources a b = Ok (-1) /\
  compareParsedResources b c = Ok (-1) /\
  compareParsedResources a c = Ok (-1) /\
  -1 <= 0.
Proof.
  intros a b c.
  assert (H1 : compareParsedResources a b = Ok (-1))
    by (vm_compute; reflexivity).
  assert (H2 : compareParsedResources b c = Ok (-1))
    by (vm_compute; reflexivity).
  assert (H3 : compareParsedResources a c = Ok (-1))
    by (vm_compute; reflexivity).
  split; [exact H1 |]. split; [exact H2 |]. split; [exact H3 |].
  refine (compareParsedResources_transitive_across_units a b c
            (Num 1000000) (Num 1048576) (Num 1000000000)
            _ _ _ (-1) (-1) (-1) _ _ _ _ _ _ _ _ _ H1 H2 H3 _ _);
    try discriminate; try (vm_compute; reflexivity); lia.
Defined.

(** ** Whole mantissas beyond the safe range *)

Section ExactBigint.

Lemma positive_whole_number (x : float) (n : Z) :
  integer_valued x n -> 0 < n ->
  exists mx ex,
    Prim2SF x = S754_finite false mx ex /\
    2 ^ 52 <= Zpos mx < 2 ^ 53 /\ -1074 <= ex <= 971 /\
    Zpos mx * 2 ^ (ex + 1074) = n * 2 ^ 1074.
Proof.
  intros Hx Hn. pose proof (integer_valued_rank x n Hx) as Hr.
  assert (H1074 : 0 < 2 ^ 1074) by (apply Z.pow_pos_nonneg; lia).
  pose proof Hx as (q & Hq & _). unfold value in Hq.
  unfold number_rank in Hr.
  destruct (Prim2SF x) as [s | s | | s mx ex] eqn:Ex; try discriminate.
  - cbn [rank] in Hr. nia.
  - destruct (integer_valued_finite x n s mx ex Hx Ex)
      as (Hmx & Hex & Hrx & Hpx).
    destruct s; cbn [cond_Zopp] in *; [lia |].
    exists mx, ex. auto.
Qed.

(** The product of two positive whole numbers, when it reaches
    [2^53], exceeds [Number.MAX_SAFE_INTEGER] after rounding too. *)
Lemma mul_integer_large (x c : float) (n k : Z) :
  integer_valued x n -> integer_valued c k ->
  0 < n -> 0 < k -> 2 ^ 53 <= n * k ->
  number_le (x * c) MAX_SAFE_INTEGER = false.
Proof.
  intros Hx Hc Hn Hk Hnk.
  destruct (positive_whole_number x n Hx Hn)
    as (mx & ex & Ex & Hmx & Hex & Hrx).
  destruct (positive_whole_number c k Hc Hk)
    as (my & ey & Ec & Hmy & Hey & Hry).
  unfold number_le. rewrite leb_spec, mul_spec, Ex, Ec.
  unfold SF64mul. cbn [SFmul xorb].
  replace (Prim2SF MAX_SAFE_INTEGER)
    with (S754_finite false 9007199254740991 0) by (vm_compute; reflexivity).
  set (P := (mx * my)%positive).
  assert (Hprod : Zpos P * 2 ^ (ex + ey + 2148) = n * k * 2 ^ 2148).
  { replace (ex + ey + 2148) with ((ex + 1074) + (ey + 1074)) by lia.
    rewrite (Z.pow_add_r 2 (ex + 1074) (ey + 1074)) by lia.
    change 2148 with (1074 + 1074).
    rewrite (Z.pow_add_r 2 1074 1074) by lia.
    unfold P. rewrite Pos2Z.inj_mul.
    transitivity ((Zpos mx * 2 ^ (ex + 1074)) * (Zpos my * 2 ^ (ey + 1074)));
      [ring | rewrite Hrx, Hry; ring]. }
  assert (Hlow : 2 ^ 104 <= Zpos P).
  { unfold P. rewrite Pos2Z.inj_mul. change (2 ^ 104) with (2 ^ 52 * 2 ^ 52).
    apply Z.mul_le_mono_nonneg; lia. }
  pose proof (digits2_pos_ge P 104 Hlow ltac:(lia)) as Hd.
  pose proof (digits2_pos_bounds P) as [_ Hhi].
  set (d := Zpos (digits2_pos P)) in *.
  assert (HdE : 54 <= ex + ey + d).
  { destruct (Z.le_gt_cases 54 (ex + ey + d)) as [H | H]; [exact H |].
    exfalso.
    assert (H0 : 0 < 2 ^ (ex + ey + 2148)) by (apply Z.pow_pos_nonneg; lia).
    assert (H1 : Zpos P * 2 ^ (ex + ey + 2148) <
                 2 ^ d * 2 ^ (ex + ey + 2148))
      by (apply Z.mul_lt_mono_pos_r; lia).
    rewrite <- Z.pow_add_r in H1 by lia.
    assert (H2 : 2 ^ (d + (ex + ey + 2148)) <= 2 ^ (53 + 2148))
      by (apply Z.pow_le_mono_r; lia).
    rewrite (Z.pow_add_r 2 53 2148) in H2 by lia.
    assert (H3 : 0 < 2 ^ 2148) by (apply Z.pow_pos_nonneg; lia).
    assert (H4 : 2 ^ 53 * 2 ^ 2148 <= n * k * 2 ^ 2148)
      by (apply Z.mul_le_mono_nonneg_r; lia).
    lia. }
  destruct (binary_round_aux_large false P (ex + ey) loc_Exact)
    as [-> | (m' & e' & -> & _ & He')]; try (fold d; lia);
    [reflexivity |].
  fold d in He'. unfold SFleb. cbn [SFcompare].
  replace (e' ?= 0) with Gt by (symmetry; apply Z.compare_gt_iff; lia).
  reflexivity.
Qed.

Lemma unit_precision (x : float) :
  getPrecision x = 0 ->
  (x * pow10 (getPrecision x))%float = x /\
  NumberToBigInt (pow10 (getPrecision x)) = Ok 1.
Proof.
  intros ->.
  replace (pow10 0) with 1%float by (vm_compute; reflexivity).
  split; [apply mul_one | vm_compute; reflexivity].
Qed.

(** A whole mantissa that prints without a decimal point, under a
    unit with a bigint multiplier. *)
Lemma bigint_unit_base (x : float) (a : option K8sResourceUnit) (n k : Z) :
  getPrecision x = 0 -> integer_valued x n ->
  multiplier_of a = Big k ->
  parsedResourceToBaseUnit {| number := x; unit := a |} = Ok (Big (n * k)).
Proof.
  intros Hp Hx Hk.
  destruct (unit_precision x Hp) as [Hmul Hdiv].
  pose proof (BigInt_integer_valued x n Hx) as Hbig. cbn [BigInt] in Hbig.
  unfold parsedResourceToBaseUnit. cbn [unit number].
  fold (multiplier_of a). rewrite Hk, Hmul, Hdiv, Hbig. cbn [bind].
  unfold bigint_div. cbn [Z.eqb bind]. rewrite Z.quot_1_r. reflexivity.
Qed.

(** The same under a unit with a whole number multiplier, when the
    product leaves the safe range. *)
Lemma overflow_base (x c : float) (a : option K8sResourceUnit) (n k : Z) :
  getPrecision x = 0 -> integer_valued x n ->
  multiplier_of a = Num c -> integer_valued c k ->
  0 < n -> 0 < k -> 2 ^ 53 <= n * k ->
  parsedResourceToBaseUnit {| number := x; unit := a |} = Ok (Big (n * k)).
Proof.
  intros Hp Hx Hc Hk Hn Hpos Hnk.
  destruct (unit_precision x Hp) as [Hmul Hdiv].
  pose proof (BigInt_integer_valued x n Hx) as Hbig. cbn [BigInt] in Hbig.
  pose proof (BigInt_integer_valued c k Hk) as Hbc. cbn [BigInt] in Hbc.
  unfold parsedResourceToBaseUnit. cbn [unit number].
  fold (multiplier_of a). rewrite Hc.
  rewrite (mul_integer_large x c n k Hx Hk Hn Hpos Hnk).
  rewrite Hmul, Hdiv, Hbig, Hbc. cbn [bind].
  unfold bigint_div. cbn [Z.eqb bind]. rewrite Z.quot_1_r. reflexivity.
Qed.

End ExactBigint.

(** X16: a whole, non-negative mantissa that prints without a decimal
    point, under a unit with a whole multiplier, has the exact product
    as its base value, a bigint, whenever the multiplier is a bigint
    or the product reaches [2^53]. *)
Theorem parsedResourceToBaseUnit_exact_bigint (x : float)
  (a : option K8sResourceUnit) (n k : Z) :
  getPrecision x = 0 ->
  integer_valued x n -> 0 <= n ->
  BigInt (multiplier_of a) = Ok k -> 0 < k ->
  is_bigint (multiplier_of a) = true \/ 2 ^ 53 <= n * k ->
  parsedResourceToBaseUnit {| number := x; unit := a |} = Ok (Big (n * k)).
Proof.
  intros Hp Hx Hn Hk Hpos Hcase.
  destruct (multiplier_of a) as [c | M] eqn:Hm; cbn [BigInt is_bigint] in *.
  - destruct Hcase as [Hcase | Hcase]; [discriminate |].
    assert (Hc : integer_valued c k) by (apply NumberToBigInt_value; exact Hk).
    apply (overflow_base x c a n k Hp Hx Hm Hc); [nia | exact Hpos | exact Hcase].
  - apply Ok_inj in Hk. subst M.
    apply (bigint_unit_base x a n k Hp Hx Hm).
Qed.

Lemma parsedResourceToBaseUnit_exact_bigint_witness :
  getPrecision 9007199254740991 = 0 /\
  integer_valued 9007199254740991 9007199254740991 /\
  0 <= 9007199254740991 /\
  BigInt (multiplier_of (Some U.k)) = Ok 1000 /\ 0 < 1000 /\
  parsedResourceToBaseUnit
    {| number := 9007199254740991; unit := Some U.k |} =
  Ok (Big (9007199254740991 * 1000)).
Proof.
  assert (Hp : getPrecision 9007199254740991 = 0) by (vm_compute; reflexivity).
  assert (Hx : integer_valued 9007199254740991 9007199254740991).
  { eexists. split; [vm_compute; reflexivity | reflexivity]. }
  assert (Hn : 0 <= 9007199254740991) by lia.
  assert (Hk : BigInt (multiplier_of (Some U.k)) = Ok 1000)
    by (vm_compute; reflexivity).
  assert (Hpos : 0 < 1000) by lia.
  assert (Hcase : is_bigint (multiplier_of (Some U.k)) = true \/
                  2 ^ 53 <= 9007199254740991 * 1000)
    by (right; vm_compute; discriminate).
  split; [exact Hp |]. split; [exact Hx |]. split; [exact Hn |].
  split; [exact Hk |]. split; [exact Hpos |].
  exact (parsedResourceToBaseUnit_exact_bigint 9007199254740991 (Some U.k)
           9007199254740991 1000 Hp Hx Hn Hk Hpos Hcase).
Defined.

(** ** The decimal digits of an integer *)

Section DecimalDigits.

Lemma usize_nb_digits (d : Decimal.uint) :
  DecimalPos.Unsigned.usize d = N.of_nat (Decimal.nb_digits d).
Proof.
  induction d; cbn [DecimalPos.Unsigned.usize Decimal.nb_digits];
    rewrite ?IHd, ?Nnat.Nat2N.inj_succ; reflexivity.
Qed.

Lemma of_lu_lt (d : Decimal.uint) :
  (DecimalPos.Unsigned.of_lu d < 10 ^ DecimalPos.Unsigned.usize d)%N.
Proof.
  induction d; cbn [DecimalPos.Unsigned.of_lu DecimalPos.Unsigned.usize];
    rewrite ?N.pow_succ_r'; [cbn; lia | lia ..].
Qed.

Lemma string_of_uint_length (d : Decimal.uint) :
  String.length (NilEmpty.string_of_uint d) = Decimal.nb_digits d.
Proof.
  induction d; cbn [NilEmpty.string_of_uint String.length Decimal.nb_digits];
    rewrite ?IHd; reflexivity.
Qed.

Lemma string_of_uint_digits (d : Decimal.uint) :
  all_digits (NilEmpty.string_of_uint d) = true.
Proof.
  induction d; cbn [NilEmpty.string_of_uint all_digits];
    rewrite ?IHd; reflexivity.
Qed.

(** The decimal numeral of a positive number has no leading zero:
    its length is the number of decimal digits. *)
Lemma to_uint_bounds (p : positive) :
  exists n : nat,
    Decimal.nb_digits (Pos.to_uint p) = S n /\
    (10 ^ N.of_nat n <= Npos p < 10 ^ N.of_nat (S n))%N.
Proof.
  pose proof (DecimalPos.Unsigned.to_of (Pos.to_uint p)) as Hn.
  pose proof (DecimalPos.Unsigned.of_to p) as Hv.
  rewrite Hv in Hn. cbn [N.to_uint] in Hn.
  rewrite DecimalPos.Unsigned.of_uint_alt in Hv.
  pose proof (DecimalPos.Unsigned.to_uint_nonzero p) as Hz.
  pose proof (of_lu_lt (Decimal.rev (Pos.to_uint p))) as Hup.
  rewrite usize_nb_digits, DecimalFacts.nb_digits_rev, Hv in Hup.
  assert (Hlow : forall (d' : Decimal.uint) (k : N)
                        (hd : Decimal.uint -> Decimal.uint),
             (1 <= k)%N ->
             DecimalPos.Unsigned.of_lu (hd Decimal.Nil) = k ->
             (10 ^ N.of_nat (Decimal.nb_digits d') <=
              DecimalPos.Unsigned.of_lu (Decimal.revapp d' (hd Decimal.Nil)))%N).
  { intros d' k hd Hk Hhd.
    rewrite DecimalPos.Unsigned.of_lu_revapp, Hhd, usize_nb_digits.
    assert (Hp : (0 < 10 ^ N.of_nat (Decimal.nb_digits d'))%N)
      by (apply N.neq_0_lt_0, N.pow_nonzero; discriminate).
    nia. }
  unfold Decimal.rev in Hv.
  destruct (Pos.to_uint p) as [| d | d | d | d | d | d | d | d | d | d] eqn:E.
  - elim (DecimalPos.Unsigned.to_uint_nonnil p). exact E.
  - exfalso. rewrite DecimalFacts.unorm_D0 in Hn.
    destruct d as [| t | t | t | t | t | t | t | t | t | t] eqn:Ed;
      [apply Hz; reflexivity | ..];
      match type of Hn with
      | _ = Decimal.unorm ?t =>
          pose proof (DecimalFacts.nb_digits_unorm t ltac:(discriminate)) as Hl
      end;
      rewrite <- Hn in Hl; cbn [Decimal.nb_digits] in Hl; lia.
  - exists (Decimal.nb_digits d). split; [reflexivity |].
    cbn [Decimal.nb_digits] in Hup. cbn [Decimal.revapp] in Hv.
    pose proof (Hlow d 1%N Decimal.D1 ltac:(lia) eq_refl). lia.
  - exists (Decimal.nb_digits d). split; [reflexivity |].
    cbn [Decimal.nb_digits] in Hup. cbn [Decimal.revapp] in Hv.
    pose proof (Hlow d 2%N Decimal.D2 ltac:(lia) eq_refl). lia.
  - exists (Decimal.nb_digits d). split; [reflexivity |].
    cbn [Decimal.nb_digits] in Hup. cbn [Decimal.revapp] in Hv.
    pose proof (Hlow d 3%N Decimal.D3 ltac:(lia) eq_refl). lia.
  - exists (Decimal.nb_digits d). split; [reflexivity |].
    cbn [Decimal.nb_digits] in Hup. cbn [Decimal.revapp] in Hv.
    pose proof (Hlow d 4%N Decimal.D4 ltac:(lia) eq_refl). lia.
  - exists (Decimal.nb_digits d). split; [reflexivity |].
    cbn [Decimal.nb_digits] in Hup. cbn [Decimal.revapp] in Hv.
    pose proof (Hlow d 5%N Decimal.D5 ltac:(lia) eq_refl). lia.
  - exists (Decimal.nb_digits d). split; [reflexivity |].
    cbn [Decimal.nb_digits] in Hup. cbn [Decimal.revapp] in Hv.
    pose proof (Hlow d 6%N Decimal.D6 ltac:(lia) eq_refl). lia.
  - exists (Decimal.nb_digits d). split; [reflexivity |].
    cbn [Decimal.nb_digits] in Hup. cbn [Decimal.revapp] in Hv.
    pose proof (Hlow d 7%N Decimal.D7 ltac:(lia) eq_refl). lia.
  - exists (Decimal.nb_digits d). split; [reflexivity |].
    cbn [Decimal.nb_digits] in Hup. cbn [Decimal.revapp] in Hv.
    pose proof (Hlow d 8%N Decimal.D8 ltac:(lia) eq_refl). lia.
  - exists (Decimal.nb_digits d). split; [reflexivity |].
    cbn [Decimal.nb_digits] in Hup. cbn [Decimal.revapp] in Hv.
    pose proof (Hlow d 9%N Decimal.D9 ltac:(lia) eq_refl). lia.
Qed.

Lemma append_empty (s : string) : s ++ "" = s.
Proof. induction s as [| c s IH]; cbn [append]; [| rewrite IH]; reflexivity. Qed.

Lemma string_append_assoc (s1 s2 s3 : string) :
  (s1 ++ s2) ++ s3 = s1 ++ s2 ++ s3.
Proof.
  induction s1 as [| c s1 IH]; cbn [append]; [| rewrite IH]; reflexivity.
Qed.

Lemma string_of_uint_revapp (l acc : Decimal.uint) :
  NilEmpty.string_of_uint (Decimal.revapp l acc) =
  NilEmpty.string_of_uint (Decimal.rev l) ++ NilEmpty.string_of_uint acc.
Proof.
  revert acc. unfold Decimal.rev.
  induction l as [| l IH | l IH | l IH | l IH | l IH | l IH | l IH | l IH
                  | l IH | l IH];
    intros acc; cbn [Decimal.revapp]; [reflexivity | ..];
    rewrite IH; symmetry; rewrite IH; cbn [NilEmpty.string_of_uint];
    rewrite string_append_assoc; reflexivity.
Qed.

Lemma string_of_uint_nonnil (d : Decimal.uint) :
  d <> Decimal.Nil -> NilZero.string_of_uint d = NilEmpty.string_of_uint d.
Proof. destruct d; [contradiction | reflexivity ..]. Qed.

(** Ten times a positive number: one more digit [0]. *)
Lemma to_uint_tenfold (p : positive) :
  NilEmpty.string_of_uint (Pos.to_uint (10 * p)) =
  NilEmpty.string_of_uint (Pos.to_uint p) ++ "0".
Proof.
  unfold Pos.to_uint.
  change (Pos.to_little_uint (10 * p))
    with (DecimalPos.Unsigned.to_lu (10 * Npos p)).
  rewrite DecimalPos.Unsigned.to_ldec_tenfold.
  cbn [DecimalPos.Unsigned.to_lu].
  unfold Decimal.rev at 1. cbn [Decimal.revapp].
  rewrite string_of_uint_revapp. reflexivity.
Qed.

(** Reading the digits of a numeral back. *)
Lemma digits_value_of_uint (d : Decimal.uint) (acc : Z) :
  digits_value_from acc (NilEmpty.string_of_uint d) =
  acc * 10 ^ Z.of_nat (Decimal.nb_digits d) +
  Z.of_N (DecimalPos.Unsigned.of_lu (Decimal.rev d)).
Proof.
  revert acc. unfold Decimal.rev.
  induction d as [| d IH | d IH | d IH | d IH | d IH | d IH | d IH | d IH
                  | d IH | d IH];
    intros acc;
    cbn [NilEmpty.string_of_uint digits_value_from Decimal.nb_digits
         Decimal.revapp];
    [cbn; lia | ..];
    rewrite DecimalPos.Unsigned.of_lu_revapp, usize_nb_digits;
    unfold Decimal.rev; rewrite IH; cbn [DecimalPos.Unsigned.of_lu];
    rewrite N.mul_0_r, ?N.add_0_r;
    rewrite ?N2Z.inj_add, ?N2Z.inj_mul, ?N2Z.inj_pow, ?nat_N_Z;
    rewrite Nat2Z.inj_succ, Z.pow_succ_r by lia;
    match goal with
    | |- context [digit_value ?c] =>
        let v := eval vm_compute in (digit_value c) in
        change (digit_value c) with v
    end;
    cbn [Z.of_N]; ring.
Qed.

End DecimalDigits.

(** ** Whole quantities, from the string to the base value *)

Section WholeQuantities.

Lemma digit_value_range (c : ascii) :
  is_digit c = true -> 0 <= digit_value c <= 9.
Proof.
  unfold is_digit, digit_value. intros H.
  apply andb_true_iff in H as [H1 H2].
  apply N.leb_le in H1. apply N.leb_le in H2. lia.
Qed.

Lemma digits_value_from_nonneg (s : string) (acc : Z) :
  all_digits s = true -> 0 <= acc -> 0 <= digits_value_from acc s.
Proof.
  revert acc. induction s as [| c s IH]; intros acc Hs Hacc;
    cbn [digits_value_from]; [exact Hacc |].
  cbn [all_digits] in Hs. apply andb_true_iff in Hs as [Hc Hs].
  pose proof (digit_value_range c Hc). apply IH; [exact Hs | lia].
Qed.

(** [Number(z)] is [z] itself below [2^53]. *)
Lemma of_Z_integer_valued (n : Z) :
  0 <= n < 2 ^ 53 -> integer_valued (of_Z n) n.
Proof.
  intros Hn. apply NumberToBigInt_value.
  destruct n as [| p | p]; [vm_compute; reflexivity | | lia].
  unfold of_Z. cbn [binary_normalize].
  exact (BigInt_round_small false p ltac:(lia)).
Qed.

(** [parseFloat] on a string of digits. *)
Lemma parseFloat_digits (d : string) :
  digits1 d -> parseFloat d = of_Z (digits_value d).
Proof.
  intros [Hne Hd]. unfold parseFloat.
  pose proof (span_digits_complete d "" Hd I) as Hspan.
  rewrite append_empty in Hspan. rewrite Hspan.
  destruct d as [| c d]; [contradiction |].
  rewrite append_empty. cbn [String.length Z.of_nat Z.sub].
  pose proof (digits_value_from_nonneg (String c d) 0 Hd ltac:(lia)) as Hpos.
  fold (digits_value (String c d)) in Hpos.
  unfold of_decimal.
  destruct (digits_value (String c d)) as [| p | p] eqn:Ev; try lia.
  - vm_compute. reflexivity.
  - cbn [Z.leb Z.compare Z.pow]. rewrite Z.mul_1_r. reflexivity.
Qed.

Lemma parseResource_digits (d : string) (a : option K8sResourceUnit) :
  digits1 d -> unit_group a -> digits_value d < 2 ^ 53 ->
  parseResource (d ++ unit_text a) =
    Ok {| number := of_Z (digits_value d); unit := a |} /\
  integer_valued (of_Z (digits_value d)) (digits_value d).
Proof.
  intros Hd Ha Hn.
  pose proof (digits_value_from_nonneg d 0 (proj2 Hd) ltac:(lia)) as Hpos.
  fold (digits_value d) in Hpos.
  pose proof (of_Z_integer_valued (digits_value d) ltac:(lia)) as Hv.
  split; [| exact Hv].
  assert (Hre : reK8sResource (d ++ unit_text a) = Some (d, a)).
  { apply reK8sResource_spec.
    pose proof (resource_string_intro d "" "" a Hd
                  (or_introl eq_refl) (or_introl eq_refl) Ha) as H.
    cbn [append] in H. rewrite append_empty in H. exact H. }
  unfold parseResource. rewrite Hre, (parseFloat_digits d Hd).
  destruct Hv as (q & Hq & _).
  assert (Hfin : isFinite (of_Z (digits_value d)) = true).
  { unfold isFinite. unfold value in Hq.
    destruct (Prim2SF (of_Z (digits_value d))); try discriminate;
      reflexivity. }
  rewrite Hfin. reflexivity.
Qed.

End WholeQuantities.

(** ** Comparing whole quantities *)

Section WholeComparison.

Lemma compare_numbers_integers (x y : float) (n m : Z) :
  integer_valued x n -> integer_valued y m ->
  compare_numbers x y = sign_of (n ?= m).
Proof.
  intros Hx Hy.
  pose proof (integer_valued_rank x n Hx) as Rx.
  pose proof (integer_valued_rank y m Hy) as Ry.
  destruct Hx as (p & Hp & _). destruct Hy as (q & Hq & _).
  rewrite (compare_numbers_rank x y
             (value_is_number x p Hp) (value_is_number y q Hq)).
  rewrite Rx, Ry. f_equal. symmetry. apply Zmult_compare_compat_r.
  apply Z.lt_gt. apply Z.pow_pos_nonneg; lia.
Qed.

End WholeComparison.

Section DigitCount.

Lemma decimal_digits_positive (p : positive) :
  exists n : nat,
    String.length (decimal_digits (Zpos p)) = S n /\
    10 ^ Z.of_nat n <= Zpos p < 10 ^ Z.of_nat (S n).
Proof.
  destruct (to_uint_bounds p) as (n & Hn & Hlo & Hhi).
  exists n. unfold decimal_digits. cbn [Z.to_N N.to_uint]. split.
  - unfold NilZero.string_of_uint.
    destruct (Pos.to_uint p); [discriminate | ..];
      rewrite string_of_uint_length; exact Hn.
  - apply N2Z.inj_le in Hlo. apply N2Z.inj_lt in Hhi.
    rewrite N2Z.inj_pow, nat_N_Z in Hlo, Hhi.
    cbn [Z.of_N] in Hlo, Hhi. split; assumption.
Qed.

Lemma digits10_positive (z : Z) :
  0 < z ->
  1 <= digits10 z /\ 10 ^ (digits10 z - 1) <= z < 10 ^ digits10 z.
Proof.
  intros Hz. destruct z as [| p | p]; try lia.
  destruct (decimal_digits_positive p) as (n & Hn & Hb).
  unfold digits10. rewrite Hn.
  replace (Z.of_nat (S n) - 1) with (Z.of_nat n) by lia.
  split; [lia | exact Hb].
Qed.

Lemma digits10_upper (z j : Z) :
  0 <= z < 10 ^ j -> 1 <= j -> digits10 z <= j.
Proof.
  intros [Hz Hlt] Hj. destruct (Z.eq_dec z 0) as [-> | Hne].
  - replace (digits10 0) with 1 by (vm_compute; reflexivity). exact Hj.
  - destruct (digits10_positive z ltac:(lia)) as (Hd & Hlo & _).
    assert (H : 10 ^ (digits10 z - 1) < 10 ^ j) by lia.
    apply Z.pow_lt_mono_r_iff in H; lia.
Qed.

Lemma digits10_mono (a b : Z) :
  1 <= a <= b -> digits10 a <= digits10 b.
Proof.
  intros [Ha Hab].
  destruct (digits10_positive a ltac:(lia)) as (Hda & Hlo & _).
  destruct (digits10_positive b ltac:(lia)) as (Hdb & _ & Hhi).
  assert (H : 10 ^ (digits10 a - 1) < 10 ^ digits10 b) by lia.
  apply Z.pow_lt_mono_r_iff in H; lia.
Qed.

Lemma decimal_digits_digits (z : Z) : all_digits (decimal_digits z) = true.
Proof.
  unfold decimal_digits, NilZero.string_of_uint.
  destruct (N.to_uint (Z.to_N z)) eqn:E; [reflexivity | ..];
    apply string_of_uint_digits.
Qed.

Lemma all_digits_app (s1 s2 : string) :
  all_digits s1 = true -> all_digits s2 = true ->
  all_digits (s1 ++ s2) = true.
Proof.
  intros H1 H2. induction s1 as [| c s1 IH]; cbn [append all_digits] in *;
    [exact H2 |].
  apply andb_true_iff in H1 as [Hc H1]. rewrite Hc, (IH H1). reflexivity.
Qed.

Lemma zeros_digits (n : nat) : all_digits (zeros n) = true.
Proof.
  induction n as [| n IH]; cbn [zeros all_digits]; [reflexivity |].
  rewrite IH. reflexivity.
Qed.

(** A string of digits holds no decimal point. *)
Lemma index_no_dot (s : string) :
  all_digits s = true -> index 0 "." s = None.
Proof.
  induction s as [| c s IH]; intros H; [reflexivity |].
  cbn [all_digits] in H. apply andb_true_iff in H as [Hc Hs].
  change (index 0 "." (String c s))
    with (if prefix "." (String c s) then Some 0%nat
          else match index 0 "." s with
               | Some n => Some (S n)
               | None => None
               end).
  change (prefix "." (String c s))
    with (match ascii_dec "." c with
          | left _ => prefix "" s
          | right _ => false
          end).
  destruct (ascii_dec "." c) as [<- | Hne].
  - vm_compute in Hc. discriminate.
  - rewrite (IH Hs). reflexivity.
Qed.

Lemma decimal_digits_tenfold (s : Z) :
  1 <= s -> decimal_digits (10 * s) = decimal_digits s ++ "0".
Proof.
  intros Hs. destruct s as [| p | p]; try lia.
  change (10 * Zpos p) with (Zpos (10 * p)).
  unfold decimal_digits. cbn [Z.to_N N.to_uint].
  rewrite !string_of_uint_nonnil
    by apply DecimalPos.Unsigned.to_uint_nonnil.
  apply to_uint_tenfold.
Qed.

Lemma zeros_snoc (t : nat) : zeros t ++ "0" = zeros (S t).
Proof.
  induction t as [| t IH]; [reflexivity |].
  cbn [zeros append] in *. rewrite IH. reflexivity.
Qed.

(** The digits of [s * 10^t]: those of [s], then [t] zeros. *)
Lemma decimal_digits_scaled (s : Z) (t : nat) :
  1 <= s ->
  decimal_digits (s * 10 ^ Z.of_nat t) = decimal_digits s ++ zeros t.
Proof.
  intros Hs. induction t as [| t IH].
  - cbn [Z.of_nat Z.pow zeros]. rewrite Z.mul_1_r, append_empty. reflexivity.
  - rewrite Nat2Z.inj_succ, Z.pow_succ_r by lia.
    replace (s * (10 * 10 ^ Z.of_nat t)) with (10 * (s * 10 ^ Z.of_nat t))
      by ring.
    assert (Hp : 0 < 10 ^ Z.of_nat t) by (apply Z.pow_pos_nonneg; lia).
    rewrite decimal_digits_tenfold by nia.
    rewrite IH, string_append_assoc, zeros_snoc. reflexivity.
Qed.

(** Reading the decimal digits of an integer gives it back. *)
Lemma digits_value_decimal (n : Z) :
  0 <= n -> digits_value (decimal_digits n) = n.
Proof.
  intros Hn. destruct n as [| p | p]; [vm_compute; reflexivity | | lia].
  unfold decimal_digits, digits_value. cbn [Z.to_N N.to_uint].
  rewrite string_of_uint_nonnil
    by apply DecimalPos.Unsigned.to_uint_nonnil.
  rewrite digits_value_of_uint, <- DecimalPos.Unsigned.of_uint_alt.
  rewrite DecimalPos.Unsigned.of_to. reflexivity.
Qed.

Lemma decimal_digits_digits1 (n : Z) : digits1 (decimal_digits n).
Proof.
  split; [| apply decimal_digits_digits].
  destruct n as [| p | p]; try discriminate.
  destruct (decimal_digits_positive p) as (k & Hk & _).
  intros E. rewrite E in Hk. discriminate.
Qed.

End DigitCount.

(** ** [String(x)] on a whole number *)

Section WholeShortest.

Variables (x : float) (num den whole_value : Z).
Hypothesis Hden : 1 <= den.
Hypothesis Hnum : num = whole_value * den.
Hypothesis Hwhole : 1 <= whole_value.
Hypothesis Hsmall : num < 10 ^ 16.
Hypothesis Hx : number_eq (of_Z whole_value) x = true.
Hypothesis Hnz : number_eq 0 x = false.
Hypothesis Hread :
  forall a : Z, 0 < a -> number_eq (of_Z a) x = true -> a = whole_value.

Lemma whole_value_small : whole_value < 10 ^ 16.
Proof. nia. Qed.

Lemma decimal_exponent_whole :
  1 <= decimal_exponent (num, den) <= 16.
Proof.
  unfold decimal_exponent.
  assert (Hle : den <= num) by nia.
  pose proof (digits10_mono den num ltac:(lia)) as Hm.
  destruct (digits10_positive den ltac:(lia)) as (Hd & _).
  pose proof (digits10_upper num 16 ltac:(lia) ltac:(lia)) as Hu.
  set (n0 := digits10 num - digits10 den) in *.
  unfold scale10.
  destruct (0 <=? - n0) eqn:H0.
  - apply Z.leb_le in H0. assert (Hz : n0 = 0) by lia. rewrite Hz.
    cbn [Z.opp Z.pow]. rewrite Z.mul_1_r.
    replace (den <=? num) with true by (symmetry; apply Z.leb_le; lia).
    lia.
  - apply Z.leb_gt in H0.
    match goal with
    | |- context [if ?c then _ else _] => destruct c
    end; lia.
Qed.

Lemma shortest_at_full (n : Z) :
  exists s, shortest_at x (num, den) n n = Some s.
Proof.
  unfold shortest_at, scale10. rewrite Z.sub_diag.
  cbn [Z.leb Z.compare Z.pow]. rewrite Z.mul_1_r, Hnum.
  rewrite Z.div_mul by lia. rewrite Z.mod_mul by lia.
  cbn [Z.eqb negb andb].
  assert (Hlo : number_eq (of_decimal whole_value 0) x = true).
  { unfold of_decimal. destruct whole_value as [| p | p] eqn:E; try lia.
    cbn [Z.leb Z.compare Z.pow]. rewrite Z.mul_1_r. exact Hx. }
  rewrite Hlo. eexists. reflexivity.
Qed.

Lemma reads_back (s t : Z) :
  0 <= t -> number_eq (of_decimal s t) x = true ->
  1 <= s /\ s * 10 ^ t = whole_value.
Proof.
  intros Ht. unfold of_decimal.
  destruct s as [| p | p]; try (rewrite Hnz; discriminate).
  replace (0 <=? t) with true by (symmetry; apply Z.leb_le; lia).
  intros H. split; [lia |]. apply Hread; [| exact H].
  assert (0 < 10 ^ t) by (apply Z.pow_pos_nonneg; lia). nia.
Qed.

(** An accepted candidate reads back as the number: it is the whole
    value itself, without its trailing zeros. *)
Lemma shortest_at_reads (n k s : Z) :
  k <= n -> shortest_at x (num, den) n k = Some s ->
  1 <= s /\ s * 10 ^ (n - k) = whole_value.
Proof.
  intros Hk Hs. apply reads_back; [lia |].
  unfold shortest_at in Hs.
  destruct (scale10 (num, den) (k - n)) as [a b]. cbv zeta in Hs.
  destruct (number_eq (of_decimal (a / b) (n - k)) x) eqn:Hlo;
    destruct (negb (a mod b =? 0) &&
              number_eq (of_decimal (a / b + 1) (n - k)) x) eqn:Hhi;
    try discriminate;
    try (apply andb_true_iff in Hhi as [_ Hhi]);
    repeat match type of Hs with
           | context [match ?c with _ => _ end] => destruct c
           end;
    apply Some_inj in Hs; subst s; assumption.
Qed.

Lemma shortest_from_whole (fuel : nat) (n k : Z) :
  1 <= k <= n -> n < k + Z.of_nat fuel ->
  exists s k',
    k <= k' <= n /\
    shortest_from fuel x (num, den) n k = Some (s, n - k') /\
    shortest_at x (num, den) n k' = Some s.
Proof.
  revert k. induction fuel as [| fuel IH]; intros k Hk Hfuel; [lia |].
  cbn [shortest_from].
  destruct (shortest_at x (num, den) n k) as [s |] eqn:Hs.
  - exists s, k. split; [lia |]. split; [reflexivity | exact Hs].
  - assert (Hne : k <> n).
    { intros ->. destruct (shortest_at_full n) as [s Hs']. congruence. }
    destruct (IH (k + 1) ltac:(lia) ltac:(lia)) as (s & k' & Hk' & Hf & Ha).
    exists s, k'. split; [lia |]. split; assumption.
Qed.

Lemma strip_zeros_spec (fuel : nat) (s t s' t' : Z) :
  0 <= s -> strip_zeros fuel s t = (s', t') ->
  t <= t' /\ 0 <= s' /\ s = s' * 10 ^ (t' - t) /\ (s = 0 -> t' = t).
Proof.
  revert s t. induction fuel as [| fuel IH]; intros s t Hs; cbn [strip_zeros].
  - intros H. inversion H; subst. rewrite Z.sub_diag.
    cbn [Z.pow]. lia.
  - destruct ((s mod 10 =? 0) && negb (s =? 0)) eqn:Hc.
    + apply andb_true_iff in Hc as [Hm Hz]. apply Z.eqb_eq in Hm.
      apply negb_true_iff, Z.eqb_neq in Hz.
      intros H. apply IH in H as (Ht & Hs' & Heq & _);
        [| apply Z.div_pos; lia].
      split; [lia |]. split; [exact Hs' |]. split; [| lia].
      rewrite (Z.div_mod s 10) by lia. rewrite Hm, Z.add_0_r, Heq.
      replace (t' - t) with (Z.succ (t' - (t + 1))) by lia.
      rewrite Z.pow_succ_r by lia. ring.
    + intros H. inversion H; subst. rewrite Z.sub_diag.
      cbn [Z.pow]. lia.
Qed.

(** The shortest digits of a whole number below [10^16] carry a
    non-negative exponent, and print within 17 characters. *)
Lemma shortest_whole (s t : Z) :
  (match shortest_from 17 x (num, den) (decimal_exponent (num, den)) 1 with
   | Some (s, t) => strip_zeros 20 s t
   | None => (0, 0)
   end) = (s, t) ->
  0 <= t /\ 1 <= s /\ s * 10 ^ t = whole_value /\ digits10 s + t <= 17.
Proof.
  pose proof decimal_exponent_whole as HN.
  pose proof whole_value_small as Hw.
  set (n := decimal_exponent (num, den)) in *.
  destruct (shortest_from_whole 17 n 1 ltac:(lia) ltac:(lia))
    as (s0 & k' & Hk' & -> & Hat).
  apply shortest_at_reads in Hat as [Hs0 Hval]; [| lia].
  intros Hstrip.
  apply strip_zeros_spec in Hstrip as (Ht & Hs & Heq & _); [| lia].
  set (t0 := n - k') in *.
  assert (Hp : 0 < 10 ^ t0) by (apply Z.pow_pos_nonneg; lia).
  assert (Hpt : 0 < 10 ^ (t - t0)) by (apply Z.pow_pos_nonneg; lia).
  assert (Hsplit : 10 ^ t = 10 ^ (t - t0) * 10 ^ t0).
  { rewrite <- Z.pow_add_r by lia. f_equal. lia. }
  assert (Hpos : 1 <= s) by nia.
  assert (Hst : s * 10 ^ t = whole_value).
  { rewrite Hsplit, Z.mul_assoc, <- Heq. exact Hval. }
  split; [lia |]. split; [exact Hpos |]. split; [exact Hst |].
  assert (Hpt' : 0 < 10 ^ t) by (apply Z.pow_pos_nonneg; lia).
  assert (Ht16 : t <= 16).
  { destruct (Z.le_gt_cases t 16) as [H | H]; [exact H |]. exfalso.
    assert (H1 : 10 ^ 16 < 10 ^ t) by (apply Z.pow_lt_mono_r; lia).
    nia. }
  assert (Hsplit2 : 10 ^ 16 = 10 ^ (16 - t) * 10 ^ t).
  { rewrite <- Z.pow_add_r by lia. f_equal. lia. }
  assert (Hp16 : 0 < 10 ^ (16 - t)) by (apply Z.pow_pos_nonneg; lia).
  assert (Hlt : s < 10 ^ (17 - t)).
  { replace (17 - t) with (Z.succ (16 - t)) by lia.
    rewrite Z.pow_succ_r by lia. nia. }
  pose proof (digits10_upper s (17 - t) ltac:(lia) ltac:(lia)). lia.
Qed.

End WholeShortest.

Section WholePrecision.

(** Two positive integers with the same [Number], one of them below
    [2^53], are equal. *)
Lemma of_Z_injective (a n : Z) :
  0 < a -> 0 < n < 2 ^ 53 ->
  number_eq (of_Z a) (of_Z n) = true -> a = n.
Proof.
  intros Ha Hn Heq.
  pose proof (of_Z_integer_valued n ltac:(lia)) as Vn.
  destruct (Z.lt_ge_cases a (2 ^ 53)) as [Hlt | Hge].
  - pose proof (of_Z_integer_valued a ltac:(lia)) as Va.
    pose proof (compare_numbers_integers _ _ _ _ Va Vn) as Hc.
    unfold compare_numbers in Hc. rewrite Heq in Hc.
    destruct (Z.compare_spec a n); cbn [sign_of] in Hc; lia.
  - exfalso. destruct a as [| p | p]; try lia.
    destruct n as [| q | q]; try lia.
    unfold number_eq in Heq.
    rewrite FloatAxioms.eqb_spec, !Prim2SF_of_Z in Heq.
    cbn [binary_normalize] in Heq.
    rewrite (binary_round_small false q ltac:(lia)) in Heq.
    pose proof (digits2_pos_ge p 53 Hge ltac:(lia)) as Hd.
    unfold binary_round in Heq.
    replace (shl_align p 0 (fexp prec emax (Zpos (digits2_pos p) + 0)))
      with (p, 0) in Heq.
    + destruct (binary_round_aux_large false p 0 loc_Exact)
        as [H | (m' & e' & H & _ & He')]; try lia;
        rewrite H in Heq; [discriminate |].
      unfold SFeqb in Heq. cbn [SFcompare] in Heq.
      replace (e' ?= - Z.of_nat (Z.to_nat (53 - Zpos (digits2_pos q))))
        with Gt in Heq by (symmetry; apply Z.compare_gt_iff; lia).
      discriminate.
    + unfold shl_align, fexp, SpecFloat.emin, prec, emax.
      destruct (Z.max (Zpos (digits2_pos p) + 0 - 53) (3 - 1024 - 53) - 0)
        eqn:E; try reflexivity; lia.
Qed.

(** The shortest digits of [Number(p)], for a positive [p] below
    [2^53]: the digits of [p] without its trailing zeros. *)
Lemma shortest_decimal_whole (p : positive) :
  Zpos p < 2 ^ 53 ->
  exists m e s t,
    Prim2SF (of_Z (Zpos p)) = S754_finite false m e /\
    shortest_decimal (abs (of_Z (Zpos p))) m e = (s, t) /\
    0 <= t /\ 1 <= s /\ s * 10 ^ t = Zpos p /\ digits10 s + t <= 17.
Proof.
  intros Hp.
  pose proof (normalised_bounded p Hp) as Hb.
  pose proof (binary_round_small false p Hp) as Hr.
  set (k := Z.to_nat (53 - Zpos (digits2_pos p))) in *. cbv zeta in Hb, Hr.
  assert (Ex : Prim2SF (of_Z (Zpos p)) =
               S754_finite false (Nat.iter k xO p) (- Z.of_nat k)).
  { unfold of_Z. cbn [binary_normalize]. rewrite Hr.
    apply Prim2SF_SF2Prim. exact Hb. }
  assert (Eabs : abs (of_Z (Zpos p)) = of_Z (Zpos p)).
  { apply Prim2SF_inj. rewrite abs_spec, Ex. reflexivity. }
  assert (Hnum : is_number (of_Z (Zpos p))).
  { unfold is_number, not_nan. rewrite Ex. discriminate. }
  assert (Hnz : number_eq 0 (of_Z (Zpos p)) = false).
  { unfold number_eq. rewrite FloatAxioms.eqb_spec, Ex.
    replace (Prim2SF 0) with (S754_zero false) by (vm_compute; reflexivity).
    reflexivity. }
  apply bounded_inv in Hb as (_ & Hm & _). rewrite Zpos_doubled in Hm.
  assert (H2k : 0 < 2 ^ Z.of_nat k) by (apply Z.pow_pos_nonneg; lia).
  assert (H16 : 2 ^ 53 < 10 ^ 16) by (vm_compute; reflexivity).
  assert (Hfr : exists den,
             fraction (Nat.iter k xO p) (- Z.of_nat k) = (Zpos p * den, den) /\
             1 <= den /\ Zpos p * den < 10 ^ 16).
  { unfold fraction. rewrite Zpos_doubled.
    destruct (0 <=? - Z.of_nat k) eqn:H0.
    - apply Z.leb_le in H0. assert (Hk : Z.of_nat k = 0) by lia.
      exists 1. rewrite Hk in *. cbn [Z.opp Z.pow] in *.
      rewrite !Z.mul_1_r in *. split; [reflexivity | lia].
    - exists (2 ^ Z.of_nat k). rewrite Z.opp_involutive.
      split; [reflexivity | lia]. }
  destruct Hfr as (den & Hfr & Hden & Hsmall).
  exists (Nat.iter k xO p), (- Z.of_nat k).
  rewrite Eabs. unfold shortest_decimal. rewrite Hfr.
  match goal with
  | |- exists s t, _ /\ ?c = _ /\ _ =>
      destruct c as [s t] eqn:Hst
  end.
  exists s, t. split; [exact Ex |]. split; [reflexivity |].
  apply (shortest_whole (of_Z (Zpos p)) (Zpos p * den) den (Zpos p)
           Hden eq_refl ltac:(lia) Hsmall (number_eq_refl _ Hnum) Hnz
           (fun a Ha => of_Z_injective a (Zpos p) Ha ltac:(lia)) s t Hst).
Qed.

Lemma toString_positive_whole (s t : Z) :
  0 <= t -> digits10 s + t <= 21 ->
  all_digits (toString_positive s t) = true.
Proof.
  intros Ht Hn. unfold toString_positive.
  fold (digits10 s).
  replace (digits10 s <=? digits10 s + t) with true
    by (symmetry; apply Z.leb_le; lia).
  replace (digits10 s + t <=? 21) with true
    by (symmetry; apply Z.leb_le; lia).
  cbn [andb]. apply all_digits_app;
    [apply decimal_digits_digits | apply zeros_digits].
Qed.

(** A whole number below [2^53] prints without a decimal point. *)
Lemma getPrecision_whole (n : Z) :
  0 <= n < 2 ^ 53 -> getPrecision (of_Z n) = 0.
Proof.
  intros Hn. destruct n as [| p | p]; [vm_compute; reflexivity | | lia].
  destruct (shortest_decimal_whole p ltac:(lia))
    as (m & e & s & t & Ex & Hst & Ht & Hs & _ & Hlen).
  unfold getPrecision, String_of_number. rewrite Ex, Hst.
  cbn [append].
  rewrite index_no_dot; [reflexivity |].
  apply toString_positive_whole; lia.
Qed.

(** The formatter prints a whole number below [2^53] as its decimal
    digits. *)
Lemma NumberFormat_whole (n : Z) :
  0 <= n < 2 ^ 53 -> NumberFormat_format (of_Z n) = decimal_digits n.
Proof.
  intros Hn. destruct n as [| p | p]; [vm_compute; reflexivity | | lia].
  destruct (shortest_decimal_whole p ltac:(lia))
    as (m & e & s & t & Ex & Hst & Ht & Hs & Hval & _).
  unfold NumberFormat_format. rewrite Ex, Hst.
  unfold round_to_fraction_digits.
  replace (t <? - (100)) with false by (symmetry; apply Z.ltb_ge; lia).
  cbn [append]. unfold plain_positive.
  replace (s =? 0) with false by (symmetry; apply Z.eqb_neq; lia).
  replace (0 <=? t) with true by (symmetry; apply Z.leb_le; lia).
  rewrite <- Hval.
  replace (10 ^ t) with (10 ^ Z.of_nat (Z.to_nat t))
    by (rewrite Z2Nat.id by lia; reflexivity).
  symmetry. apply decimal_digits_scaled. exact Hs.
Qed.

End WholePrecision.

(** ** Whole quantities: the base value *)

Section WholeBase.

Lemma BigInt_whole_valued (v : numeric) (n : Z) :
  BigInt v = Ok n <-> whole_valued v n.
Proof.
  destruct v as [x | z]; cbn [BigInt]; [apply NumberToBigInt_value |].
  unfold whole_valued, value. split.
  - intros H. apply Ok_inj in H. subst z. eexists. split; reflexivity.
  - intros (q & Hq & He). apply Some_inj in Hq. subst q.
    apply inject_Z_eq in He. subst z. reflexivity.
Qed.

(** A string of digits and a unit with a whole multiplier: what the
    parser returns and the base value of that. *)
Lemma whole_string_base (d : string) (a : option K8sResourceUnit) (k : Z) :
  digits1 d -> unit_group a ->
  whole_valued (multiplier_of a) k -> 0 < k ->
  digits_value d < 2 ^ 53 ->
  exists v,
    parseResource (d ++ unit_text a) =
      Ok {| number := of_Z (digits_value d); unit := a |} /\
    integer_valued (of_Z (digits_value d)) (digits_value d) /\
    parsedResourceToBaseUnit
      {| number := of_Z (digits_value d); unit := a |} = Ok v /\
    whole_valued v (digits_value d * k) /\
    (is_bigint v = true <->
     is_bigint (multiplier_of a) = true \/ 2 ^ 53 <= digits_value d * k).
Proof.
  intros Hd Ha Hk Hpos Hlt.
  pose proof (digits_value_from_nonneg d 0 (proj2 Hd) ltac:(lia)) as Hn.
  fold (digits_value d) in Hn.
  destruct (parseResource_digits d a Hd Ha Hlt) as [Hparse Hv].
  pose proof (getPrecision_whole (digits_value d) ltac:(lia)) as Hp.
  set (n := digits_value d) in *.
  destruct (multiplier_of a) as [c | M] eqn:Hm.
  - destruct (Z.le_gt_cases (n * k) (2 ^ 53 - 1)) as [Hle | Hgt].
    + assert (Hy : integer_valued (of_Z n * c) (n * k))
        by (apply mul_integer_valued; [exact Hv | exact Hk |];
            rewrite Z.abs_eq by nia; lia).
      exists (Num (of_Z n * c)).
      split; [exact Hparse |]. split; [exact Hv |].
      split; [apply safe_product_base;
              [exact Hm | apply (number_le_integers _ _ Hy); exact Hle] |].
      split; [exact Hy |]. cbn [is_bigint].
      split; [discriminate | intros [H | H]; [discriminate | lia]].
    + exists (Big (n * k)).
      split; [exact Hparse |]. split; [exact Hv |].
      split; [apply (overflow_base _ c a n k Hp Hv Hm Hk); [nia | lia | lia] |].
      split; [eexists; split; reflexivity |]. cbn [is_bigint].
      split; [intros _; right; lia | reflexivity].
  - apply BigInt_whole_valued in Hk. cbn [BigInt] in Hk.
    apply Ok_inj in Hk. subst M.
    exists (Big (n * k)).
    split; [exact Hparse |]. split; [exact Hv |].
    split; [apply (bigint_unit_base _ a n k Hp Hv Hm) |].
    split; [eexists; split; reflexivity |]. cbn [is_bigint].
    split; [intros _; left; reflexivity | reflexivity].
Qed.

End WholeBase.

(** X17: a resource string made of decimal digits, of value below
    [2^53], and a unit whose multiplier is a whole number (every unit
    but [u] and [m], or no unit) has the exact product as its base
    value; the base value is a bigint exactly when the multiplier is
    one or the product reaches [2^53]. *)
Theorem resourceStringToBaseUnit_whole (d : string)
  (a : option K8sResourceUnit) (k : Z) :
  digits1 d -> unit_group a ->
  whole_valued (multiplier_of a) k -> 0 < k ->
  digits_value d < 2 ^ 53 ->
  exists v,
    resourceStringToBaseUnit (d ++ unit_text a) = Ok v /\
    whole_valued v (digits_value d * k) /\
    (is_bigint v = true <->
     is_bigint (multiplier_of a) = true \/ 2 ^ 53 <= digits_value d * k).
Proof.
  intros Hd Ha Hk Hpos Hlt.
  destruct (whole_string_base d a k Hd Ha Hk Hpos Hlt)
    as (v & Hparse & _ & Hbase & Hv & Hrep).
  exists v. unfold resourceStringToBaseUnit. rewrite Hparse. cbn [bind].
  split; [exact Hbase |]. split; [exact Hv | exact Hrep].
Qed.

Lemma resourceStringToBaseUnit_whole_witness :
  digits1 "12" /\ unit_group (Some U.Pi) /\
  whole_valued (multiplier_of (Some U.Pi)) (2 ^ 50) /\ 0 < 2 ^ 50 /\
  digits_value "12" < 2 ^ 53 /\
  exists v,
    resourceStringToBaseUnit ("12" ++ unit_text (Some U.Pi)) = Ok v /\
    whole_valued v (digits_value "12" * 2 ^ 50) /\
    (is_bigint v = true <->
     is_bigint (multiplier_of (Some U.Pi)) = true \/
     2 ^ 53 <= digits_value "12" * 2 ^ 50).
Proof.
  assert (Hd : digits1 "12") by (split; [discriminate | reflexivity]).
  assert (Ha : unit_group (Some U.Pi)) by (cbn; intuition).
  assert (Hk : whole_valued (multiplier_of (Some U.Pi)) (2 ^ 50)).
  { eexists. split; [reflexivity | reflexivity]. }
  assert (Hpos : 0 < 2 ^ 50) by reflexivity.
  assert (Hlt : digits_value "12" < 2 ^ 53) by reflexivity.
  split; [exact Hd |]. split; [exact Ha |]. split; [exact Hk |].
  split; [exact Hpos |]. split; [exact Hlt |].
  exact (resourceStringToBaseUnit_whole "12" (Some U.Pi) (2 ^ 50)
           Hd Ha Hk Hpos Hlt).
Defined.

Section WholeBases.

Lemma compare_bases_exact (A B : numeric) (zA zB : Z) :
  whole_valued A zA -> whole_valued B zB ->
  compare_bases A B = Ok (sign_of (zA ?= zB)).
Proof.
  intros HA HB. unfold compare_bases.
  pose proof (proj2 (BigInt_whole_valued A zA) HA) as BA.
  pose proof (proj2 (BigInt_whole_valued B zB) HB) as BB.
  destruct A as [x | a], B as [y | b].
  - rewrite (compare_numbers_integers x y zA zB HA HB). reflexivity.
  - rewrite BA, BB. cbn [bind]. rewrite compare_bigints_sign. reflexivity.
  - rewrite BA, BB. cbn [bind]. rewrite compare_bigints_sign. reflexivity.
  - rewrite BA, BB. cbn [bind]. rewrite compare_bigints_sign. reflexivity.
Qed.

Lemma whole_valued_unique (v : numeric) (k1 k2 : Z) :
  whole_valued v k1 -> whole_valued v k2 -> k1 = k2.
Proof.
  intros H1 H2. apply BigInt_whole_valued in H1. apply BigInt_whole_valued in H2.
  congruence.
Qed.

End WholeBases.

(** X18: two resource strings made of decimal digits, of value below
    [2^53], and of units whose multipliers are whole numbers (every
    unit but [u] and [m], or no unit) are compared by their exact
    values, whatever the representation of the base values. *)
Theorem compareResourceStrings_whole (d1 d2 : string)
  (a1 a2 : option K8sResourceUnit) (k1 k2 : Z) :
  digits1 d1 -> unit_group a1 ->
  whole_valued (multiplier_of a1) k1 -> 0 < k1 ->
  digits_value d1 < 2 ^ 53 ->
  digits1 d2 -> unit_group a2 ->
  whole_valued (multiplier_of a2) k2 -> 0 < k2 ->
  digits_value d2 < 2 ^ 53 ->
  compareResourceStrings (d1 ++ unit_text a1) (d2 ++ unit_text a2) =
    Ok (sign_of (digits_value d1 * k1 ?= digits_value d2 * k2)).
Proof.
  intros Hd1 Ha1 Hk1 Hp1 Hl1 Hd2 Ha2 Hk2 Hp2 Hl2.
  destruct (whole_string_base d1 a1 k1 Hd1 Ha1 Hk1 Hp1 Hl1)
    as (v1 & P1 & V1 & B1 & W1 & _).
  destruct (whole_string_base d2 a2 k2 Hd2 Ha2 Hk2 Hp2 Hl2)
    as (v2 & P2 & V2 & B2 & W2 & _).
  unfold compareResourceStrings. rewrite P1, P2. cbn [bind].
  destruct (unit_eqb a1 a2) eqn:Hu.
  - apply unit_eqb_eq in Hu. subst a2.
    rewrite compareParsedResources_same_unit by reflexivity.
    cbn [number]. rewrite (compare_numbers_integers _ _ _ _ V1 V2).
    rewrite (whole_valued_unique _ k2 k1 Hk2 Hk1).
    do 2 f_equal. apply Zmult_compare_compat_r. lia.
  - assert (Hne : a1 <> a2).
    { intros Heq. apply unit_eqb_eq in Heq. congruence. }
    rewrite compareParsedResources_bases by exact Hne.
    rewrite B1, B2. cbn [bind].
    apply compare_bases_exact; assumption.
Qed.

Lemma compareResourceStrings_whole_witness :
  digits1 "1" /\ unit_group (Some U.Ei) /\
  whole_valued (multiplier_of (Some U.Ei)) (2 ^ 60) /\
  digits1 "1024" /\ unit_group (Some U.Pi) /\
  whole_valued (multiplier_of (Some U.Pi)) (2 ^ 50) /\
  compareResourceStrings ("1" ++ unit_text (Some U.Ei))
    ("1024" ++ unit_text (Some U.Pi)) =
    Ok (sign_of (digits_value "1" * 2 ^ 60 ?= digits_value "1024" * 2 ^ 50)).
Proof.
  assert (Hd1 : digits1 "1") by (split; [discriminate | reflexivity]).
  assert (Ha1 : unit_group (Some U.Ei)) by (cbn; intuition).
  assert (Hk1 : whole_valued (multiplier_of (Some U.Ei)) (2 ^ 60)).
  { eexists. split; [reflexivity | reflexivity]. }
  assert (Hd2 : digits1 "1024") by (split; [discriminate | reflexivity]).
  assert (Ha2 : unit_group (Some U.Pi)) by (cbn; intuition).
  assert (Hk2 : whole_valued (multiplier_of (Some U.Pi)) (2 ^ 50)).
  { eexists. split; [reflexivity | reflexivity]. }
  split; [exact Hd1 |]. split; [exact Ha1 |]. split; [exact Hk1 |].
  split; [exact Hd2 |]. split; [exact Ha2 |]. split; [exact Hk2 |].
  refine (compareResourceStrings_whole "1" "1024" (Some U.Ei) (Some U.Pi)
            (2 ^ 60) (2 ^ 50) Hd1 Ha1 Hk1 _ _ Hd2 Ha2 Hk2 _ _);
    reflexivity.
Defined.

(** ** Formatting and parsing whole quantities *)

(** X19: a quantity with a whole mantissa below [2^53] and a unit of the
    grammar (or none) is printed as its decimal digits followed by the
    unit, and the parser reads the printed string back as the same
    quantity; in the other direction, what the parser returns for a
    string of digits and a unit is printed with the leading zeros
    removed. *)
Theorem format_parse_round_trip (a : option K8sResourceUnit) :
  unit_group a ->
  (forall n : Z,
      0 <= n < 2 ^ 53 ->
      let q := {| number := of_Z n; unit := a |} in
      formatParsedResource q = decimal_digits n ++ unit_text a /\
      parseResource (formatParsedResource q) = Ok q) /\
  (forall d : string,
      digits1 d -> digits_value d < 2 ^ 53 ->
      exists q,
        parseResource (d ++ unit_text a) = Ok q /\
        formatParsedResource q =
          decimal_digits (digits_value d) ++ unit_text a).
Proof.
  intros Ha.
  assert (Hfmt : forall n : Z,
             0 <= n < 2 ^ 53 ->
             formatParsedResource {| number := of_Z n; unit := a |} =
             decimal_digits n ++ unit_text a).
  { intros n Hn. unfold formatParsedResource. cbn [number unit].
    rewrite (NumberFormat_whole n Hn). destruct a; reflexivity. }
  split.
  - intros n Hn q. split; [apply Hfmt; exact Hn |].
    unfold q. rewrite (Hfmt n Hn).
    pose proof (digits_value_decimal n ltac:(lia)) as Hval.
    destruct (parseResource_digits (decimal_digits n) a
                (decimal_digits_digits1 n) Ha ltac:(lia)) as [Hparse _].
    rewrite Hparse, Hval. reflexivity.
  - intros d Hd Hlt.
    pose proof (digits_value_from_nonneg d 0 (proj2 Hd) ltac:(lia)) as Hpos.
    fold (digits_value d) in Hpos.
    destruct (parseResource_digits d a Hd Ha Hlt) as [Hparse _].
    eexists. split; [exact Hparse |]. apply Hfmt. lia.
Qed.

Lemma format_parse_round_trip_witness :
  unit_group (Some U.Mi) /\ 0 <= 128 < 2 ^ 53 /\
  formatParsedResource {| number := of_Z 128; unit := Some U.Mi |} =
    decimal_digits 128 ++ unit_text (Some U.Mi) /\
  parseResource
    (formatParsedResource {| number := of_Z 128; unit := Some U.Mi |}) =
    Ok {| number := of_Z 128; unit := Some U.Mi |}.
Proof.
  assert (Ha : unit_group (Some U.Mi)) by (cbn; intuition).
  assert (Hn : 0 <= 128 < 2 ^ 53) by (split; [lia | reflexivity]).
  split; [exact Ha |]. split; [exact Hn |].
  exact (proj1 (format_parse_round_trip (Some U.Mi) Ha) 128 Hn).
Defined.

(** ** The empty unit as an argument *)

(** The loop assigns [unit] and [multiplier] at its first iteration:
    what they held before is lost as soon as one unit is visited. *)
Lemma select_unit_start (v : numeric) (cands : list K8sResourceUnit)
  (c1 c2 : selection) :
  cands <> [] -> select_unit v cands c1 = select_unit v cands c2.
Proof.
  destruct cands as [| a rest]; [contradiction |].
  intros _. rewrite !select_unit_cons. reflexivity.
Qed.

(** X20: the empty string passed as the unit is falsy, so it does not
    request the empty unit: both scale functions, and both format
    functions, select the unit automatically, exactly as when the
    argument is omitted. *)
Theorem empty_unit_is_omitted (v : numeric) :
  scaleBaseUnitCpu v (Some U.Empty) = scaleBaseUnitCpu v None /\
  scaleBaseUnitMemory v (Some U.Empty) = scaleBaseUnitMemory v None /\
  formatBaseUnitCpu v (Some U.Empty) = formatBaseUnitCpu v None /\
  formatBaseUnitMemory v (Some U.Empty) = formatBaseUnitMemory v None.
Proof.
  assert (Hcpu : scaleBaseUnitCpu v (Some U.Empty) = scaleBaseUnitCpu v None).
  { unfold scaleBaseUnitCpu. cbn [truthy].
    destruct (number_eq (Number v) 0); [reflexivity |].
    rewrite (select_unit_start v _ (Some U.Empty, Num 1) (None, Num 1));
      [reflexivity |].
    destruct (ltb v (Num 1)); discriminate. }
  assert (Hmem : scaleBaseUnitMemory v (Some U.Empty) =
                 scaleBaseUnitMemory v None).
  { unfold scaleBaseUnitMemory. cbn [truthy].
    rewrite (select_unit_start v _ (Some U.Empty, Num 1) (None, Num 1));
      [reflexivity | discriminate]. }
  unfold formatBaseUnitCpu, formatBaseUnitMemory.
  rewrite Hcpu, Hmem. repeat split.
Qed.

(** ** Zero with an explicit unit *)

Section ExplicitZero.

(** The base values [v] with [Number(v) === 0]: the two floating
    zeros and the bigint [0n]. *)
Lemma zero_base_values (v : numeric) :
  number_eq (Number v) 0 = true ->
  v = Num 0 \/ v = Num (-0) \/ v = Big 0.
Proof.
  destruct v as [x | z]; cbn [Number]; intros H.
  - unfold number_eq in H. rewrite FloatAxioms.eqb_spec in H.
    replace (Prim2SF 0) with (S754_zero false) in H
      by (vm_compute; reflexivity).
    destruct (Prim2SF x) as [s | s | | s m e] eqn:Ex.
    + destruct s; [right; left | left]; f_equal; apply Prim2SF_inj;
        rewrite Ex; vm_compute; reflexivity.
    + destruct s; discriminate.
    + discriminate.
    + destruct s; discriminate.
  - right. right. destruct (Z.eq_dec z 0) as [-> | Hz]; [reflexivity |].
    rewrite (of_Z_nonzero z Hz) in H. discriminate.
Qed.

End ExplicitZero.

(** C9: with an explicitly supplied non-empty unit the zero shortcut
    is not taken, and the claim holds for the number [0]: it scales to
    [{ number: 0, unit }] for that very unit, in both families, and is
    printed with the unit ([0m], not [0]).  It fails for the bigint
    zero [0n], which the library itself returns as the base value of
    [0E], [0Pi] and [0Ei]: with the units [u] and [m]
    [BigInt(unitMultiplier[unit])] converts [1e-6] or [0.001] and
    raises [RangeError]; with every other unit [0n] scales to
    [{ number: 0, unit }] as well.  The negative zero keeps its sign
    with a floating multiplier and gives a number equal to [0]. *)
Theorem explicit_unit_zero :
  (forall a : K8sResourceUnit,
      a <> U.Empty ->
      scaleBaseUnitCpu (Num 0) (Some a) =
        Ok {| number := 0; unit := Some a |} /\
      scaleBaseUnitMemory (Num 0) (Some a) =
        Ok {| number := 0; unit := Some a |} /\
      formatBaseUnitCpu (Num 0) (Some a) = Ok ("0" ++ unit_token a) /\
      formatBaseUnitMemory (Num 0) (Some a) = Ok ("0" ++ unit_token a)) /\
  (forall a : K8sResourceUnit,
      a = U.u \/ a = U.m ->
      scaleBaseUnitCpu (Big 0) (Some a) = Throw RangeError /\
      formatBaseUnitCpu (Big 0) (Some a) = Throw RangeError) /\
  (forall a : K8sResourceUnit,
      a <> U.Empty -> a <> U.u -> a <> U.m ->
      scaleBaseUnitCpu (Big 0) (Some a) =
        Ok {| number := 0; unit := Some a |} /\
      scaleBaseUnitMemory (Big 0) (Some a) =
        Ok {| number := 0; unit := Some a |} /\
      formatBaseUnitCpu (Big 0) (Some a) = Ok ("0" ++ unit_token a) /\
      formatBaseUnitMemory (Big 0) (Some a) = Ok ("0" ++ unit_token a)) /\
  (forall a : K8sResourceUnit,
      a <> U.Empty ->
      exists r,
        number_eq r 0 = true /\
        scaleBaseUnitCpu (Num (-0)) (Some a) =
          Ok {| number := r; unit := Some a |} /\
        scaleBaseUnitMemory (Num (-0)) (Some a) =
          Ok {| number := r; unit := Some a |}) /\
  (forall v : numeric,
      number_eq (Number v) 0 = true ->
      v = Num 0 \/ v = Num (-0) \/ v = Big 0) /\
  resourceStringToBaseUnit "0E" = Ok (Big 0) /\
  resourceStringToBaseUnit "0Pi" = Ok (Big 0) /\
  resourceStringToBaseUnit "0Ei" = Ok (Big 0) /\
  (b <- resourceStringToBaseUnit "0E" ;; scaleBaseUnitCpu b (Some U.m)) =
    Throw RangeError /\
  (b <- resourceStringToBaseUnit "0E" ;; formatBaseUnitCpu b (Some U.m)) =
    Throw RangeError.
Proof.
  split; [| split; [| split; [| split; [| split]]]].
  - intros a Ha.
    destruct a; try contradiction; vm_compute; repeat split; reflexivity.
  - intros a [-> | ->]; split; vm_compute; reflexivity.
  - intros a Ha Hu Hm.
    destruct a; try contradiction; vm_compute; repeat split; reflexivity.
  - intros a Ha.
    destruct a; try contradiction; eexists;
      (split; [| split; vm_compute; reflexivity]);
      vm_compute; reflexivity.
  - exact zero_base_values.
  - repeat split; vm_compute; reflexivity.
Qed.

Lemma explicit_unit_zero_witness :
  U.m <> U.Empty /\
  (U.m = U.u \/ U.m = U.m) /\
  U.G <> U.Empty /\ U.G <> U.u /\ U.G <> U.m /\
  number_eq (Number (Big 0)) 0 = true /\
  formatBaseUnitCpu (Num 0) (Some U.m) = Ok "0m" /\
  scaleBaseUnitCpu (Big 0) (Some U.m) = Throw RangeError /\
  scaleBaseUnitCpu (Big 0) (Some U.G) =
    Ok {| number := 0; unit := Some U.G |} /\
  (exists r,
      number_eq r 0 = true /\
      scaleBaseUnitCpu (Num (-0)) (Some U.m) =
        Ok {| number := r; unit := Some U.m |} /\
      scaleBaseUnitMemory (Num (-0)) (Some U.m) =
        Ok {| number := r; unit := Some U.m |}) /\
  (Big 0 = Num 0 \/ Big 0 = Num (-0) \/ Big 0 = Big 0).
Proof.
  assert (Hm : U.m <> U.Empty) by discriminate.
  assert (Hum : U.m = U.u \/ U.m = U.m) by (right; reflexivity).
  assert (HG : U.G <> U.Empty) by discriminate.
  assert (HGu : U.G <> U.u) by discriminate.
  assert (HGm : U.G <> U.m) by discriminate.
  assert (Hz : number_eq (Number (Big 0)) 0 = true)
    by (vm_compute; reflexivity).
  destruct explicit_unit_zero as (T1 & T2 & T3 & T4 & T5 & _).
  split; [exact Hm |]. split; [exact Hum |]. split; [exact HG |].
  split; [exact HGu |]. split; [exact HGm |]. split; [exact Hz |].
  split; [exact (proj1 (proj2 (proj2 (T1 U.m Hm)))) |].
  split; [exact (proj1 (T2 U.m Hum)) |].
  split; [exact (proj1 (T3 U.G HG HGu HGm)) |].
  split; [exact (T4 U.m Hm) |].
  exact (T5 (Big 0) Hz).
Defined.

(** ** Scaling back within floating tolerance *)

Section Tolerance.

(** The first step of rounding cuts a mantissa of [d >= 53] bits to
    its leading 53 bits. *)
Lemma shr_fexp_cut (p : positive) (e : Z) (l : location) :
  53 <= Zpos (digits2_pos p) ->
  -1074 <= e + Zpos (digits2_pos p) - 53 ->
  exists mrs,
    shr_fexp prec emax (Zpos p) e l = (mrs, e + Zpos (digits2_pos p) - 53) /\
    shr_m mrs = Zpos p / 2 ^ (Zpos (digits2_pos p) - 53).
Proof.
  intros Hd He.
  unfold shr_fexp. cbn [Zdigits2].
  unfold fexp, SpecFloat.emin, prec, emax.
  set (d := Zpos (digits2_pos p)) in *.
  replace (Z.max (d + e - 53) (3 - 1024 - 53) - e) with (d - 53) by lia.
  unfold shr. destruct (d - 53) as [| q | q] eqn:Eq; try lia.
  - exists (shr_record_of_loc (Zpos p) l). split; [f_equal; lia |].
    rewrite shr_m_of_loc, Z.pow_0_r, Z.div_1_r. reflexivity.
  - exists (iter_pos shr_1 q (shr_record_of_loc (Zpos p) l)).
    split; [f_equal; lia |].
    rewrite iter_pos_nat, shr_m_iter by (rewrite shr_m_of_loc; lia).
    rewrite shr_m_of_loc, positive_nat_Z. reflexivity.
Qed.

(** Rounding a mantissa [p] of at least 53 bits: the result
    [m' * 2^e'] is within [2^-52] of [p * 2^e], relatively, unless it
    overflows. *)
Lemma binary_round_aux_close (s : bool) (p : positive) (e : Z) (l : location) :
  53 <= Zpos (digits2_pos p) ->
  -1074 <= e + Zpos (digits2_pos p) - 53 ->
  exists (m' : positive) (e' : Z),
    binary_round_aux prec emax s (Zpos p) e l =
      (if e' <=? emax - prec then S754_finite s m' e' else S754_infinity s) /\
    e + Zpos (digits2_pos p) - 53 <= e' <= e + Zpos (digits2_pos p) - 52 /\
    2 ^ 52 <= Zpos m' < 2 ^ 53 /\
    2 ^ 52 * Z.abs (Zpos m' * 2 ^ (e' - e) - Zpos p) <= Zpos p.
Proof.
  intros Hd He. unfold binary_round_aux.
  pose proof (digits2_pos_bounds p) as [Hlo Hhi].
  destruct (shr_fexp_cut p e l Hd He) as (mrs1 & -> & Hm1).
  set (d := Zpos (digits2_pos p)) in *.
  assert (Hk : 0 <= d - 53) by lia.
  assert (Hpk : 0 < 2 ^ (d - 53)) by (apply Z.pow_pos_nonneg; lia).
  assert (H1 : 2 ^ (d - 1) = 2 ^ 52 * 2 ^ (d - 53))
    by (rewrite <- Z.pow_add_r by lia; f_equal; lia).
  assert (H2 : 2 ^ d = 2 ^ 53 * 2 ^ (d - 53))
    by (rewrite <- Z.pow_add_r by lia; f_equal; lia).
  pose proof (Z.div_mod (Zpos p) (2 ^ (d - 53)) ltac:(lia)) as Hdiv.
  pose proof (Z.mod_pos_bound (Zpos p) (2 ^ (d - 53)) Hpk) as Hmod.
  assert (Ha52 : 2 ^ 52 <= Zpos p / 2 ^ (d - 53) < 2 ^ 53).
  { split; [apply Z.div_le_lower_bound; lia
           | apply Z.div_lt_upper_bound; lia]. }
  rewrite Hm1.
  set (a := Zpos p / 2 ^ (d - 53)) in *.
  remember (round_nearest_even a (loc_of_shr_record mrs1)) as m2 eqn:E2.
  assert (Hm2 : m2 = a \/ m2 = a + 1)
    by (subst m2; apply round_nearest_even_cases).
  clear E2.
  destruct m2 as [| p2 | p2]; try lia.
  pose proof (digits2_pos_bounds p2) as [Hlo2 Hhi2].
  assert (Hd2 : 53 <= Zpos (digits2_pos p2))
    by (apply (digits2_pos_ge p2 52); lia).
  assert (Hd2' : Zpos (digits2_pos p2) <= 54).
  { apply (digits2_pos_le p2 54); [| lia].
    change (2 ^ 54) with (2 * 2 ^ 53). lia. }
  destruct (shr_fexp_cut p2 (e + d - 53) loc_Exact Hd2 ltac:(lia))
    as (mrs2 & -> & Hm3).
  set (d2 := Zpos (digits2_pos p2)) in *.
  assert (Hm3' : shr_m mrs2 * 2 ^ (d2 - 53) = Zpos p2).
  { rewrite Hm3. destruct (Z.eq_dec d2 53) as [E | E].
    - rewrite E. change (2 ^ (53 - 53)) with 1. rewrite Z.div_1_r. lia.
    - assert (E54 : d2 = 54) by lia. rewrite E54 in *.
      change (2 ^ (54 - 1)) with (2 ^ 53) in Hlo2.
      assert (E53 : Zpos p2 = 2 ^ 53) by lia.
      rewrite E53. reflexivity. }
  assert (Hp2 : 0 < 2 ^ (d2 - 53)) by (apply Z.pow_pos_nonneg; lia).
  destruct (shr_m mrs2) as [| m3 | m3]; try lia.
  exists m3, (e + d - 53 + d2 - 53).
  split; [reflexivity |]. split; [lia |].
  assert (Hw : Zpos m3 * 2 ^ (e + d - 53 + d2 - 53 - e) =
               Zpos p2 * 2 ^ (d - 53)).
  { replace (e + d - 53 + d2 - 53 - e) with ((d2 - 53) + (d - 53)) by lia.
    rewrite Z.pow_add_r by lia. rewrite <- Hm3'. ring. }
  split.
  - destruct (Z.eq_dec d2 53) as [E | E].
    + rewrite E in Hm3'. change (2 ^ (53 - 53)) with 1 in Hm3'.
      rewrite E in Hhi2. lia.
    + assert (E54 : d2 = 54) by lia. rewrite E54 in Hm3', Hlo2.
      change (2 ^ (54 - 53)) with 2 in Hm3'.
      change (2 ^ (54 - 1)) with (2 ^ 53) in Hlo2.
      change (2 ^ 53) with (2 * 2 ^ 52) in *. lia.
  - rewrite Hw. apply Z.le_trans with (2 ^ 52 * 2 ^ (d - 53)); [| lia].
    apply Z.mul_le_mono_nonneg_l; [lia |].
    apply Z.abs_le. destruct Hm2 as [-> | ->]; unfold a; lia.
Qed.

Lemma digits2_pos_53 (m : positive) :
  2 ^ 52 <= Zpos m < 2 ^ 53 -> Zpos (digits2_pos m) = 53.
Proof.
  intros Hm.
  pose proof (digits2_pos_ge m 52 ltac:(lia) ltac:(lia)).
  pose proof (digits2_pos_le m 53 ltac:(lia) ltac:(lia)). lia.
Qed.

(** The product of two normal binary64 values is within [2^-52] of
    the exact product, relatively, unless it overflows. *)
Lemma SFmul_close (sx : bool) (mx mc : positive) (ex ec : Z) :
  2 ^ 52 <= Zpos mx < 2 ^ 53 -> 2 ^ 52 <= Zpos mc < 2 ^ 53 ->
  -1074 <= ex + ec + 52 ->
  exists (my : positive) (ey : Z),
    SFmul prec emax (S754_finite sx mx ex) (S754_finite false mc ec) =
      (if ey <=? emax - prec then S754_finite sx my ey
       else S754_infinity sx) /\
    ex + ec + 52 <= ey <= ex + ec + 54 /\
    2 ^ 52 <= Zpos my < 2 ^ 53 /\
    2 ^ 52 * Z.abs (Zpos my * 2 ^ (ey - (ex + ec)) - Zpos mx * Zpos mc)
      <= Zpos mx * Zpos mc.
Proof.
  intros Hmx Hmc He. cbn [SFmul]. rewrite xorb_false_r.
  assert (Hlo : 2 ^ 104 <= Zpos (mx * mc)).
  { rewrite Pos2Z.inj_mul. change (2 ^ 104) with (2 ^ 52 * 2 ^ 52).
    apply Z.mul_le_mono_nonneg; lia. }
  assert (Hhi : Zpos (mx * mc) < 2 ^ 106).
  { rewrite Pos2Z.inj_mul. change (2 ^ 106) with (2 ^ 53 * 2 ^ 53).
    apply Z.mul_lt_mono_nonneg; lia. }
  pose proof (digits2_pos_ge (mx * mc) 104 Hlo ltac:(lia)) as Hd1.
  pose proof (digits2_pos_le (mx * mc) 106 Hhi ltac:(lia)) as Hd2.
  destruct (binary_round_aux_close sx (mx * mc) (ex + ec) loc_Exact)
    as (my & ey & Hr & Hey & Hmy & Hclose); try lia.
  exists my, ey. rewrite Hr, <- Pos2Z.inj_mul.
  split; [reflexivity |]. split; [lia |]. split; [exact Hmy | exact Hclose].
Qed.

(** The quotient of two normal binary64 values is within [2^-51] of
    the exact quotient, relatively, unless it overflows. *)
Lemma SFdiv_close (sy : bool) (my mc : positive) (ey ec : Z) :
  2 ^ 52 <= Zpos my < 2 ^ 53 -> 2 ^ 52 <= Zpos mc < 2 ^ 53 ->
  -1074 <= ey - ec - 53 ->
  exists (mr : positive) (er : Z),
    SFdiv prec emax (S754_finite sy my ey) (S754_finite false mc ec) =
      (if er <=? emax - prec then S754_finite sy mr er
       else S754_infinity sy) /\
    ey - ec - 53 <= er <= ey - ec - 51 /\
    2 ^ 52 <= Zpos mr < 2 ^ 53 /\
    2 ^ 51 * Z.abs (Zpos mr * 2 ^ (er - (ey - ec - 53)) * Zpos mc
                    - Zpos my * 2 ^ 53)
      <= Zpos my * 2 ^ 53.
Proof.
  intros Hmy Hmc He. cbn [SFdiv]. rewrite xorb_false_r.
  unfold SFdiv_core_binary. cbn [Zdigits2].
  rewrite (digits2_pos_53 my Hmy), (digits2_pos_53 mc Hmc).
  replace (Z.min (fexp prec emax (53 + ey - (53 + ec))) (ey - ec))
    with (ey - ec - 53)
    by (unfold fexp, SpecFloat.emin, prec, emax; lia).
  replace (ey - ec - (ey - ec - 53)) with 53 by lia.
  rewrite Z.shiftl_mul_pow2 by lia.
  pose proof (Z_div_mod (Zpos my * 2 ^ 53) (Zpos mc) ltac:(lia)) as Hdm.
  destruct (Z.div_eucl (Zpos my * 2 ^ 53) (Zpos mc)) as [q r].
  destruct Hdm as [Hq Hr].
  assert (Hq52 : 2 ^ 52 <= q).
  { apply Z.nlt_ge. intros Hlt.
    assert (Zpos mc * q <= Zpos mc * (2 ^ 52 - 1))
      by (apply Z.mul_le_mono_nonneg_l; lia).
    assert (2 ^ 52 * 2 ^ 53 <= Zpos my * 2 ^ 53)
      by (apply Z.mul_le_mono_nonneg_r; lia).
    change (2 ^ 53) with (2 * 2 ^ 52) in *. nia. }
  assert (Hq54 : q < 2 ^ 54).
  { apply Z.nle_gt. intros Hge.
    assert (2 ^ 52 * 2 ^ 54 <= Zpos mc * q)
      by (apply Z.mul_le_mono_nonneg; lia).
    assert (Zpos my * 2 ^ 53 < 2 ^ 53 * 2 ^ 53)
      by (apply Z.mul_lt_mono_pos_r; lia).
    change (2 ^ 52 * 2 ^ 54) with (2 ^ 53 * 2 ^ 53) in *. lia. }
  destruct q as [| pq | pq]; try lia.
  pose proof (digits2_pos_ge pq 52 Hq52 ltac:(lia)) as Hd1.
  pose proof (digits2_pos_le pq 54 Hq54 ltac:(lia)) as Hd2.
  destruct (binary_round_aux_close sy pq (ey - ec - 53)
              (new_location (Zpos mc) r))
    as (mr & er & Hres & Her & Hmr & Hclose); try lia.
  exists mr, er. rewrite Hres.
  split; [reflexivity |]. split; [lia |]. split; [exact Hmr |].
  set (v := Zpos mr * 2 ^ (er - (ey - ec - 53))) in *.
  assert (Hb1 : 2 ^ 52 * Z.abs (v * Zpos mc - Zpos pq * Zpos mc)
                <= Zpos pq * Zpos mc).
  { replace (v * Zpos mc - Zpos pq * Zpos mc)
      with ((v - Zpos pq) * Zpos mc) by ring.
    rewrite Z.abs_mul, (Z.abs_eq (Zpos mc)) by lia.
    rewrite Z.mul_assoc. apply Z.mul_le_mono_nonneg_r; lia. }
  assert (Hb2 : 2 ^ 52 * Zpos mc <= Zpos pq * Zpos mc)
    by (apply Z.mul_le_mono_nonneg_r; lia).
  lia.
Qed.

(** The two relative errors together. *)
Lemma close_algebra (mx mc my t W : Z) :
  0 < mx -> 0 < mc -> 0 < my -> 0 < W ->
  2 ^ 52 * Z.abs (my * W - mx * mc) <= mx * mc ->
  2 ^ 51 * Z.abs (t * mc - my * 2 ^ 53) <= my * 2 ^ 53 ->
  2 ^ 50 * Z.abs (t * W - mx * 2 ^ 53) <= mx * 2 ^ 53.
Proof.
  intros Hmx Hmc Hmy HW H1 H2.
  assert (H3 : 2 ^ 51 * Z.abs (t * mc * W - my * W * 2 ^ 53)
               <= my * W * 2 ^ 53).
  { replace (t * mc * W - my * W * 2 ^ 53)
      with ((t * mc - my * 2 ^ 53) * W) by ring.
    rewrite Z.abs_mul, (Z.abs_eq W) by lia.
    replace (my * W * 2 ^ 53) with (my * 2 ^ 53 * W) by ring.
    rewrite Z.mul_assoc. apply Z.mul_le_mono_nonneg_r; lia. }
  apply Z.mul_le_mono_pos_r with (p := mc); [exact Hmc |].
  rewrite <- Z.mul_assoc, <- (Z.abs_eq mc) at 1 by lia.
  rewrite <- Z.abs_mul.
  replace ((t * W - mx * 2 ^ 53) * mc)
    with ((t * mc * W - my * W * 2 ^ 53) + 2 ^ 53 * (my * W - mx * mc))
    by ring.
  replace (mx * 2 ^ 53 * mc) with (2 ^ 53 * (mx * mc)) by ring.
  set (A := mx * mc) in *. set (u := my * W) in *.
  set (X := t * mc * W) in *.
  change (2 ^ 53) with 9007199254740992 in *.
  change (2 ^ 52) with 4503599627370496 in *.
  change (2 ^ 51) with 2251799813685248 in *.
  change (2 ^ 50) with 1125899906842624 in *.
  lia.
Qed.

(** The multipliers that are numbers are normal binary64 values
    between [2^-20] and [2^50]. *)
Lemma number_multiplier (a : K8sResourceUnit) (c : float) :
  unitMultiplier a = Num c ->
  exists (mc : positive) (ec : Z),
    Prim2SF c = S754_finite false mc ec /\
    2 ^ 52 <= Zpos mc < 2 ^ 53 /\ -72 <= ec <= 0.
Proof.
  destruct a; cbn [unitMultiplier]; intros H; try discriminate;
    inversion H; subst c; eexists; eexists;
    (split; [vm_compute; reflexivity | lia]).
Qed.

(** A floating base value is the floating product, and it passed the
    test against [Number.MAX_SAFE_INTEGER]. *)
Lemma base_number_inv (q : K8sParsedResource) (y : float) :
  parsedResourceToBaseUnit q = Ok (Num y) ->
  exists uMul,
    multiplier_of (unit q) = Num uMul /\
    y = (number q * uMul)%float /\
    number_le y MAX_SAFE_INTEGER = true.
Proof.
  unfold parsedResourceToBaseUnit. fold (multiplier_of (unit q)).
  destruct (multiplier_of (unit q)) as [uMul | uMul].
  - destruct (number_le (number q * uMul) MAX_SAFE_INTEGER) eqn:Hle.
    + intros H. apply Ok_inj in H. inversion H. exists uMul.
      split; [reflexivity |]. split; [reflexivity | exact Hle].
    + destruct (NumberToBigInt (number q * pow10 (getPrecision (number q))));
        cbn [bind]; [| discriminate].
      destruct (NumberToBigInt uMul); cbn [bind]; [| discriminate].
      destruct (NumberToBigInt (pow10 (getPrecision (number q))));
        cbn [bind]; [| discriminate].
      destruct (bigint_div _ _); cbn [bind]; discriminate.
  - destruct (NumberToBigInt (number q * pow10 (getPrecision (number q))));
      cbn [bind]; [| discriminate].
    destruct (NumberToBigInt (pow10 (getPrecision (number q))));
      cbn [bind]; [| discriminate].
    destruct (bigint_div _ _); cbn [bind]; discriminate.
Qed.

Lemma cond_Zopp_distance (s : bool) (R X : Z) :
  0 <= X ->
  Z.abs (cond_Zopp s R - cond_Zopp s X) = Z.abs (R - X) /\
  Z.abs (cond_Zopp s X) = X.
Proof. intros HX. destruct s; cbn [cond_Zopp]; lia. Qed.

(** Multiplying a normal binary64 by a multiplier and dividing the
    product by the same multiplier gives the value back within
    [2^-50], relatively. *)
Lemma mul_div_close (x c : float) (sx : bool) (mx mc : positive) (ex ec : Z) :
  Prim2SF x = S754_finite sx mx ex ->
  Prim2SF c = S754_finite false mc ec ->
  2 ^ 52 <= Zpos mc < 2 ^ 53 -> -72 <= ec <= 0 ->
  -1052 <= ex ->
  ex <= 908 \/ sx = false /\ number_le (x * c) MAX_SAFE_INTEGER = true ->
  is_number (x * c / c) /\
  2 ^ 50 * Z.abs (number_rank (x * c / c) - number_rank x)
    <= Z.abs (number_rank x).
Proof.
  intros Hx Hc Hmc Hec Hlo Hhi.
  pose proof (Prim2SF_valid x) as Hv. rewrite Hx in Hv.
  cbn [valid_binary] in Hv.
  apply bounded_inv in Hv as (Hex & Hmx & Hn).
  specialize (Hn ltac:(lia)).
  destruct (SFmul_close sx mx mc ex ec)
    as (my & ey & Hmul & Hey & Hmy & Hclose1); try lia.
  assert (Hy : Prim2SF (x * c) =
               if ey <=? emax - prec then S754_finite sx my ey
               else S754_infinity sx).
  { rewrite mul_spec, Hx, Hc. exact Hmul. }
  assert (Hex' : ex <= 908).
  { destruct Hhi as [Hhi | [-> Hle]]; [exact Hhi |].
    unfold number_le in Hle. rewrite leb_spec, Hy in Hle.
    replace (Prim2SF MAX_SAFE_INTEGER)
      with (S754_finite false 9007199254740991 0) in Hle
      by (vm_compute; reflexivity).
    destruct (ey <=? emax - prec); [| discriminate].
    unfold SFleb in Hle. cbn [SFcompare] in Hle.
    destruct (Z.compare_spec ey 0); try discriminate; lia. }
  assert (Hfin : (ey <=? emax - prec) = true)
    by (apply Z.leb_le; unfold emax, prec; lia).
  rewrite Hfin in Hy.
  destruct (SFdiv_close sx my mc ey ec)
    as (mr & er & Hdiv & Her & Hmr & Hclose2); try lia.
  assert (Hfin2 : (er <=? emax - prec) = true)
    by (apply Z.leb_le; unfold emax, prec; lia).
  rewrite Hfin2 in Hdiv.
  assert (Hr : Prim2SF (x * c / c) = S754_finite sx mr er).
  { rewrite div_spec, Hy, Hc. exact Hdiv. }
  split; [unfold is_number, not_nan; rewrite Hr; discriminate |].
  unfold number_rank. rewrite Hr, Hx. cbn [rank].
  assert (HT : 0 < 2 ^ (ex + 1074)) by (apply Z.pow_pos_nonneg; lia).
  destruct (cond_Zopp_distance sx (Zpos mr * 2 ^ (er + 1074))
              (Zpos mx * 2 ^ (ex + 1074)) ltac:(lia)) as [-> ->].
  pose proof (close_algebra (Zpos mx) (Zpos mc) (Zpos my)
                (Zpos mr * 2 ^ (er - (ey - ec - 53)))
                (2 ^ (ey - (ex + ec)))
                ltac:(lia) ltac:(lia) ltac:(lia)
                ltac:(apply Z.pow_pos_nonneg; lia) Hclose1 Hclose2) as Hall.
  apply Z.mul_le_mono_pos_r with (p := 2 ^ 53); [reflexivity |].
  rewrite <- Z.mul_assoc, <- (Z.abs_eq (2 ^ 53)) at 1 by (vm_compute; discriminate).
  rewrite <- Z.abs_mul.
  replace ((Zpos mr * 2 ^ (er + 1074) - Zpos mx * 2 ^ (ex + 1074)) * 2 ^ 53)
    with ((Zpos mr * 2 ^ (er - (ey - ec - 53)) * 2 ^ (ey - (ex + ec))
           - Zpos mx * 2 ^ 53) * 2 ^ (ex + 1074)).
  - rewrite Z.abs_mul, (Z.abs_eq (2 ^ (ex + 1074))) by lia.
    replace (Zpos mx * 2 ^ (ex + 1074) * 2 ^ 53)
      with (Zpos mx * 2 ^ 53 * 2 ^ (ex + 1074)) by ring.
    rewrite Z.mul_assoc. apply Z.mul_le_mono_nonneg_r; [lia | exact Hall].
  - replace (er + 1074)
      with ((er - (ey - ec - 53)) + (ey - (ex + ec)) + (ex + 1074) - 53)
      by lia.
    assert (E : 2 ^ (er - (ey - ec - 53) + (ey - (ex + ec)) + (ex + 1074) - 53)
                * 2 ^ 53 =
                2 ^ (er - (ey - ec - 53)) * 2 ^ (ey - (ex + ec))
                * 2 ^ (ex + 1074)).
    { rewrite <- !Z.pow_add_r by lia. f_equal. lia. }
    set (P := 2 ^ (er - (ey - ec - 53) + (ey - (ex + ec)) + (ex + 1074) - 53))
      in *.
    transitivity (Zpos mr * (P * 2 ^ 53) - Zpos mx * 2 ^ 53 * 2 ^ (ex + 1074));
      [rewrite E; ring | ring].
Qed.

Lemma zero_round_trip (x c : float) (s : bool) (mc : positive) (ec : Z) :
  Prim2SF x = S754_zero s ->
  Prim2SF c = S754_finite false mc ec ->
  within_tolerance (x * c / c) x.
Proof.
  intros Hx Hc.
  assert (Hr : Prim2SF (x * c / c) = S754_zero s).
  { rewrite div_spec, mul_spec, Hx, Hc. unfold SF64div, SF64mul.
    cbn [SFmul SFdiv].
    rewrite !xorb_false_r. reflexivity. }
  unfold within_tolerance, is_number, not_nan, number_rank.
  rewrite Hr, Hx. cbn [rank].
  split; [discriminate |]. split; [discriminate | reflexivity].
Qed.

(** A floating base value comes from a mantissa that is not NaN and
    not [+Infinity]. *)
Lemma base_number_mantissa (x c : float) (mc : positive) (ec : Z) :
  Prim2SF c = S754_finite false mc ec ->
  number_le (x * c) MAX_SAFE_INTEGER = true ->
  Prim2SF x <> S754_nan /\ Prim2SF x <> S754_infinity false.
Proof.
  intros Hc Hle. unfold number_le in Hle.
  rewrite leb_spec, mul_spec, Hc in Hle.
  unfold SF64mul in Hle.
  split; intros Hx; rewrite Hx in Hle; cbn [SFmul] in Hle;
    vm_compute in Hle; discriminate.
Qed.

(** On the floating path the number scaled back is the mantissa
    within floating tolerance. *)
Lemma round_trip_close (x c : float) (mc : positive) (ec : Z) :
  Prim2SF c = S754_finite false mc ec ->
  2 ^ 52 <= Zpos mc < 2 ^ 53 -> -72 <= ec <= 0 ->
  number_le (x * c) MAX_SAFE_INTEGER = true ->
  roundable x ->
  within_tolerance (x * c / c) x.
Proof.
  intros Hc Hmc Hec Hle Hx.
  destruct (base_number_mantissa x c mc ec Hc Hle) as [Hnan Hinf].
  pose proof (Prim2SF_valid x) as Hv.
  destruct (Prim2SF x) as [s | s | | sx mx ex] eqn:Ex.
  - exact (zero_round_trip x c s mc ec Ex Hc).
  - exfalso. destruct s; [| apply Hinf; reflexivity].
    unfold roundable, number_rank in Hx. rewrite Ex in Hx.
    cbn [rank cond_Zopp] in Hx.
    assert (2 ^ 2034 < 2 ^ 2100) by (apply Z.pow_lt_mono_r; lia).
    lia.
  - exfalso. apply Hnan. reflexivity.
  - cbn [valid_binary] in Hv.
    pose proof (bounded_inv mx ex Hv) as (Hex & Hmx & Hn).
    unfold roundable, number_rank in Hx. rewrite Ex in Hx. cbn [rank] in Hx.
    assert (HT : 0 < 2 ^ (ex + 1074)) by (apply Z.pow_pos_nonneg; lia).
    assert (HV : 0 < Zpos mx * 2 ^ (ex + 1074)) by lia.
    assert (Hlo : -1052 <= ex).
    { apply Z.nlt_ge. intros Hlt.
      assert (Hp : 2 ^ (ex + 1074) <= 2 ^ 21)
        by (apply Z.pow_le_mono_r; lia).
      assert (Zpos mx * 2 ^ (ex + 1074) < 2 ^ 53 * 2 ^ 21).
      { apply Z.lt_le_trans with (2 ^ 53 * 2 ^ (ex + 1074)).
        - apply Z.mul_lt_mono_pos_r; lia.
        - apply Z.mul_le_mono_nonneg_l; lia. }
      change (2 ^ 53 * 2 ^ 21) with (2 ^ 74) in *.
      destruct sx; cbn [cond_Zopp] in Hx; lia. }
    assert (Hhi : ex <= 908 \/
                  sx = false /\ number_le (x * c) MAX_SAFE_INTEGER = true).
    { destruct sx; [left | right; split; [reflexivity | exact Hle]].
      apply Z.nlt_ge. intros Hgt.
      assert (Hp : 2 ^ 1983 <= 2 ^ (ex + 1074))
        by (apply Z.pow_le_mono_r; lia).
      assert (2 ^ 52 * 2 ^ 1983 <= Zpos mx * 2 ^ (ex + 1074))
        by (apply Z.mul_le_mono_nonneg; lia).
      assert (2 ^ 2034 < 2 ^ 52 * 2 ^ 1983).
      { rewrite <- Z.pow_add_r by lia. apply Z.pow_lt_mono_r; lia. }
      cbn [cond_Zopp] in Hx. lia. }
    destruct (mul_div_close x c sx mx mc ex ec Ex Hc Hmc Hec Hlo Hhi)
      as [Hr Hb].
    unfold within_tolerance. split; [exact Hr |]. split; [| exact Hb].
    unfold is_number, not_nan. rewrite Ex. discriminate.
Qed.

End Tolerance.

(** C2 as stated fails in several ways.  On the bigint path the two
    bigints are divided as integers: [1.5E] has the base value
    [1500000000000000000n] and comes back as [1], [0.5Ei] as [0].  The
    empty unit is a member of both unit lists, and a quantity that
    carries it is scaled to the automatically selected unit: [2048]
    comes back as [2Ki], [0.5] as [500m].  On the floating path a
    mantissa that underflows is lost: the smallest positive number,
    written out with the unit [u], has the base value [0] and comes
    back as [0]; and a mantissa whose product overflows comes back as
    an infinity.  Finally a quantity may have no base value at all:
    for [0.57E] the conversion raises [RangeError]. *)
Lemma scale_back_changes_mantissa :
  (let q := {| number := 1.5; unit := Some U.E |} in
   parseResource "1.5E" = Ok q /\
   parsedResourceToBaseUnit q = Ok (Big 1500000000000000000) /\
   scaleBaseUnitCpu (Big 1500000000000000000) (unit q) =
     Ok {| number := 1; unit := Some U.E |} /\
   number_eq 1 (number q) = false) /\
  (b <- resourceStringToBaseUnit "0.5Ei" ;; scaleBaseUnitMemory b (Some U.Ei)) =
    Ok {| number := 0; unit := Some U.Ei |} /\
  In U.Empty cpuUnits /\ In U.Empty memoryUnits /\
  (let q := {| number := 2048; unit := Some U.Empty |} in
   parsedResourceToBaseUnit q = Ok (Num 2048) /\
   scaleBaseUnitMemory (Num 2048) (unit q) =
     Ok {| number := 2; unit := Some U.Ki |}) /\
  (let q := {| number := 0.5; unit := Some U.Empty |} in
   parsedResourceToBaseUnit q = Ok (Num 0.5) /\
   scaleBaseUnitCpu (Num 0.5) (unit q) =
     Ok {| number := 500; unit := Some U.m |}) /\
  (let q := {| number := 5e-324; unit := Some U.u |} in
   parseResource ("0." ++ zeros 323 ++ "5u") = Ok q /\
   number_eq (number q) 0 = false /\
   parsedResourceToBaseUnit q = Ok (Num 0) /\
   scaleBaseUnitCpu (Num 0) (unit q) =
     Ok {| number := 0; unit := Some U.u |}) /\
  (let q := {| number := -1e308; unit := Some U.P |} in
   parsedResourceToBaseUnit q = Ok (Num neg_infinity) /\
   scaleBaseUnitCpu (Num neg_infinity) (unit q) =
     Ok {| number := neg_infinity; unit := Some U.P |}) /\
  (parseResource "0.57E" = Ok {| number := 0.57; unit := Some U.E |} /\
   parsedResourceToBaseUnit {| number := 0.57; unit := Some U.E |} =
     Throw RangeError).
Proof.
  split; [| split; [| split; [| split; [| split; [| split;
    [| split; [| split]]]]]]].
  - repeat split; vm_compute; reflexivity.
  - vm_compute. reflexivity.
  - cbn. tauto.
  - cbn. tauto.
  - split; vm_compute; reflexivity.
  - split; vm_compute; reflexivity.
  - repeat split; vm_compute; reflexivity.
  - split; vm_compute; reflexivity.
  - split; vm_compute; reflexivity.
Qed.

(** C2 (amended): for a quantity [q] with a non-empty unit whose base
    value is returned, scaling the base value back with [q.unit]
    returns that unit, from [scaleBaseUnitCpu] and
    [scaleBaseUnitMemory] alike.

    On the floating path the number returned is
    [(mantissa * multiplier) / multiplier], and it equals the mantissa
    within floating tolerance, a relative error of at most [2^-50],
    for every mantissa that is zero or of magnitude at least
    [2^-1000] and not below [-2^960]; it need not be the mantissa
    itself ([7.7u] comes back as [7.699999999999999u]).

    On the bigint path the number is the truncated integer quotient
    of [BigInt(mantissa * 10^p)] by [BigInt(10^p)]; it equals the
    mantissa when the precision [p] is [0], as in [10P].

    With the empty unit the call is the call without unit. *)
Theorem scale_back_to_own_unit :
  (forall (q : K8sParsedResource) (a : K8sResourceUnit) (y : float),
      unit q = Some a -> a <> U.Empty ->
      parsedResourceToBaseUnit q = Ok (Num y) ->
      exists uMul,
        unitMultiplier a = Num uMul /\
        scaleBaseUnitCpu (Num y) (unit q) =
          Ok {| number := (number q * uMul) / uMul; unit := Some a |} /\
        scaleBaseUnitMemory (Num y) (unit q) =
          Ok {| number := (number q * uMul) / uMul; unit := Some a |} /\
        (roundable (number q) ->
         within_tolerance ((number q * uMul) / uMul) (number q))) /\
  (forall (q : K8sParsedResource) (a : K8sResourceUnit) (z : Z),
      unit q = Some a -> a <> U.Empty ->
      parsedResourceToBaseUnit q = Ok (Big z) ->
      exists N D,
        scaled_mantissa (number q) = Ok N /\
        precision_divisor (number q) = Ok D /\
        D <> 0 /\
        scaleBaseUnitCpu (Big z) (unit q) =
          Ok {| number := of_Z (Z.quot N D); unit := Some a |} /\
        scaleBaseUnitMemory (Big z) (unit q) =
          Ok {| number := of_Z (Z.quot N D); unit := Some a |}) /\
  (forall (q : K8sParsedResource) (a : K8sResourceUnit) (z : Z),
      unit q = Some a -> a <> U.Empty ->
      parsedResourceToBaseUnit q = Ok (Big z) ->
      getPrecision (number q) = 0 ->
      exists x,
        number_eq x (number q) = true /\
        scaleBaseUnitCpu (Big z) (unit q) =
          Ok {| number := x; unit := Some a |} /\
        scaleBaseUnitMemory (Big z) (unit q) =
          Ok {| number := x; unit := Some a |}) /\
  (forall b : numeric,
      scaleBaseUnitCpu b (Some U.Empty) = scaleBaseUnitCpu b None /\
      scaleBaseUnitMemory b (Some U.Empty) = scaleBaseUnitMemory b None) /\
  (q <- parseResource "500m" ;; b <- parsedResourceToBaseUnit q ;;
   scaleBaseUnitCpu b (unit q)) = Ok {| number := 500; unit := Some U.m |} /\
  (q <- parseResource "1.5Gi" ;; b <- parsedResourceToBaseUnit q ;;
   scaleBaseUnitMemory b (unit q)) = Ok {| number := 1.5; unit := Some U.Gi |} /\
  (q <- parseResource "10P" ;; b <- parsedResourceToBaseUnit q ;;
   scaleBaseUnitCpu b (unit q)) = Ok {| number := 10; unit := Some U.P |} /\
  (q <- parseResource "7.7u" ;; b <- parsedResourceToBaseUnit q ;;
   scaleBaseUnitCpu b (unit q)) =
    Ok {| number := 7.699999999999999; unit := Some U.u |} /\
  number_eq 7.699999999999999 7.7 = false.
Proof.
  assert (Hbig : forall (q : K8sParsedResource) (a : K8sResourceUnit) (z : Z),
             unit q = Some a -> a <> U.Empty ->
             parsedResourceToBaseUnit q = Ok (Big z) ->
             exists N D,
               scaled_mantissa (number q) = Ok N /\
               precision_divisor (number q) = Ok D /\
               D <> 0 /\
               scaleBaseUnitCpu (Big z) (unit q) =
                 Ok {| number := of_Z (Z.quot N D); unit := Some a |} /\
               scaleBaseUnitMemory (Big z) (unit q) =
                 Ok {| number := of_Z (Z.quot N D); unit := Some a |}).
  { intros q a z Hu Ha Hb.
    apply parsedResourceToBaseUnit_bigint in Hb
      as (N & Mz & D & HN & HM & HD & HD0 & ->).
    rewrite Hu in *. cbn [multiplier_of] in HM.
    exists N, D. split; [exact HN |]. split; [exact HD |].
    split; [exact HD0 |].
    destruct (scale_explicit (Big (Z.quot (N * Mz) D)) a Ha) as [Hc Hmem].
    rewrite Hmem, Hc. unfold explicit_multiplier. cbn [is_bigint].
    rewrite HM. cbn [bind scale_by]. unfold bigint_div.
    pose proof (multiplier_bigint_nonzero a Mz HM) as HMz.
    destruct (Z.eqb_spec Mz 0) as [E0 | _]; [contradiction |].
    cbn [bind Number]. rewrite (quot_scaled N Mz D HMz HD0).
    split; reflexivity. }
  split; [| split; [exact Hbig | split; [| split]]].
  - intros q a y Hu Ha Hb.
    apply base_number_inv in Hb as (uMul & Hm & -> & Hle).
    rewrite Hu in *. cbn [multiplier_of] in Hm.
    exists uMul. split; [exact Hm |].
    destruct (scale_explicit (Num (number q * uMul)) a Ha) as [Hc Hmem].
    rewrite Hmem, Hc. unfold explicit_multiplier. cbn [is_bigint].
    rewrite Hm. split; [reflexivity |]. split; [reflexivity |].
    intros Hx.
    destruct (number_multiplier a uMul Hm) as (mc & ec & Hc' & Hmc & Hec).
    exact (round_trip_close (number q) uMul mc ec Hc' Hmc Hec Hle Hx).
  - intros q a z Hu Ha Hb Hp.
    destruct (Hbig q a z Hu Ha Hb) as (N & D & HN & HD & _ & Hc & Hmem).
    unfold scaled_mantissa in HN. unfold precision_divisor in HD.
    rewrite Hp in HN, HD.
    replace (pow10 0) with 1%float in HN, HD by (vm_compute; reflexivity).
    rewrite mul_one in HN.
    vm_compute in HD. apply Ok_inj in HD. subst D.
    rewrite Z.quot_1_r in Hc, Hmem.
    exists (of_Z N). split; [exact (Number_BigInt _ _ HN) |].
    split; assumption.
  - intros b. split.
    + unfold scaleBaseUnitCpu. cbn [truthy].
      destruct (number_eq (Number b) 0); [reflexivity |].
      rewrite (select_unit_start b _ (Some U.Empty, Num 1) (None, Num 1));
        [reflexivity |].
      destruct (ltb b (Num 1)); discriminate.
    + unfold scaleBaseUnitMemory. cbn [truthy].
      rewrite (select_unit_start b _ (Some U.Empty, Num 1) (None, Num 1));
        [reflexivity | discriminate].
  - repeat split; vm_compute; reflexivity.
Qed.

Lemma scale_back_to_own_unit_witness :
  (let q := {| number := 7.7; unit := Some U.u |} in
   unit q = Some U.u /\ U.u <> U.Empty /\
   parsedResourceToBaseUnit q = Ok (Num (7.7 * 1e-6)) /\
   roundable (number q) /\
   within_tolerance ((7.7 * 1e-6) / 1e-6) 7.7) /\
  (let q := {| number := 12345678901.5; unit := Some U.M |} in
   unit q = Some U.M /\ U.M <> U.Empty /\
   parsedResourceToBaseUnit q = Ok (Big 12345678901500000) /\
   exists N D,
     scaled_mantissa (number q) = Ok N /\
     precision_divisor (number q) = Ok D /\
     D <> 0 /\
     scaleBaseUnitCpu (Big 12345678901500000) (unit q) =
       Ok {| number := of_Z (Z.quot N D); unit := Some U.M |} /\
     scaleBaseUnitMemory (Big 12345678901500000) (unit q) =
       Ok {| number := of_Z (Z.quot N D); unit := Some U.M |}).
Proof.
  split.
  - intros q.
    assert (Hu : unit q = Some U.u) by reflexivity.
    assert (Ha : U.u <> U.Empty) by discriminate.
    assert (Hb : parsedResourceToBaseUnit q = Ok (Num (7.7 * 1e-6)))
      by (vm_compute; reflexivity).
    assert (Hx : roundable (number q)).
    { right. split; vm_compute; discriminate. }
    split; [exact Hu |]. split; [exact Ha |]. split; [exact Hb |].
    split; [exact Hx |].
    destruct (proj1 scale_back_to_own_unit q U.u _ Hu Ha Hb)
      as (uMul & Hm & _ & _ & Htol).
    cbn [unitMultiplier] in Hm. inversion Hm. subst uMul.
    exact (Htol Hx).
  - intros q.
    assert (Hu : unit q = Some U.M) by reflexivity.
    assert (Ha : U.M <> U.Empty) by discriminate.
    assert (Hb : parsedResourceToBaseUnit q = Ok (Big 12345678901500000))
      by (vm_compute; reflexivity).
    split; [exact Hu |]. split; [exact Ha |]. split; [exact Hb |].
    exact (proj1 (proj2 scale_back_to_own_unit) q U.M _ Hu Ha Hb).
Defined.
